(** * Mahoot feed generator: quota allocation, view tracking and statistics

    A shallow embedding of the TypeScript sources of the feed generator
    (user-management, statistics, followee-tracking, the [mahoot] feed
    algorithm, the firehose subscription and the migrations that declare
    the tables), followed by the properties of the allocation engine and of
    the code that maintains the tables it reads.

    Conventions of the embedding.
    - JavaScript numbers that hold integers are [Z]; array lengths are [nat]
      and are injected with [Z.of_nat] where the source mixes them.
    - An instant ([new Date()], [Date.now()], an ISO-8601 timestamp column)
      is its number of milliseconds since the epoch.  The ISO strings the
      source compares have a fixed width, so their string order is the
      order of these numbers.  A [YYYY-MM-DD] date is its day number.
    - A table is the list of its rows in insertion order; the uniqueness
      constraints are the ones the migrations declare, table by table.
    - An [async] function is a state transformer over the [World] that can
      also throw.  The world holds the database and counts the readings of
      the wall clock and the draws of [Math.random()]; what a reading or a
      draw returns is given by the [Runtime].

    The file has the embedding first, then the vocabulary the properties
    are stated in and the concrete worlds they are run on, then the
    properties. *)

From stdpp Require Import base tactics option list sorting strings numbers pretty.
From Stdlib Require Import Ascii QArith Qround.

Local Open Scope Z_scope.

(** ** Rows of the tables (db/schema.ts) *)

Module Post.
Record t := mk {
    uri : string;
    cid : string;
    indexedAt : Z;
    author_did : string }.
End Post.

Module SubState.
Record t := mk {
    service : string;
    cursor : Z }.
End SubState.

Module UserPreferences.
Record t := mk {
    user_did : string;
    daily_post_limit : Z;
    default_mahoot_number : Z;
    created_at : Z;
    updated_at : Z }.
End UserPreferences.

Module FolloweeRelationship.
Record t := mk {
    user_did : string;
    followee_did : string;
    mahoot_number : Z;
    follow_uri : string;
    created_at : Z;
    updated_at : Z }.
End FolloweeRelationship.

Module PostStatistics.
Record t := mk {
    post_uri : string;
    author_did : string;
    viewer_did : string;
    viewed_at : Z }.
End PostStatistics.

Module DailyStats.
Record t := mk {
    user_did : string;
    date : Z;
    total_posts_viewed : Z;
    followee_count : Z }.
End DailyStats.

Record Database := mkDatabase {
  post : list Post.t;
  sub_state : list SubState.t;
  user_preferences : list UserPreferences.t;
  followee_relationships : list FolloweeRelationship.t;
  post_statistics : list PostStatistics.t;
  daily_stats : list DailyStats.t }.

Definition empty_db : Database := mkDatabase [] [] [] [] [] [].

Definition set_user_preferences (t : list UserPreferences.t) (d : Database) : Database :=
  mkDatabase (post d) (sub_state d) t (followee_relationships d)
             (post_statistics d) (daily_stats d).

Definition set_followee_relationships (t : list FolloweeRelationship.t) (d : Database) : Database :=
  mkDatabase (post d) (sub_state d) (user_preferences d) t
             (post_statistics d) (daily_stats d).

Definition set_post_statistics (t : list PostStatistics.t) (d : Database) : Database :=
  mkDatabase (post d) (sub_state d) (user_preferences d) (followee_relationships d)
             t (daily_stats d).

Definition set_daily_stats (t : list DailyStats.t) (d : Database) : Database :=
  mkDatabase (post d) (sub_state d) (user_preferences d) (followee_relationships d)
             (post_statistics d) t.

(** ** Uniqueness constraints (db/migrations.ts)

    Two rows conflict when they agree on a declared primary key or unique
    constraint.  Migration 002 gives [user_preferences] a primary key and
    [followee_relationships] and [daily_stats] a unique constraint; it
    creates [post_statistics] with four plain columns and indexes only. *)

Definition user_preferences_conflict (a b : UserPreferences.t) : Prop :=
  UserPreferences.user_did a = UserPreferences.user_did b.

Definition followee_relationships_conflict (a b : FolloweeRelationship.t) : Prop :=
  FolloweeRelationship.user_did a = FolloweeRelationship.user_did b
  ∧ FolloweeRelationship.followee_did a = FolloweeRelationship.followee_did b.

Definition post_statistics_conflict (a b : PostStatistics.t) : Prop := False.

Definition daily_stats_conflict (a b : DailyStats.t) : Prop :=
  DailyStats.user_did a = DailyStats.user_did b
  ∧ DailyStats.date a = DailyStats.date b.

Global Instance user_preferences_conflict_dec a b :
  Decision (user_preferences_conflict a b).
Proof. unfold user_preferences_conflict. apply _. Defined.

Global Instance followee_relationships_conflict_dec a b :
  Decision (followee_relationships_conflict a b).
Proof. unfold followee_relationships_conflict. apply _. Defined.

Global Instance post_statistics_conflict_dec a b :
  Decision (post_statistics_conflict a b).
Proof. unfold post_statistics_conflict. apply _. Defined.

Global Instance daily_stats_conflict_dec a b :
  Decision (daily_stats_conflict a b).
Proof. unfold daily_stats_conflict. apply _. Defined.

(** [INSERT INTO table VALUES row]: [None] is the constraint violation the
    driver raises. *)
Definition sql_insert {R} (conflict : R → R → Prop)
    `{∀ a b, Decision (conflict a b)} (row : R) (table : list R) : option (list R) :=
  if decide (Exists (conflict row) table) then None else Some (table ++ [row]).

(** [INSERT ... ON CONFLICT DO NOTHING]. *)
Definition sql_insert_do_nothing {R} (conflict : R → R → Prop)
    `{∀ a b, Decision (conflict a b)} (row : R) (table : list R) : list R :=
  default table (sql_insert conflict row table).

(** [UPDATE table SET ... WHERE cond]. *)
Definition sql_update {R} (cond : R → Prop) `{∀ r, Decision (cond r)}
    (set : R → R) (table : list R) : list R :=
  (λ r, if decide (cond r) then set r else r) <$> table.

(** [LIMIT n]; SQLite reads a negative limit as no limit. *)
Definition sql_limit {R} (n : Z) (rows : list R) : list R :=
  if decide (n < 0) then rows else take (Z.to_nat n) rows.

(** [Array.prototype.sort(compareFn)]: stable; a comparator result of
    [None] stands for [NaN], which the engine reads as [0].  With a
    comparator that is not a consistent order, as one that returns [NaN]
    is, the order of the result depends on the engine's algorithm; the
    result is a permutation of the array in every engine, and that is all
    the properties use of such a sort. *)
Fixpoint sort_insert {A} (compareFn : A → A → option Z) (x : A) (l : list A) : list A :=
  match l with
  | [] => [x]
  | y :: l' =>
      if decide (default 0 (compareFn x y) ≤ 0) then x :: y :: l'
      else y :: sort_insert compareFn x l'
  end.

Definition Array_sort {A} (compareFn : A → A → option Z) (l : list A) : list A :=
  foldr (sort_insert compareFn) [] l.

(** ** Time *)

Definition MS_PER_DAY : Z := 86400000.

(** [t.toISOString().split('T')[0]] *)
Definition isoDate (t : Z) : Z := t `div` MS_PER_DAY.

(** The instant written [`${date}T00:00:00.000Z`]. *)
Definition startOfDay (date : Z) : Z := date * MS_PER_DAY.

(** The instant written [`${date}T23:59:59.999Z`]. *)
Definition lastMsOfDay (date : Z) : Z := date * MS_PER_DAY + 86399999.

(** [d.setDate(d.getDate() - days)], for a process whose local time is UTC.
    [setDate] works on the fields of local time: in a zone with daylight
    saving the step differs from [days] times 24 hours by the change of the
    zone's offset, an hour.  The properties stated over a cutoff taken with
    [daysAgo] keep more than that margin, or are relative to the cutoff. *)
Definition daysAgo (t : Z) (days : Z) : Z := t - days * MS_PER_DAY.

(** ** The world an async function runs in *)

(** What the run-time supplies: the successive readings of the wall clock,
    the successive results of [Math.random()] (reals of [[0,1)]) and the
    date parser behind [new Date(string).getTime()] ([None] is [NaN]). *)
Record Runtime := mkRuntime {
  clock : nat → Z;
  Math_random : nat → Q;
  Date_parse : string → option Z }.

Record World := mkWorld {
  db : Database;
  clock_reads : nat;
  random_draws : nat }.

Inductive Outcome (A : Type) : Type :=
  | Returned (a : A)
  | Thrown (message : string).
Arguments Returned {A} a.
Arguments Thrown {A} message.

Definition Async (A : Type) : Type := World → Outcome A * World.

Definition ret {A} (a : A) : Async A := λ w, (Returned a, w).

Definition bind {A B} (m : Async A) (k : A → Async B) : Async B :=
  λ w, match m w with
       | (Returned a, w') => k a w'
       | (Thrown e, w') => (Thrown e, w')
       end.

Definition throw {A} (message : string) : Async A := λ w, (Thrown message, w).

(** [try { m } catch (error) { h }] *)
Definition try_catch {A} (m : Async A) (h : Async A) : Async A :=
  λ w, match m w with
       | (Returned a, w') => (Returned a, w')
       | (Thrown _, w') => h w'
       end.

Notation "x <- m ;; k" := (bind m (λ x, k))
  (at level 100, m at next level, k at level 200, right associativity).
Notation "m ;;; k" := (bind m (λ _, k))
  (at level 100, k at level 200, right associativity).

Definition query {A} (q : Database → A) : Async A := λ w, (Returned (q (db w)), w).

Definition execute (f : Database → Database) : Async unit :=
  λ w, (Returned (), mkWorld (f (db w)) (clock_reads w) (random_draws w)).

(** A statement that may violate a constraint. *)
Definition execute_or_throw (f : Database → option Database) : Async unit :=
  λ w, match f (db w) with
       | Some d => (Returned (), mkWorld d (clock_reads w) (random_draws w))
       | None => (Thrown "SQLITE_CONSTRAINT", w)
       end.

(** ** Shapes of the feed algorithm's input and output *)

Record QueryParams := mkQueryParams {
  param_feed : string;
  limit : option Z;
  param_cursor : option string }.

Inductive PriorityLevel := high | low | normal.

Module Metadata.
Record t := mk {
  mahootNumber : Z;
  isCustomMahoot : bool;
  priorityLevel : PriorityLevel;
  postsViewedFromFollowee : Z;
  followeeDid : string;
  timestamp : Z }.
End Metadata.

Module MahootFeedItem.
Record t := mk {
  post : string;
  author_did : string;
  mahoot_number : Z;
  posts_viewed_today : Z;
  reason : string;
  metadata : Metadata.t }.
End MahootFeedItem.

Module SkeletonItem.
Record t := mk {
  post : string;
  reason : option string;
  mahoot : option Metadata.t }.
End SkeletonItem.

Record Features := mkFeatures {
  dailyLimits : bool;
  mahootNumbers : bool;
  amplification : bool;
  randomSelection : bool;
  statistics : bool }.

Record FeedMetadata := mkFeedMetadata {
  algorithm : string;
  version : string;
  userDid : string;
  dailyPostLimit : Z;
  defaultMahootNumber : Z;
  fm_followeeCount : Z;
  postsViewedToday : Z;
  remainingPosts : Z;
  feedGeneratedAt : Z;
  features : Features }.

Record FeedOutput := mkFeedOutput {
  cursor : option string;
  feed : list SkeletonItem.t;
  metadata : option FeedMetadata }.

(** [params.limit || 20]: an absent limit and the limit [0] are both falsy. *)
Definition limit_or_default (params : QueryParams) : Z :=
  match limit params with
  | None => 20
  | Some n => if decide (n = 0) then 20 else n
  end.

(** [array.slice(0, end)] *)
Definition slice0 {A} (endIndex : Z) (l : list A) : list A :=
  if decide (endIndex < 0)
  then take (Z.to_nat (Z.max (Z.of_nat (length l) + endIndex) 0)) l
  else take (Z.to_nat endIndex) l.

(** [[a[i], a[j]] = [a[j], a[i]]] *)
Definition swap {A} (i j : nat) (a : list A) : list A :=
  match a !! i, a !! j with
  | Some x, Some y => <[j:=x]> (<[i:=y]> a)
  | _, _ => a
  end.

(** ** Firehose operations (followee-tracking.ts, subscription.ts) *)

Module FollowRecord.
Record t := mk {
    subject : string;
    createdAt : string }.
End FollowRecord.

Module FollowEvent.
Record t := mk {
    uri : string;
    cid : string;
    author : string;
    record : FollowRecord.t }.
End FollowEvent.

Module UnfollowEvent.
Record t := mk {
    uri : string }.
End UnfollowEvent.

(** A created post as [handleEvent] reads it: [create.uri], [create.cid]
    and [create.author]. *)
Module PostCreate.
Record t := mk {
    uri : string;
    cid : string;
    author : string }.
End PostCreate.

Module PostDelete.
Record t := mk {
    uri : string }.
End PostDelete.

(** [ops.posts] and [ops.follows] of the value [getOpsByType] returns. *)
Record Operations (C D : Type) := mkOperations {
  creates : list C;
  deletes : list D }.
Arguments mkOperations {C D} creates deletes.
Arguments creates {C D} o.
Arguments deletes {C D} o.

Record OperationsByType := mkOperationsByType {
  posts : Operations PostCreate.t PostDelete.t;
  follows : Operations FollowEvent.t UnfollowEvent.t }.

(** Migration 001 gives [post] the primary key [uri]. *)
Definition post_conflict (a b : Post.t) : Prop := Post.uri a = Post.uri b.

Global Instance post_conflict_dec a b : Decision (post_conflict a b).
Proof. unfold post_conflict. apply _. Defined.

Definition set_post (t : list Post.t) (d : Database) : Database :=
  mkDatabase t (sub_state d) (user_preferences d) (followee_relationships d)
             (post_statistics d) (daily_stats d).

(** [DELETE FROM table WHERE cond] *)
Definition sql_delete {R} (cond : R → Prop) `{∀ r, Decision (cond r)}
    (table : list R) : list R :=
  filter (λ r, ¬ cond r) table.

(** [INSERT INTO table VALUES row1, row2, ... ON CONFLICT DO NOTHING]: the
    rows are inserted one after the other. *)
Definition sql_insert_all_do_nothing {R} (conflict : R → R → Prop)
    `{∀ a b, Decision (conflict a b)} (rows : list R) (table : list R) : list R :=
  foldl (λ t row, sql_insert_do_nothing conflict row t) table rows.

Section WithRuntime.
Context (rt : Runtime).

(** [new Date()] and [Date.now()] *)
Definition new_Date : Async Z :=
  λ w, (Returned (clock rt (clock_reads w)),
        mkWorld (db w) (S (clock_reads w)) (random_draws w)).

(** [Math.random()] *)
Definition random : Async Q :=
  λ w, (Returned (Math_random rt (random_draws w)),
        mkWorld (db w) (clock_reads w) (S (random_draws w))).

(** ** user-management *)

Definition DEFAULT_DAILY_POST_LIMIT : Z := 300.
Definition DEFAULT_MAHOOT_NUMBER : Z := 7.

Definition find_user_preferences (userDid : string) (d : Database) : option UserPreferences.t :=
  head (filter (λ r, UserPreferences.user_did r = userDid) (user_preferences d)).

Definition getOrCreateUserPreferences (userDid : string) : Async UserPreferences.t :=
  now <- new_Date ;;
  existing <- query (find_user_preferences userDid) ;;
  match existing with
  | Some prefs => ret prefs
  | None =>
      let row := UserPreferences.mk userDid DEFAULT_DAILY_POST_LIMIT
                   DEFAULT_MAHOOT_NUMBER now now in
      execute_or_throw (λ d,
        t ← sql_insert user_preferences_conflict row (user_preferences d);
        Some (set_user_preferences t d)) ;;;
      ret row
  end.

Definition getUserFollowees (userDid : string) (d : Database) : list FolloweeRelationship.t :=
  filter (λ r, FolloweeRelationship.user_did r = userDid) (followee_relationships d).

(** [db.fn.count('followee_did')] over the user's rows *)
Definition followee_count_of (userDid : string) (d : Database) : Z :=
  Z.of_nat (length (getUserFollowees userDid d)).

(** [Math.ceil(a / b)] for [b > 0] *)
Definition ceil_div (a b : Z) : Z := - ((- a) `div` b).

Definition calculateDefaultMahootNumber (userDid : string) : Async Z :=
  preferences <- getOrCreateUserPreferences userDid ;;
  count <- query (followee_count_of userDid) ;;
  if decide (count = 0) then ret (UserPreferences.default_mahoot_number preferences)
  else
    let calculated :=
      Z.max 1 (ceil_div (UserPreferences.daily_post_limit preferences) count) in
    ret (Z.min calculated 20).

(** ** statistics *)

Definition trackPostView (postUri authorDid viewerDid : string) : Async unit :=
  now <- new_Date ;;
  execute (λ d,
    set_post_statistics
      (sql_insert_do_nothing post_statistics_conflict
         (PostStatistics.mk postUri authorDid viewerDid now) (post_statistics d)) d).

(** The rows [getPostsViewedToday] selects when [today] is the date it read. *)
Definition viewed_on (viewerDid : string) (today : Z) (d : Database) : list PostStatistics.t :=
  filter (λ r, PostStatistics.viewer_did r = viewerDid
               ∧ startOfDay today ≤ PostStatistics.viewed_at r
               ∧ PostStatistics.viewed_at r < lastMsOfDay today)
         (post_statistics d).

Definition getPostsViewedToday (viewerDid : string) : Async (list PostStatistics.t) :=
  now <- new_Date ;;
  let today := isoDate now in
  query (viewed_on viewerDid today).

Definition getDailyStats (userDid : string) (date : Z) (d : Database) : option DailyStats.t :=
  head (filter (λ r, DailyStats.user_did r = userDid ∧ DailyStats.date r = date)
               (daily_stats d)).

Definition updateDailyStats (userDid : string) (date totalPostsViewed followeeCount : Z)
    : Async DailyStats.t :=
  now <- new_Date ;;
  try_catch
    (execute_or_throw (λ d,
       t ← sql_insert daily_stats_conflict
             (DailyStats.mk userDid date totalPostsViewed followeeCount) (daily_stats d);
       Some (set_daily_stats t d)))
    (execute (λ d,
       set_daily_stats
         (sql_update
            (λ r, DailyStats.user_did r = userDid ∧ DailyStats.date r = date)
            (λ r, DailyStats.mk (DailyStats.user_did r) (DailyStats.date r)
                    totalPostsViewed followeeCount)
            (daily_stats d)) d)) ;;;
  result <- query (getDailyStats userDid date) ;;
  match result with
  | Some row => ret row
  | None => throw "Failed to update daily stats"
  end.

Record RollingStats := mkRollingStats {
  totalPostsViewed : Z;
  averagePostsPerDay : Q;
  followeeCount : Z;
  daysWithData : Z }.

(** SQL [sum] and [avg] over a column; [None] is the [NULL] they give on
    no rows. *)
Definition column_total (xs : list Z) : Z := foldr Z.add 0 xs.

Definition sql_sum (xs : list Z) : option Z :=
  match xs with [] => None | _ => Some (column_total xs) end.

(** [avg] is the exact mean of the column.  The driver returns the double
    nearest to it: the mean itself when that is a double, as the mean of
    two integers is, and otherwise a number that lies between the same
    integers as the mean.  The properties of an average are stated so
    that they hold of the double as well. *)
Definition sql_avg (xs : list Z) : option Q :=
  match xs with
  | [] => None
  | _ => Some (inject_Z (column_total xs) / inject_Z (Z.of_nat (length xs)))%Q
  end.

(** [Math.round] *)
Definition Math_round (x : Q) : Z := Qfloor (Qplus x (Qmake 1 2)).

(** The rows [where user_did = userDid and date >= cutoff]. *)
Definition daily_stats_since (userDid : string) (cutoff : Z) (d : Database)
    : list DailyStats.t :=
  filter (λ r, DailyStats.user_did r = userDid ∧ cutoff ≤ DailyStats.date r)
         (daily_stats d).

Definition get30DayRollingStats (userDid : string) : Async RollingStats :=
  now <- new_Date ;;
  let cutoffDate := daysAgo now 30 in
  stats <- query (daily_stats_since userDid (isoDate cutoffDate)) ;;
  ret {| totalPostsViewed := default 0 (sql_sum (DailyStats.total_posts_viewed <$> stats));
         averagePostsPerDay := default 0%Q (sql_avg (DailyStats.total_posts_viewed <$> stats));
         followeeCount :=
           Math_round (default 0%Q (sql_avg (DailyStats.followee_count <$> stats)));
         daysWithData := Z.of_nat (length stats) |}.

Record PostAuthorStats := mkPostAuthorStats {
  pas_author_did : string;
  pas_viewer_did : string;
  posts_viewed_today : Z;
  posts_viewed_this_week : Z;
  posts_viewed_this_month : Z;
  pas_mahoot_number : Z }.

(** [count(post_uri)] of the viewer's rows for the author from [since] on *)
Definition views_since (viewerDid authorDid : string) (since : Z) (d : Database) : Z :=
  Z.of_nat (length (filter
    (λ r, PostStatistics.viewer_did r = viewerDid
          ∧ PostStatistics.author_did r = authorDid
          ∧ since ≤ PostStatistics.viewed_at r)
    (post_statistics d))).

Definition find_relationship (userDid followeeDid : string) (d : Database)
    : option FolloweeRelationship.t :=
  head (filter (λ r, FolloweeRelationship.user_did r = userDid
                     ∧ FolloweeRelationship.followee_did r = followeeDid)
               (followee_relationships d)).

Definition getPostAuthorStats (viewerDid authorDid : string) : Async PostAuthorStats :=
  now <- new_Date ;;
  let today := isoDate now in
  now7 <- new_Date ;;
  let weekAgo := daysAgo now7 7 in
  now30 <- new_Date ;;
  let monthAgo := daysAgo now30 30 in
  todayPosts <- query (views_since viewerDid authorDid (startOfDay today)) ;;
  weekPosts <- query (views_since viewerDid authorDid weekAgo) ;;
  monthPosts <- query (views_since viewerDid authorDid monthAgo) ;;
  relationship <- query (find_relationship viewerDid authorDid) ;;
  ret {| pas_author_did := authorDid;
         pas_viewer_did := viewerDid;
         posts_viewed_today := todayPosts;
         posts_viewed_this_week := weekPosts;
         posts_viewed_this_month := monthPosts;
         pas_mahoot_number :=
           default 0 (FolloweeRelationship.mahoot_number <$> relationship) |}.

(** [select author_did ... distinct].  SQL leaves the order of the rows
    open; the properties are about which authors are listed. *)
Definition viewed_authors (viewerDid : string) (d : Database) : list string :=
  remove_dups (PostStatistics.author_did <$>
    filter (λ r, PostStatistics.viewer_did r = viewerDid) (post_statistics d)).

Fixpoint collect_author_stats (viewerDid : string) (authors : list string)
    (authorStats : list PostAuthorStats) : Async (list PostAuthorStats) :=
  match authors with
  | [] => ret authorStats
  | author :: rest =>
      stats <- getPostAuthorStats viewerDid author ;;
      collect_author_stats viewerDid rest (authorStats ++ [stats])
  end.

Definition getAllAuthorStats (viewerDid : string) : Async (list PostAuthorStats) :=
  authors <- query (viewed_authors viewerDid) ;;
  collect_author_stats viewerDid authors [].

(** [ORDER BY indexedAt DESC]; rows with equal keys keep their table order. *)
Definition order_by_indexedAt_desc (rows : list Post.t) : list Post.t :=
  Array_sort (λ a b, Some (Post.indexedAt b - Post.indexedAt a)) rows.

(** The rows [where author_did = authorDid and not exists (a ViewRecord
    of the post for the viewer)]. *)
Definition unviewed_posts (viewerDid authorDid : string) (d : Database) : list Post.t :=
  filter (λ p, Post.author_did p = authorDid
               ∧ ¬ Exists (λ s, PostStatistics.post_uri s = Post.uri p
                                ∧ PostStatistics.viewer_did s = viewerDid)
                          (post_statistics d))
         (post d).

Definition getUnviewedPostsByAuthor (viewerDid authorDid : string) (limit : Z)
    (d : Database) : list Post.t :=
  sql_limit limit (order_by_indexedAt_desc (unviewed_posts viewerDid authorDid d)).

(** ** The mahoot feed algorithm (algos/mahoot.ts) *)

(** The Fisher-Yates loop [for (let i = length - 1; i > 0; i--)].  The
    index [j] is taken from the exact product; the product of doubles the
    code takes can round to a neighbouring index.  The properties hold
    for every choice of the indices. *)
Fixpoint shuffle_from {A} (i : nat) (a : list A) : Async (list A) :=
  match i with
  | O => ret a
  | S i' =>
      r <- random ;;
      let j := Qfloor (Qmult r (inject_Z (Z.of_nat i + 1))) in
      shuffle_from i' (swap i (Z.to_nat j) a)
  end.

Definition shuffle {A} (a : list A) : Async (list A) :=
  shuffle_from (length a - 1) a.

(** [uri.split('/').pop()] *)
Fixpoint last_segment (s : string) (acc : string) : string :=
  match s with
  | EmptyString => acc
  | String c s' =>
      if decide (c = "/"%char) then last_segment s' ""
      else last_segment s' (acc +:+ String c "")
  end.

(** [new Date(uri.split('/').pop() || '0').getTime()] *)
Definition uri_time (postUri : string) : option Z :=
  let segment := last_segment postUri "" in
  Date_parse rt (if decide (segment = "") then "0" else segment).

Definition by_uri_time_desc (a b : MahootFeedItem.t) : option Z :=
  match uri_time (MahootFeedItem.post a), uri_time (MahootFeedItem.post b) with
  | Some aTime, Some bTime => Some (bTime - aTime)
  | _, _ => None
  end.

Definition by_mahoot_number_desc (a b : FolloweeRelationship.t) : option Z :=
  Some (FolloweeRelationship.mahoot_number b - FolloweeRelationship.mahoot_number a).

Definition up_arrow : string := "⬆️".
Definition down_arrow : string := "⬇️".

Section Handler.
Context (requesterDid : string) (userPrefs : UserPreferences.t)
        (postsViewedToday : list PostStatistics.t) (postsToShow : Z).

(** The loop [for (const post of shuffledPosts)] of one followee. *)
Fixpoint add_posts (followeeDid : string) (mahootNumber : Z) (shuffledPosts : list Post.t)
    (postsViewedFromFolloweeCount : Z) (mahootFeed : list MahootFeedItem.t)
    : Async (list MahootFeedItem.t) :=
  match shuffledPosts with
  | [] => ret mahootFeed
  | post :: rest =>
      let default_number := UserPreferences.default_mahoot_number userPrefs in
      let isCustomMahoot := bool_decide (mahootNumber ≠ default_number) in
      let priorityIndicator :=
        if decide (mahootNumber > default_number) then up_arrow
        else if decide (mahootNumber < default_number) then down_arrow else "" in
      let reason :=
        "Mahoot: " +:+ pretty (postsViewedFromFolloweeCount + 1) +:+ "/"
          +:+ pretty mahootNumber +:+ " posts from this followee today"
          +:+ (if decide (priorityIndicator = "") then ""
               else " " +:+ priorityIndicator) in
      let priorityLevel :=
        if decide (mahootNumber > default_number) then high
        else if decide (mahootNumber < default_number) then low else normal in
      timestamp <- new_Date ;;
      let metadata :=
        Metadata.mk mahootNumber isCustomMahoot priorityLevel
          (postsViewedFromFolloweeCount + 1) followeeDid timestamp in
      let mahootFeed :=
        mahootFeed ++ [MahootFeedItem.mk (Post.uri post) followeeDid mahootNumber
                         postsViewedFromFolloweeCount reason metadata] in
      trackPostView (Post.uri post) followeeDid requesterDid ;;;
      if decide (Z.of_nat (length mahootFeed) >= postsToShow) then ret mahootFeed
      else add_posts followeeDid mahootNumber rest
             (postsViewedFromFolloweeCount + 1) mahootFeed
  end.

(** The loop [for (const followee of sortedFollowees)]. *)
Fixpoint process_followees (sortedFollowees : list FolloweeRelationship.t)
    (mahootFeed : list MahootFeedItem.t) : Async (list MahootFeedItem.t) :=
  match sortedFollowees with
  | [] => ret mahootFeed
  | followee :: rest =>
      let followeeDid := FolloweeRelationship.followee_did followee in
      let mahootNumber := FolloweeRelationship.mahoot_number followee in
      if decide (mahootNumber = 0) then process_followees rest mahootFeed
      else
        let postsViewedFromFollowee :=
          filter (λ post, PostStatistics.author_did post = followeeDid) postsViewedToday in
        let postsViewedFromFolloweeCount := Z.of_nat (length postsViewedFromFollowee) in
        if decide (postsViewedFromFolloweeCount >= mahootNumber)
        then process_followees rest mahootFeed
        else
          let remainingFromFollowee := mahootNumber - postsViewedFromFolloweeCount in
          let postsToShowFromFollowee :=
            Z.min remainingFromFollowee (postsToShow - Z.of_nat (length mahootFeed)) in
          if decide (postsToShowFromFollowee ≤ 0) then process_followees rest mahootFeed
          else
            unviewedPosts <- query (getUnviewedPostsByAuthor requesterDid followeeDid
                                      (postsToShowFromFollowee * 3)) ;;
            if decide (length unviewedPosts = 0%nat) then process_followees rest mahootFeed
            else
              let postsToInclude := slice0 postsToShowFromFollowee unviewedPosts in
              shuffledPosts <- shuffle postsToInclude ;;
              mahootFeed <- add_posts followeeDid mahootNumber shuffledPosts
                              postsViewedFromFolloweeCount mahootFeed ;;
              if decide (Z.of_nat (length mahootFeed) >= postsToShow) then ret mahootFeed
              else process_followees rest mahootFeed
  end.

End Handler.

Definition to_skeleton (item : MahootFeedItem.t) : SkeletonItem.t :=
  SkeletonItem.mk (MahootFeedItem.post item)
    (if decide (MahootFeedItem.reason item = "") then None
     else Some (MahootFeedItem.reason item))
    (Some (MahootFeedItem.metadata item)).

Definition empty_page : FeedOutput := mkFeedOutput None [] None.

Definition handler (params : QueryParams) (requester : option string) : Async FeedOutput :=
  match requester with
  | None => throw "User authentication required for Mahoot feed"
  | Some requesterDid =>
    if decide (requesterDid = "")
    then throw "User authentication required for Mahoot feed"
    else
    userPrefs <- getOrCreateUserPreferences requesterDid ;;
    followees <- query (getUserFollowees requesterDid) ;;
    if decide (length followees = 0%nat) then ret empty_page
    else
    postsViewedToday <- getPostsViewedToday requesterDid ;;
    let postsViewedCount := Z.of_nat (length postsViewedToday) in
    if decide (postsViewedCount >= UserPreferences.daily_post_limit userPrefs)
    then ret empty_page
    else
    let remainingPosts := UserPreferences.daily_post_limit userPrefs - postsViewedCount in
    let postsToShow := Z.min remainingPosts (limit_or_default params) in
    now <- new_Date ;;
    let today := isoDate now in
    let sortedFollowees := Array_sort by_mahoot_number_desc followees in
    mahootFeed <- process_followees requesterDid userPrefs postsViewedToday postsToShow
                    sortedFollowees [] ;;
    let mahootFeed := Array_sort by_uri_time_desc mahootFeed in
    let newTotalPostsViewed := postsViewedCount + Z.of_nat (length mahootFeed) in
    updateDailyStats requesterDid today newTotalPostsViewed
      (Z.of_nat (length followees)) ;;;
    cursor <- match last mahootFeed with
              | Some lastPost =>
                  now <- new_Date ;;
                  ret (Some (pretty now +:+ "::" +:+ MahootFeedItem.post lastPost))
              | None => ret None
              end ;;
    let feed := to_skeleton <$> mahootFeed in
    generatedAt <- new_Date ;;
    ret (mkFeedOutput cursor feed
           (Some (mkFeedMetadata "mahoot" "1.0.0" requesterDid
                    (UserPreferences.daily_post_limit userPrefs)
                    (UserPreferences.default_mahoot_number userPrefs)
                    (Z.of_nat (length followees)) postsViewedCount
                    (UserPreferences.daily_post_limit userPrefs - postsViewedCount)
                    generatedAt (mkFeatures true true true true true))))
  end.

(** ** user-management: updates *)

Definition updateUserDailyPostLimit (userDid : string) (dailyPostLimit : Z)
    : Async UserPreferences.t :=
  now <- new_Date ;;
  getOrCreateUserPreferences userDid ;;;
  execute (λ d,
    set_user_preferences
      (sql_update (λ r, UserPreferences.user_did r = userDid)
         (λ r, UserPreferences.mk (UserPreferences.user_did r) dailyPostLimit
                 (UserPreferences.default_mahoot_number r)
                 (UserPreferences.created_at r) now)
         (user_preferences d)) d) ;;;
  updated <- query (find_user_preferences userDid) ;;
  match updated with
  | Some row => ret row
  | None => throw "Failed to update user preferences"
  end.

Definition updateDefaultMahootNumber (userDid : string) (defaultMahootNumber : Z)
    : Async UserPreferences.t :=
  now <- new_Date ;;
  getOrCreateUserPreferences userDid ;;;
  execute (λ d,
    set_user_preferences
      (sql_update (λ r, UserPreferences.user_did r = userDid)
         (λ r, UserPreferences.mk (UserPreferences.user_did r)
                 (UserPreferences.daily_post_limit r) defaultMahootNumber
                 (UserPreferences.created_at r) now)
         (user_preferences d)) d) ;;;
  updated <- query (find_user_preferences userDid) ;;
  match updated with
  | Some row => ret row
  | None => throw "Failed to update user preferences"
  end.

(** [`at://${userDid}/app.bsky.graph.follow/${followeeDid}`] *)
Definition default_follow_uri (userDid followeeDid : string) : string :=
  "at://" +:+ userDid +:+ "/app.bsky.graph.follow/" +:+ followeeDid.

(** [followUri || `at://...`]: an absent and an empty URI are both falsy. *)
Definition follow_uri_or_default (userDid followeeDid : string)
    (followUri : option string) : string :=
  match followUri with
  | Some uri =>
      if decide (uri = "") then default_follow_uri userDid followeeDid else uri
  | None => default_follow_uri userDid followeeDid
  end.

Definition addOrUpdateFolloweeRelationship (userDid followeeDid : string)
    (mahootNumber : option Z) (followUri : option string)
    : Async FolloweeRelationship.t :=
  now <- new_Date ;;
  finalMahootNumber <- match mahootNumber with
                       | Some n => ret n
                       | None => calculateDefaultMahootNumber userDid
                       end ;;
  try_catch
    (execute_or_throw (λ d,
       t ← sql_insert followee_relationships_conflict
             (FolloweeRelationship.mk userDid followeeDid finalMahootNumber
                (follow_uri_or_default userDid followeeDid followUri) now now)
             (followee_relationships d);
       Some (set_followee_relationships t d)))
    (execute (λ d,
       set_followee_relationships
         (sql_update
            (λ r, FolloweeRelationship.user_did r = userDid
                  ∧ FolloweeRelationship.followee_did r = followeeDid)
            (λ r, FolloweeRelationship.mk (FolloweeRelationship.user_did r)
                    (FolloweeRelationship.followee_did r) finalMahootNumber
                    (follow_uri_or_default userDid followeeDid followUri)
                    (FolloweeRelationship.created_at r) now)
            (followee_relationships d)) d)) ;;;
  relationship <- query (find_relationship userDid followeeDid) ;;
  match relationship with
  | Some row => ret row
  | None => throw "Failed to create or update followee relationship"
  end.

Definition removeFolloweeRelationship (userDid followeeDid : string) : Async unit :=
  execute (λ d,
    set_followee_relationships
      (sql_delete (λ r, FolloweeRelationship.user_did r = userDid
                        ∧ FolloweeRelationship.followee_did r = followeeDid)
                  (followee_relationships d)) d).

(** ** statistics: windows, cleanup and unviewed posts *)

(** The rows [where viewer_did = viewerDid and viewed_at >= cutoff]. *)
Definition viewed_since (viewerDid : string) (cutoff : Z) (d : Database)
    : list PostStatistics.t :=
  filter (λ r, PostStatistics.viewer_did r = viewerDid
               ∧ cutoff ≤ PostStatistics.viewed_at r)
         (post_statistics d).

Definition getPostsViewedInLastDays (viewerDid : string) (days : Z)
    : Async (list PostStatistics.t) :=
  now <- new_Date ;;
  let cutoffDate := daysAgo now days in
  query (viewed_since viewerDid cutoffDate).

Definition viewed_by_author_since (viewerDid authorDid : string) (cutoff : Z)
    (d : Database) : list PostStatistics.t :=
  filter (λ r, PostStatistics.viewer_did r = viewerDid
               ∧ PostStatistics.author_did r = authorDid
               ∧ cutoff ≤ PostStatistics.viewed_at r)
         (post_statistics d).

Definition getPostsByAuthorViewedInLastDays (viewerDid authorDid : string) (days : Z)
    : Async (list PostStatistics.t) :=
  now <- new_Date ;;
  let cutoffDate := daysAgo now days in
  query (viewed_by_author_since viewerDid authorDid cutoffDate).

(** [daysToKeep: number = 60] *)
Definition cleanupOldStatistics (daysToKeep : option Z) : Async unit :=
  let daysToKeep := default 60 daysToKeep in
  now <- new_Date ;;
  let cutoffDate := daysAgo now daysToKeep in
  execute (λ d,
    set_post_statistics
      (sql_delete (λ r, PostStatistics.viewed_at r < cutoffDate)
                  (post_statistics d)) d) ;;;
  execute (λ d,
    set_daily_stats
      (sql_delete (λ r, DailyStats.date r < isoDate cutoffDate) (daily_stats d)) d).

(** The rows [where not exists (a ViewRecord of the post for the viewer)]. *)
Definition all_unviewed_posts (viewerDid : string) (d : Database) : list Post.t :=
  filter (λ p, ¬ Exists (λ s, PostStatistics.post_uri s = Post.uri p
                              ∧ PostStatistics.viewer_did s = viewerDid)
                        (post_statistics d))
         (post d).

(** [limit: number = 100] *)
Definition getUnviewedPosts (viewerDid : string) (limit : option Z) (d : Database)
    : list Post.t :=
  sql_limit (default 100 limit) (order_by_indexedAt_desc (all_unviewed_posts viewerDid d)).

(** ** followee-tracking *)

(** The loop [for (const event of followEvents)]; what an iteration throws
    is caught and logged. *)
Fixpoint processFollowEvents (followEvents : list FollowEvent.t) : Async unit :=
  match followEvents with
  | [] => ret ()
  | event :: rest =>
      try_catch
        (let followerDid := FollowEvent.author event in
         let followeeDid := FollowRecord.subject (FollowEvent.record event) in
         addOrUpdateFolloweeRelationship followerDid followeeDid None
           (Some (FollowEvent.uri event)) ;;;
         ret ())
        (ret ()) ;;;
      processFollowEvents rest
  end.

(** [select * from followee_relationships where follow_uri = uri], first row *)
Definition find_by_follow_uri (uri : string) (d : Database)
    : option FolloweeRelationship.t :=
  head (filter (λ r, FolloweeRelationship.follow_uri r = uri) (followee_relationships d)).

Fixpoint processUnfollowEvents (unfollowEvents : list UnfollowEvent.t) : Async unit :=
  match unfollowEvents with
  | [] => ret ()
  | event :: rest =>
      try_catch
        (existingRelationship <- query (find_by_follow_uri (UnfollowEvent.uri event)) ;;
         match existingRelationship with
         | Some relationship =>
             removeFolloweeRelationship (FolloweeRelationship.user_did relationship)
               (FolloweeRelationship.followee_did relationship)
         | None => ret ()
         end)
        (ret ()) ;;;
      processUnfollowEvents rest
  end.

Definition updateMahootNumbersForUser (userDid : string) : Async unit :=
  try_catch
    (count <- query (followee_count_of userDid) ;;
     if decide (count = 0) then ret ()
     else
       newDefaultMahoot <- calculateDefaultMahootNumber userDid ;;
       now <- new_Date ;;
       execute (λ d,
         set_followee_relationships
           (sql_update (λ r, FolloweeRelationship.user_did r = userDid)
              (λ r, FolloweeRelationship.mk (FolloweeRelationship.user_did r)
                      (FolloweeRelationship.followee_did r) newDefaultMahoot
                      (FolloweeRelationship.follow_uri r)
                      (FolloweeRelationship.created_at r) now)
              (followee_relationships d)) d))
    (ret ()).

Definition getFolloweeCount (userDid : string) (d : Database) : Z :=
  followee_count_of userDid d.

Definition getFollowers (followeeDid : string) (d : Database) : list string :=
  FolloweeRelationship.user_did <$>
    filter (λ r, FolloweeRelationship.followee_did r = followeeDid)
           (followee_relationships d).

Definition isFollowing (followerDid followeeDid : string) (d : Database) : bool :=
  bool_decide (is_Some (find_relationship followerDid followeeDid d)).

(** ** The firehose subscription (subscription.ts) *)

(** [for (const followEvent of ops.follows.creates)] *)
Fixpoint update_followers (followEvents : list FollowEvent.t) : Async unit :=
  match followEvents with
  | [] => ret ()
  | followEvent :: rest =>
      updateMahootNumbersForUser (FollowEvent.author followEvent) ;;;
      update_followers rest
  end.

(** [for (const unfollowEvent of ops.follows.deletes)] *)
Fixpoint update_unfollowers (unfollowEvents : list UnfollowEvent.t) : Async unit :=
  match unfollowEvents with
  | [] => ret ()
  | unfollowEvent :: rest =>
      relationship <- query (find_by_follow_uri (UnfollowEvent.uri unfollowEvent)) ;;
      match relationship with
      | Some row => updateMahootNumbersForUser (FolloweeRelationship.user_did row)
      | None => ret ()
      end ;;;
      update_unfollowers rest
  end.

(** [ops.posts.creates.map(create => ({ ..., indexedAt: new Date()... }))] *)
Fixpoint posts_to_create (postCreates : list PostCreate.t) : Async (list Post.t) :=
  match postCreates with
  | [] => ret []
  | create :: rest =>
      now <- new_Date ;;
      rows <- posts_to_create rest ;;
      ret (Post.mk (PostCreate.uri create) (PostCreate.cid create) now
             (PostCreate.author create) :: rows)
  end.

(** [handleEvent] on a commit event whose operations are [ops].  The line
    it logs every hundredth event reads two counts and writes nothing. *)
Definition handleEvent (ops : OperationsByType) : Async unit :=
  (if decide (0 < length (creates (follows ops)))%nat
   then processFollowEvents (creates (follows ops)) ;;;
        update_followers (creates (follows ops))
   else ret ()) ;;;
  (if decide (0 < length (deletes (follows ops)))%nat
   then processUnfollowEvents (deletes (follows ops)) ;;;
        update_unfollowers (deletes (follows ops))
   else ret ()) ;;;
  let postsToDelete := PostDelete.uri <$> deletes (posts ops) in
  postsToCreate <- posts_to_create (creates (posts ops)) ;;
  (if decide (0 < length postsToDelete)%nat
   then execute (λ d,
          set_post (sql_delete (λ p, Post.uri p ∈ postsToDelete) (post d)) d)
   else ret ()) ;;;
  (if decide (0 < length postsToCreate)%nat
   then execute (λ d,
          set_post (sql_insert_all_do_nothing post_conflict postsToCreate (post d)) d)
   else ret ()).

End WithRuntime.

(** * Vocabulary of the properties *)

(** The ViewRecords of a (post, viewer) pair. *)
Definition view_records (postUri viewerDid : string) (w : World) : list PostStatistics.t :=
  filter (λ r, PostStatistics.post_uri r = postUri ∧ PostStatistics.viewer_did r = viewerDid)
         (post_statistics (db w)).

(** The row [getOrCreateUserPreferences] creates for a user that has none. *)
Definition default_preferences (userDid : string) (now : Z) : UserPreferences.t :=
  UserPreferences.mk userDid DEFAULT_DAILY_POST_LIMIT DEFAULT_MAHOOT_NUMBER now now.

(** The spec's [clamp(x, lo, hi)]. *)
Definition clamp (x lo hi : Z) : Z :=
  if decide (x < lo) then lo else if decide (hi < x) then hi else x.

(** The spec's formula [clamp(ceil(L / N), 1, 20)] over the rationals. *)
Definition spec_default_quota (L N : Z) : Z :=
  clamp (Qceiling (inject_Z L / inject_Z N)) 1 20.

(** The quota [getPostAuthorStats] reports: the edge's, or 0 without one. *)
Definition reported_mahoot_number (viewerDid authorDid : string) (d : Database) : Z :=
  default 0 (FolloweeRelationship.mahoot_number <$> find_relationship viewerDid authorDid d).

(** Everything but the preferences table. *)
Definition same_but_preferences (d d' : Database) : Prop :=
  post d' = post d
  ∧ sub_state d' = sub_state d
  ∧ followee_relationships d' = followee_relationships d
  ∧ post_statistics d' = post_statistics d
  ∧ daily_stats d' = daily_stats d.

(** [postsViewedFromFollowee.length] *)
Definition viewed_from (postsViewedToday : list PostStatistics.t) (followeeDid : string)
    : Z :=
  Z.of_nat (length (filter (λ post, PostStatistics.author_did post = followeeDid)
                           postsViewedToday)).

(** The number of items of the page that are posts of [authorDid]. *)
Definition items_from (authorDid : string) (items : list MahootFeedItem.t) : nat :=
  length (filter (λ item, MahootFeedItem.author_did item = authorDid) items).

(** What the edges of [followees] still allow for [authorDid] today. *)
Definition allowance (postsViewedToday : list PostStatistics.t) (authorDid : string)
    (followees : list FolloweeRelationship.t) : Z :=
  foldr (λ followee rest,
           (if decide (FolloweeRelationship.followee_did followee = authorDid)
            then Z.max 0 (FolloweeRelationship.mahoot_number followee
                          - viewed_from postsViewedToday authorDid)
            else 0) + rest)
        0 followees.

(** The table after [updateDailyStats]: the row is inserted, or the row
    that holds the (user, date) key is overwritten. *)
Definition upsert_daily_stats (userDid : string) (date total followees : Z)
    (table : list DailyStats.t) : list DailyStats.t :=
  default
    (sql_update (λ r, DailyStats.user_did r = userDid ∧ DailyStats.date r = date)
       (λ r, DailyStats.mk (DailyStats.user_did r) (DailyStats.date r) total followees)
       table)
    (sql_insert daily_stats_conflict (DailyStats.mk userDid date total followees) table).

(** [a] may stand before [b] in an array sorted with [compareFn]. *)
Definition sorts_before {A} (compareFn : A → A → option Z) (a b : A) : Prop :=
  default 0 (compareFn a b) ≤ 0.

(** The number of entries of a page that are posts of [authorDid]: the
    entries whose URI is that of a stored post with this [author_did]. *)
Definition contribution (d : Database) (authorDid : string) (out : FeedOutput) : nat :=
  length (filter (λ entry, Exists (λ p, Post.uri p = SkeletonItem.post entry
                                        ∧ Post.author_did p = authorDid) (post d))
                 (feed out)).

(** The ViewRecords of [viewerDid] for [authorDid] stamped on [date]. *)
Definition views_on_date (viewerDid authorDid : string) (date : Z) (d : Database) : nat :=
  length (filter (λ r, PostStatistics.viewer_did r = viewerDid
                       ∧ PostStatistics.author_did r = authorDid
                       ∧ isoDate (PostStatistics.viewed_at r) = date)
                 (post_statistics d)).

(** All ViewRecords of [viewerDid] stamped on [date]. *)
Definition all_views_on_date (viewerDid : string) (date : Z) (d : Database) : nat :=
  length (filter (λ r, PostStatistics.viewer_did r = viewerDid
                       ∧ isoDate (PostStatistics.viewed_at r) = date)
                 (post_statistics d)).

(** [total_posts_viewed] of the DailyStat row of (user, date), if any. *)
Definition stored_total (userDid : string) (date : Z) (d : Database) : option Z :=
  DailyStats.total_posts_viewed <$> getDailyStats userDid date d.

(** [t] lies in the range [[00:00:00.000, 23:59:59.999)] of [date], the
    range [getPostsViewedToday] selects. *)
Definition in_day_range (date t : Z) : Prop :=
  startOfDay date ≤ t < lastMsOfDay date.

Global Instance in_day_range_dec date t : Decision (in_day_range date t).
Proof. unfold in_day_range. apply _. Defined.

(** Every DailyStat row stores the number of ViewRecords of its user that
    are stamped on its date. *)
Definition stats_agree (d : Database) : Prop :=
  ∀ userDid date total,
    stored_total userDid date d = Some total →
    total = Z.of_nat (all_views_on_date userDid date d).

(** The ViewRecords of [viewerDid] for [authorDid] in the range of [date]
    that [getPostsViewedToday] reads. *)
Definition views_in_range (viewerDid authorDid : string) (date : Z) (d : Database) : nat :=
  length (filter (λ r, PostStatistics.viewer_did r = viewerDid
                       ∧ PostStatistics.author_did r = authorDid
                       ∧ in_day_range date (PostStatistics.viewed_at r))
                 (post_statistics d)).

(** The uniqueness constraint of [followee_relationships], read on the
    rows of one user. *)
Definition one_edge_per_followee (followees : list FolloweeRelationship.t) : Prop :=
  NoDup (FolloweeRelationship.followee_did <$> followees).

Section Vocabulary.
Context (rt : Runtime).

(** The preferences a call started in [w] works with. *)
Definition preferences_in (userDid : string) (w : World) : UserPreferences.t :=
  default (default_preferences userDid (clock rt (clock_reads w)))
          (find_user_preferences userDid (db w)).

(** The database once the preferences have been looked up in [w]. *)
Definition db_with_preferences (userDid : string) (w : World) : Database :=
  match find_user_preferences userDid (db w) with
  | Some _ => db w
  | None =>
      set_user_preferences
        (user_preferences (db w) ++
           [default_preferences userDid (clock rt (clock_reads w))]) (db w)
  end.

(** [w'] is [w] after one ViewRecord per item of [items] was appended for
    [viewerDid], each stamped with a clock reading made in between. *)
Definition tracked (viewerDid : string) (w w' : World)
    (items : list MahootFeedItem.t) : Prop :=
  ∃ views,
    db w' = set_post_statistics (post_statistics (db w) ++ views) (db w)
    ∧ (clock_reads w ≤ clock_reads w')%nat
    ∧ Forall2 (λ item view,
        PostStatistics.post_uri view = MahootFeedItem.post item
        ∧ PostStatistics.author_did view = MahootFeedItem.author_did item
        ∧ PostStatistics.viewer_did view = viewerDid
        ∧ ∃ i, (clock_reads w ≤ i < clock_reads w')%nat
               ∧ PostStatistics.viewed_at view = clock rt i)
        items views.

(** The instant and state at which the allocation loops of a call started
    in [w] begin: three clock readings after the start, preferences in
    place. *)
Definition loops_start (requesterDid : string) (w : World) : World :=
  mkWorld (db_with_preferences requesterDid w) (3 + clock_reads w) (random_draws w).

(** Successive clock readings do not go back. *)
Definition monotone_clock : Prop := ∀ i j, (i ≤ j)%nat → clock rt i ≤ clock rt j.

(** No ViewRecord of the pair is stamped later than the next clock reading. *)
Definition views_not_later (viewerDid authorDid : string) (w : World) : Prop :=
  ∀ v, v ∈ post_statistics (db w) →
       PostStatistics.viewer_did v = viewerDid →
       PostStatistics.author_did v = authorDid →
       PostStatistics.viewed_at v ≤ clock rt (clock_reads w).

(** The world after the requester's calls with the given page parameters,
    one after the other. *)
Fixpoint after_calls (requesterDid : string) (calls : list QueryParams) (w : World)
    : World :=
  match calls with
  | [] => w
  | params :: rest =>
      after_calls requesterDid rest (handler rt params (Some requesterDid) w).2
  end.

End Vocabulary.

(** In no day range does the pair have more ViewRecords than [quota]. *)
Definition within_quota (viewerDid authorDid : string) (quota : Z) (d : Database) : Prop :=
  ∀ date, Z.of_nat (views_in_range viewerDid authorDid date d) ≤ quota.

(** No ViewRecord of the pair is stamped on the last millisecond of a day. *)
Definition no_last_ms_views (viewerDid authorDid : string) (d : Database) : Prop :=
  ∀ v date, v ∈ post_statistics d →
            PostStatistics.viewer_did v = viewerDid →
            PostStatistics.author_did v = authorDid →
            PostStatistics.viewed_at v ≠ lastMsOfDay date.

(** The constraint of [followee_relationships]: one row per (user, followee). *)
Definition unique_edges (table : list FolloweeRelationship.t) : Prop :=
  NoDup ((λ r, (FolloweeRelationship.user_did r, FolloweeRelationship.followee_did r))
           <$> table).

(** The primary key of [user_preferences]. *)
Definition unique_preferences (table : list UserPreferences.t) : Prop :=
  NoDup (UserPreferences.user_did <$> table).

(** The table after the insert-or-update of [addOrUpdateFolloweeRelationship]:
    the row is inserted, or the rows that hold the (user, followee) key are
    overwritten. *)
Definition upsert_edge (userDid followeeDid : string) (quota : Z) (uri : string) (now : Z)
    (table : list FolloweeRelationship.t) : list FolloweeRelationship.t :=
  default
    (sql_update
       (λ r, FolloweeRelationship.user_did r = userDid
             ∧ FolloweeRelationship.followee_did r = followeeDid)
       (λ r, FolloweeRelationship.mk (FolloweeRelationship.user_did r)
               (FolloweeRelationship.followee_did r) quota uri
               (FolloweeRelationship.created_at r) now)
       table)
    (sql_insert followee_relationships_conflict
       (FolloweeRelationship.mk userDid followeeDid quota uri now now) table).

(** The row of the (user, followee) key after the insert-or-update. *)
Definition edge_after (userDid followeeDid : string) (quota : Z) (uri : string) (now : Z)
    (d : Database) : FolloweeRelationship.t :=
  FolloweeRelationship.mk userDid followeeDid quota uri
    (default now (FolloweeRelationship.created_at <$> find_relationship userDid followeeDid d))
    now.

(** Every edge of the user carries the same quota, one of [[1, 20]]. *)
Definition uniform_quota (userDid : string) (d : Database) : Prop :=
  ∃ quota,
    1 ≤ quota ≤ 20
    ∧ Forall (λ edge, FolloweeRelationship.mahoot_number edge = quota)
             (getUserFollowees userDid d).

(** Everything but the edges and the preferences. *)
Definition same_posts_and_statistics (d d' : Database) : Prop :=
  post d' = post d
  ∧ sub_state d' = sub_state d
  ∧ post_statistics d' = post_statistics d
  ∧ daily_stats d' = daily_stats d.

(** No two edges carry the same follow URI. *)
Definition unique_follow_uris (table : list FolloweeRelationship.t) : Prop :=
  NoDup (FolloweeRelationship.follow_uri <$> table).

(** The primary key of [post]. *)
Definition unique_posts (table : list Post.t) : Prop :=
  NoDup (Post.uri <$> table).

(** The rows [posts_to_create] builds when the clock has been read [n]
    times: one clock reading per created post. *)
Fixpoint created_posts (rt : Runtime) (postCreates : list PostCreate.t) (n : nat)
    : list Post.t :=
  match postCreates with
  | [] => []
  | create :: rest =>
      Post.mk (PostCreate.uri create) (PostCreate.cid create) (clock rt n)
        (PostCreate.author create) :: created_posts rt rest (S n)
  end.

(** The constraint of [daily_stats]: one row per (user, date). *)
Definition unique_daily_stats (table : list DailyStats.t) : Prop :=
  NoDup ((λ r, (DailyStats.user_did r, DailyStats.date r)) <$> table).

(** The viewer has no ViewRecord for the post. *)
Definition unviewed (viewerDid : string) (d : Database) (p : Post.t) : Prop :=
  ∀ view, view ∈ post_statistics d →
          PostStatistics.post_uri view = Post.uri p →
          PostStatistics.viewer_did view ≠ viewerDid.

(** Newest first. *)
Definition newest_first (rows : list Post.t) : Prop :=
  StronglySorted (λ a b, Post.indexedAt b ≤ Post.indexedAt a) rows.

(** What the loops of a call establish for one item of the page: it is a
    stored post of the item's author that the viewer had not viewed when
    the loops began. *)
Definition fresh_post (viewerDid : string) (d : Database) (postUri authorDid : string)
    : Prop :=
  ∃ p, p ∈ post d
       ∧ Post.uri p = postUri
       ∧ Post.author_did p = authorDid
       ∧ unviewed viewerDid d p.

(** * Concrete worlds *)

Definition example_date : Z := 20000.

(** A clock that reads noon of the example date and then advances one
    millisecond per reading. *)
Definition noon_runtime : Runtime :=
  mkRuntime (λ n, startOfDay example_date + 43200000 + Z.of_nat n)
            (λ _, 0%Q) (λ _, None).

(** A clock that stays on [23:59:59.999] of the example date. *)
Definition last_ms_runtime : Runtime :=
  mkRuntime (λ _, lastMsOfDay example_date) (λ _, 0%Q) (λ _, None).

(** A clock that reads [23:59:59.998] of the example date twice and the
    following midnight from then on. *)
Definition midnight_runtime : Runtime :=
  mkRuntime (λ n, if decide (n < 2)%nat then lastMsOfDay example_date - 1
                  else startOfDay (example_date + 1))
            (λ _, 0%Q) (λ _, None).

Definition viewer : string := "did:example:viewer".
Definition alice : string := "did:example:alice".
Definition bob : string := "did:example:bob".

Definition example_posts (authorDid : string) (n : nat) : list Post.t :=
  (λ i, Post.mk ("at://" +:+ authorDid +:+ "/app.bsky.feed.post/" +:+ pretty i)
                "bafyexample" (Z.of_nat i) authorDid) <$> seq 0 n.

Definition example_edge (followeeDid : string) (quota : Z) : FolloweeRelationship.t :=
  FolloweeRelationship.mk viewer followeeDid quota
    ("at://" +:+ viewer +:+ "/app.bsky.graph.follow/" +:+ followeeDid) 0 0.

Definition example_preferences (dailyPostLimit : Z) : UserPreferences.t :=
  UserPreferences.mk viewer dailyPostLimit 7 0 0.

Definition example_views (authorDid : string) (n : nat) (viewedAt : Z)
    : list PostStatistics.t :=
  (λ p, PostStatistics.mk (Post.uri p) authorDid viewer viewedAt)
    <$> example_posts authorDid n.

Definition start_world (d : Database) : World := mkWorld d 0 0.

Definition page (pageSize : Z) : QueryParams :=
  mkQueryParams "at://did:example:feed/app.bsky.feed.generator/mahoot"
    (Some pageSize) None.

(** Alice with quota 10, Bob with quota 3, twenty posts each, nothing
    viewed. *)
Definition two_followees_db : Database :=
  mkDatabase (example_posts bob 20 ++ example_posts alice 20) []
    [example_preferences 300]
    [example_edge bob 3; example_edge alice 10] [] [].

(** One followee with quota 1 and three unviewed posts. *)
Definition one_followee_db : Database :=
  mkDatabase (example_posts alice 3) [] [example_preferences 300]
    [example_edge alice 1] [] [].

(** A user without followees and without a preferences row. *)
Definition new_user_db : Database := empty_db.

(** A preferences row with limit 2, two views at noon of the example date. *)
Definition spent_db : Database :=
  mkDatabase (example_posts alice 5) [] [example_preferences 2]
    [example_edge alice 7]
    (example_views alice 2 (startOfDay example_date + 43200000)) [].

(** One followee with quota 2, one of their three posts viewed at noon of
    the example date. *)
Definition one_view_db : Database :=
  mkDatabase (example_posts alice 3) [] [example_preferences 300]
    [example_edge alice 2]
    (example_views alice 1 (startOfDay example_date + 43200000)) [].

(** 300 views at noon of the example date and no preferences row. *)
Definition spent_without_preferences_db : Database :=
  mkDatabase (example_posts alice 400) [] []
    [example_edge alice 7]
    (example_views alice 300 (startOfDay example_date + 43200000)) [].

(** [n] followees and a daily_post_limit of 300. *)
Definition crowd_db (n : nat) : Database :=
  mkDatabase [] [] [example_preferences 300]
    ((λ i, example_edge ("did:example:followee" +:+ pretty i) 7) <$> seq 0 n) [] [].

(** DailyStat rows on two of the days the rolling query selects, and one
    older row. *)
Definition two_days_db : Database :=
  mkDatabase [] [] [] [] []
    [DailyStats.mk viewer (example_date - 40) 99 4;
     DailyStats.mk viewer (example_date - 12) 30 4;
     DailyStats.mk viewer (example_date - 1) 50 5].

(** A view of a post of Bob, whom the viewer no longer follows. *)
Definition unfollowed_db : Database :=
  mkDatabase (example_posts bob 1) [] [example_preferences 300]
    [example_edge alice 0]
    (example_views bob 1 (startOfDay example_date)) [].

Definition carol : string := "did:example:carol".

(** A clock that stays on noon of the example date. *)
Definition still_noon_runtime : Runtime :=
  mkRuntime (λ _, startOfDay example_date + 43200000) (λ _, 0%Q) (λ _, None).

(** One post of Alice, viewed a hundred days before the example date. *)
Definition old_view_db : Database :=
  mkDatabase (example_posts alice 1) [] [example_preferences 300]
    [example_edge alice 7]
    (example_views alice 1 (startOfDay (example_date - 100))) [].

(** Alice muted, Bob with quota 2, three unviewed posts each. *)
Definition muted_db : Database :=
  mkDatabase (example_posts alice 3 ++ example_posts bob 3) []
    [example_preferences 300]
    [example_edge alice 0; example_edge bob 2] [] [].

(** Alice with quota 10, Bob with quota 3, twenty-five posts each; five
    posts of Alice were viewed at noon of the example date. *)
Definition five_viewed_db : Database :=
  mkDatabase (example_posts bob 25 ++ example_posts alice 25) []
    [example_preferences 300]
    [example_edge bob 3; example_edge alice 10]
    (example_views alice 5 (startOfDay example_date + 43200000)) [].

Definition follow_of_carol : FollowEvent.t :=
  FollowEvent.mk "at://did:example:viewer/app.bsky.graph.follow/3kcarol" "bafyfollow"
    viewer (FollowRecord.mk carol "2024-10-04T12:00:00.000Z").

(** A commit in which the viewer follows Carol. *)
Definition follow_commit : OperationsByType :=
  mkOperationsByType (mkOperations [] []) (mkOperations [follow_of_carol] []).

(** A commit that deletes the follow record of Alice's edge. *)
Definition unfollow_commit : OperationsByType :=
  mkOperationsByType (mkOperations [] [])
    (mkOperations []
       [UnfollowEvent.mk (FolloweeRelationship.follow_uri (example_edge alice 10))]).

(** Decides a decidable proposition by evaluating its decision procedure. *)
Ltac decide_by_evaluation := apply (bool_decide_unpack _); vm_compute; exact I.

Ltac evaluate := vm_compute; first [done | lia | intuition congruence].

(** * Properties *)

(** ** Tables and constraints *)

Lemma sql_insert_fresh {R} (conflict : R → R → Prop)
    `{∀ a b, Decision (conflict a b)} (row : R) (table : list R) :
  (∀ r, r ∈ table → ¬ conflict row r) →
  sql_insert conflict row table = Some (table ++ [row]).
Proof.
  intros Hnone. unfold sql_insert.
  destruct (decide (Exists (conflict row) table)) as [Hex|]; [|done].
  apply Exists_exists in Hex as (r & Hin & Hc). by destruct (Hnone r Hin).
Qed.

Lemma no_first_row {A} (P : A → Prop) `{∀ x, Decision (P x)} (l : list A) :
  head (filter P l) = None → ∀ x, x ∈ l → ¬ P x.
Proof.
  intros Hhead x Hin HP.
  assert (x ∈ filter P l) as Hmem by (by apply list_elem_of_filter).
  destruct (filter P l); [by apply elem_of_nil in Hmem | done].
Qed.

Lemma filter_none {A} (P : A → Prop) `{∀ x, Decision (P x)} (l : list A) :
  (∀ x, x ∈ l → ¬ P x) → filter P l = [].
Proof.
  intros Hnone. induction l as [|x l IH]; [done|].
  rewrite filter_cons_False by (apply Hnone, list_elem_of_here).
  apply IH. intros y Hy. by apply Hnone, list_elem_of_further.
Qed.

(** Whatever the table holds, an insert into [post_statistics] appends:
    the table declares nothing an insert could collide with. *)
Lemma post_statistics_insert_appends (row : PostStatistics.t) table :
  sql_insert_do_nothing post_statistics_conflict row table = table ++ [row].
Proof.
  unfold sql_insert_do_nothing, sql_insert.
  destruct (decide _) as [Hex|]; [|done].
  apply Exists_exists in Hex as (? & _ & []).
Qed.

(** ** ViewTracker.record *)

Section TrackPostView.
Context (rt : Runtime).

Lemma trackPostView_run postUri authorDid viewerDid w :
  trackPostView rt postUri authorDid viewerDid w =
    (Returned (),
     mkWorld (set_post_statistics
                (post_statistics (db w) ++
                   [PostStatistics.mk postUri authorDid viewerDid
                      (clock rt (clock_reads w))]) (db w))
             (S (clock_reads w)) (random_draws w)).
Proof.
  unfold trackPostView, bind, new_Date, execute. simpl.
  by rewrite post_statistics_insert_appends.
Qed.

Lemma trackPostView_view_records postUri authorDid viewerDid w :
  length (view_records postUri viewerDid
            (trackPostView rt postUri authorDid viewerDid w).2)
  = S (length (view_records postUri viewerDid w)).
Proof.
  rewrite trackPostView_run. unfold view_records. simpl.
  rewrite filter_app, length_app, filter_cons_True by done. simpl. lia.
Qed.

(** C2 (evaluation of the code).  Calling [trackPostView] twice with the
    same post, author and viewer never leaves exactly one ViewRecord of
    that (post, viewer) pair: both calls return normally and each one adds
    a row, so the pair ends with two rows more than it had; on a table with
    no earlier row for the pair it ends with two. *)
Theorem trackPostView_twice_adds_two_rows postUri authorDid viewerDid w :
  let w1 := (trackPostView rt postUri authorDid viewerDid w).2 in
  let w2 := (trackPostView rt postUri authorDid viewerDid w1).2 in
  (trackPostView rt postUri authorDid viewerDid w).1 = Returned ()
  ∧ (trackPostView rt postUri authorDid viewerDid w1).1 = Returned ()
  ∧ length (view_records postUri viewerDid w2)
    = (2 + length (view_records postUri viewerDid w))%nat
  ∧ length (view_records postUri viewerDid w2) ≠ 1%nat.
Proof.
  intros w1 w2.
  assert (length (view_records postUri viewerDid w2)
          = (2 + length (view_records postUri viewerDid w))%nat) as Hlen.
  { subst w2 w1. by rewrite !trackPostView_view_records. }
  split; [by rewrite trackPostView_run|].
  split; [by rewrite trackPostView_run|].
  split; [exact Hlen|]. rewrite Hlen. lia.
Qed.

End TrackPostView.

(** ** PreferenceStore and the default quota *)

Section Preferences.
Context (rt : Runtime).

Lemma getOrCreateUserPreferences_run userDid w :
  getOrCreateUserPreferences rt userDid w =
    (Returned (preferences_in rt userDid w),
     mkWorld (db_with_preferences rt userDid w) (S (clock_reads w)) (random_draws w)).
Proof.
  unfold getOrCreateUserPreferences, preferences_in, db_with_preferences,
    bind, new_Date, query. simpl.
  destruct (find_user_preferences userDid (db w)) as [prefs|] eqn:Hfind; simpl; [done|].
  unfold execute_or_throw, ret. simpl.
  rewrite sql_insert_fresh; [done|].
  intros r Hin Hc.
  by eapply (no_first_row _ _ Hfind r Hin).
Qed.

Lemma getUserFollowees_with_preferences userDid u w :
  getUserFollowees u (db_with_preferences rt userDid w) = getUserFollowees u (db w).
Proof. unfold db_with_preferences. by destruct (find_user_preferences _ _). Qed.

(** [ceil_div a b] is the ceiling of the quotient: the least integer whose
    multiple by [b] reaches [a]. *)
Lemma ceil_div_spec a b :
  0 < b → (ceil_div a b - 1) * b < a ≤ ceil_div a b * b.
Proof.
  intros Hb. unfold ceil_div.
  pose proof (Z.div_mod (- a) b ltac:(lia)) as Hdm.
  pose proof (Z.mod_pos_bound (- a) b Hb) as Hm. nia.
Qed.

Lemma ceil_div_Qceiling a b :
  0 < b → ceil_div a b = Qceiling (inject_Z a / inject_Z b).
Proof.
  intros Hb. destruct b as [|p|p]; try lia.
  unfold ceil_div, Qceiling, Qfloor, Qdiv, Qmult, Qinv, Qopp, inject_Z. simpl.
  rewrite Z.mul_1_r. done.
Qed.

Lemma calculateDefaultMahootNumber_run userDid w :
  let preferences := preferences_in rt userDid w in
  let count := followee_count_of userDid (db w) in
  calculateDefaultMahootNumber rt userDid w =
    (Returned (if decide (count = 0)
               then UserPreferences.default_mahoot_number preferences
               else Z.min (Z.max 1 (ceil_div
                      (UserPreferences.daily_post_limit preferences) count)) 20),
     mkWorld (db_with_preferences rt userDid w) (S (clock_reads w)) (random_draws w)).
Proof.
  intros preferences count. unfold calculateDefaultMahootNumber, bind.
  rewrite getOrCreateUserPreferences_run. unfold query. simpl.
  unfold followee_count_of. rewrite getUserFollowees_with_preferences.
  fold (followee_count_of userDid (db w)). fold count. fold preferences.
  by destruct (decide (count = 0)).
Qed.

(** C4 (amended).  With [L] the user's daily_post_limit and [N] the
    current followee count, [calculateDefaultMahootNumber] returns the
    user's default_mahoot_number unchanged when [N = 0] and
    [clamp(ceil(L / N), 1, 20)] otherwise; for [L = 300, N = 20] that is 15
    and for [L = 300, N = 1000] it is 1, the floor of the clamp. *)
Theorem calculateDefaultMahootNumber_clamp userDid w :
  let preferences := preferences_in rt userDid w in
  let L := UserPreferences.daily_post_limit preferences in
  let N := followee_count_of userDid (db w) in
  ∃ quota,
    (calculateDefaultMahootNumber rt userDid w).1 = Returned quota
    ∧ (N = 0 → quota = UserPreferences.default_mahoot_number preferences)
    ∧ (N ≠ 0 → quota = spec_default_quota L N)
    ∧ (L = 300 → N = 20 → quota = 15)
    ∧ (L = 300 → N = 1000 → quota = 1).
Proof.
  intros preferences L N.
  pose proof (calculateDefaultMahootNumber_run userDid w) as Hrun.
  simpl in Hrun. fold preferences L N in Hrun.
  eexists. split; [by rewrite Hrun|].
  assert (0 ≤ N) as HN by (unfold N, followee_count_of; lia).
  destruct (decide (N = 0)) as [Hz|Hnz].
  - split; [done|]. split; [done|]. split; intros ? ?; lia.
  - assert (N ≠ 0 → Z.min (Z.max 1 (ceil_div L N)) 20 = spec_default_quota L N) as Hspec.
    { intros _. unfold spec_default_quota, clamp.
      rewrite <- ceil_div_Qceiling by lia.
      repeat destruct (decide _); lia. }
    split; [done|]. split; [exact Hspec|].
    split; intros -> ->; reflexivity.
Qed.

End Preferences.

(** ** StatsAggregator *)

Section Statistics.
Context (rt : Runtime).

Lemma get30DayRollingStats_run userDid w :
  let stats :=
    daily_stats_since userDid (isoDate (daysAgo (clock rt (clock_reads w)) 30)) (db w) in
  get30DayRollingStats rt userDid w =
    (Returned
       {| totalPostsViewed :=
            default 0 (sql_sum (DailyStats.total_posts_viewed <$> stats));
          averagePostsPerDay :=
            default 0%Q (sql_avg (DailyStats.total_posts_viewed <$> stats));
          followeeCount :=
            Math_round (default 0%Q (sql_avg (DailyStats.followee_count <$> stats)));
          daysWithData := Z.of_nat (length stats) |},
     mkWorld (db w) (S (clock_reads w)) (random_draws w)).
Proof. reflexivity. Qed.

Lemma column_total_bounds lo hi (xs : list Z) :
  Forall (λ x, lo ≤ x ≤ hi) xs →
  lo * Z.of_nat (length xs) ≤ column_total xs ≤ hi * Z.of_nat (length xs).
Proof.
  induction 1 as [|x xs Hx _ IH]; [cbn; lia|].
  cbn [column_total foldr length]. fold (column_total xs). lia.
Qed.

Lemma sql_avg_bounds lo hi (xs : list Z) :
  xs ≠ [] →
  Forall (λ x, lo ≤ x ≤ hi) xs →
  (inject_Z lo <= default 0%Q (sql_avg xs) <= inject_Z hi)%Q.
Proof.
  intros Hsome Hall. apply column_total_bounds in Hall.
  destruct xs as [|x xs]; [done|]. cbn [sql_avg default].
  set (n := Z.of_nat (length (x :: xs))) in *.
  assert (0 < n) as Hn by (unfold n; cbn; lia).
  assert (0 < inject_Z n)%Q as Hpos by (unfold Qlt; cbn; lia).
  split.
  - apply Qle_shift_div_l; [done|]. rewrite <- inject_Z_mult, <- Zle_Qle. lia.
  - apply Qle_shift_div_r; [done|]. rewrite <- inject_Z_mult, <- Zle_Qle. lia.
Qed.

Lemma Math_round_bounds lo hi (x : Q) :
  (inject_Z lo <= x <= inject_Z hi)%Q → lo ≤ Math_round x ≤ hi.
Proof.
  intros [Hlo Hhi]. unfold Math_round. split.
  - rewrite <- (Qfloor_Z lo). apply Qfloor_resp_le.
    apply Qle_trans with x; [done|]. rewrite <- (Qplus_0_r x) at 1.
    by apply Qplus_le_r.
  - assert (Qfloor (Qplus (inject_Z hi) (Qmake 1 2)) = hi) as Hfloor.
    { unfold Qfloor, Qplus, inject_Z. cbn.
      symmetry. apply (Z.div_unique _ 2 hi 1); lia. }
    etrans; [|apply Z.eq_le_incl, Hfloor]. apply Qfloor_resp_le. by apply Qplus_le_l.
Qed.

(** X17: the figures of [get30DayRollingStats] are taken over the rows
    the query selects, not over thirty days: [daysWithData] is their
    number and [totalPostsViewed] the sum of their totals, and when every
    row selected has a total between [lo] and [hi] and a followee count
    between [least] and [most], so has the average reported and the
    rounded followee count.  Days without a row do not pull the average
    down. *)
Lemma rolling_average_between_daily_totals userDid w lo hi least most :
  let rows :=
    daily_stats_since userDid (isoDate (daysAgo (clock rt (clock_reads w)) 30)) (db w) in
  rows ≠ [] →
  Forall (λ row, lo ≤ DailyStats.total_posts_viewed row ≤ hi
                 ∧ least ≤ DailyStats.followee_count row ≤ most) rows →
  ∃ stats,
    (get30DayRollingStats rt userDid w).1 = Returned stats
    ∧ daysWithData stats = Z.of_nat (length rows)
    ∧ totalPostsViewed stats = column_total (DailyStats.total_posts_viewed <$> rows)
    ∧ (inject_Z lo <= averagePostsPerDay stats <= inject_Z hi)%Q
    ∧ least ≤ followeeCount stats ≤ most.
Proof.
  intros rows Hsome Hall. rewrite get30DayRollingStats_run. fold rows.
  eexists. split; [reflexivity|].
  cbn [daysWithData totalPostsViewed averagePostsPerDay followeeCount].
  split; [done|]. split; [by destruct rows|].
  assert (∀ (f : DailyStats.t → Z), f <$> rows ≠ []) as Hrows
    by (intros f; by destruct rows).
  split.
  - apply sql_avg_bounds; [done|]. apply Forall_fmap.
    eapply Forall_impl; [exact Hall|]. by intros row [? _].
  - apply Math_round_bounds, sql_avg_bounds; [done|]. apply Forall_fmap.
    eapply Forall_impl; [exact Hall|]. by intros row [_ ?].
Qed.

(** C9.  [get30DayRollingStats] averages over the DailyStat rows its
    30-day selection returns, not over the span: when the user has rows on
    exactly two days of that selection, daysWithData is 2 and
    averagePostsPerDay is the sum of the two totals divided by 2 (and not
    that sum divided by 30, unless the sum is 0). *)
Theorem get30DayRollingStats_two_days userDid w day1 day2 :
  daily_stats_since userDid (isoDate (daysAgo (clock rt (clock_reads w)) 30)) (db w)
    = [day1; day2] →
  let total := DailyStats.total_posts_viewed day1 + DailyStats.total_posts_viewed day2 in
  ∃ stats,
    (get30DayRollingStats rt userDid w).1 = Returned stats
    ∧ daysWithData stats = 2
    ∧ totalPostsViewed stats = total
    ∧ (averagePostsPerDay stats == inject_Z total / 2)%Q
    ∧ (total ≠ 0 → ¬ (averagePostsPerDay stats == inject_Z total / 30)%Q).
Proof.
  intros Hrows total. rewrite get30DayRollingStats_run. simpl. rewrite Hrows.
  eexists. split; [reflexivity|]. simpl.
  split; [done|]. split; [unfold total; lia|].
  split.
  - unfold Qeq, total. simpl. lia.
  - intros Hnz Heq. unfold Qeq in Heq. simpl in Heq. unfold total in Hnz. lia.
Qed.

Lemma getPostAuthorStats_run viewerDid authorDid w :
  let n := clock_reads w in
  getPostAuthorStats rt viewerDid authorDid w =
    (Returned
       {| pas_author_did := authorDid;
          pas_viewer_did := viewerDid;
          posts_viewed_today :=
            views_since viewerDid authorDid (startOfDay (isoDate (clock rt n))) (db w);
          posts_viewed_this_week :=
            views_since viewerDid authorDid (daysAgo (clock rt (S n)) 7) (db w);
          posts_viewed_this_month :=
            views_since viewerDid authorDid (daysAgo (clock rt (S (S n))) 30) (db w);
          pas_mahoot_number := reported_mahoot_number viewerDid authorDid (db w) |},
     mkWorld (db w) (S (S (S n))) (random_draws w)).
Proof. reflexivity. Qed.

Lemma collect_author_stats_spec viewerDid authors acc w :
  ∃ collected,
    collect_author_stats rt viewerDid authors acc w
      = (Returned (acc ++ collected),
         mkWorld (db w) (clock_reads w + 3 * length authors) (random_draws w))
    ∧ pas_author_did <$> collected = authors
    ∧ Forall (λ stats, pas_mahoot_number stats
                       = reported_mahoot_number viewerDid (pas_author_did stats) (db w))
             collected.
Proof.
  revert acc w. induction authors as [|author rest IH]; intros acc w.
  - exists []. simpl. unfold ret. rewrite app_nil_r, Nat.add_0_r.
    by destruct w.
  - simpl. unfold bind at 1. rewrite getPostAuthorStats_run. cbn zeta.
    match goal with |- context [collect_author_stats _ _ _ ?acc' ?w'] =>
      destruct (IH acc' w') as (collected & Hrun & Hauthors & Hquota) end.
    rewrite Hrun. simpl.
    eexists (_ :: collected). split; [|split].
    + rewrite <- app_assoc. simpl. do 3 f_equal. lia.
    + rewrite fmap_cons. f_equal. exact Hauthors.
    + constructor; [done|exact Hquota].
Qed.

(** C10.  [getPostAuthorStats] reports mahoot_number 0 for an author the
    viewer has no followee edge to, which is what it reports for an edge
    whose quota is 0: over the same ViewRecords the two answers are equal.
    [getAllAuthorStats] lists every author the viewer has a ViewRecord for,
    edge or no edge, with that same reported quota. *)
Theorem unfollowed_author_reported_as_muted viewerDid authorDid w :
  find_relationship viewerDid authorDid (db w) = None →
  (∃ stats,
     (getPostAuthorStats rt viewerDid authorDid w).1 = Returned stats
     ∧ pas_mahoot_number stats = 0)
  ∧ (∀ w0 edge,
       post_statistics (db w0) = post_statistics (db w) →
       clock_reads w0 = clock_reads w →
       find_relationship viewerDid authorDid (db w0) = Some edge →
       FolloweeRelationship.mahoot_number edge = 0 →
       (getPostAuthorStats rt viewerDid authorDid w0).1
       = (getPostAuthorStats rt viewerDid authorDid w).1)
  ∧ (∀ view,
       view ∈ post_statistics (db w) →
       PostStatistics.viewer_did view = viewerDid →
       PostStatistics.author_did view = authorDid →
       ∃ all stats,
         (getAllAuthorStats rt viewerDid w).1 = Returned all
         ∧ stats ∈ all
         ∧ pas_author_did stats = authorDid
         ∧ pas_mahoot_number stats = 0).
Proof.
  intros Hnone.
  assert (reported_mahoot_number viewerDid authorDid (db w) = 0) as Hzero
    by (unfold reported_mahoot_number; by rewrite Hnone).
  split; [|split].
  - rewrite getPostAuthorStats_run. simpl. eauto.
  - intros w0 edge Hviews Hclock Hedge Hmuted.
    rewrite !getPostAuthorStats_run. simpl.
    unfold views_since, reported_mahoot_number.
    rewrite Hviews, Hclock, Hedge, Hnone. simpl. by rewrite Hmuted.
  - intros view Hin Hviewer Hauthor.
    unfold getAllAuthorStats, bind, query. simpl.
    destruct (collect_author_stats_spec viewerDid
                (viewed_authors viewerDid (db w)) [] w)
      as (collected & Hrun & Hauthors & Hquota).
    rewrite Hrun. simpl.
    assert (authorDid ∈ viewed_authors viewerDid (db w)) as Hlisted.
    { unfold viewed_authors. apply elem_of_remove_dups, list_elem_of_fmap.
      exists view. split; [done|]. by apply list_elem_of_filter. }
    rewrite <- Hauthors in Hlisted.
    apply list_elem_of_fmap in Hlisted as (stats & Hname & Hstats).
    exists collected, stats. split; [done|]. split; [done|]. split; [done|].
    rewrite Forall_forall in Hquota. rewrite (Hquota stats Hstats), <- Hname.
    exact Hzero.
Qed.

End Statistics.

(** ** Running async code *)

Lemma bind_returned {A B} (m : Async A) (k : A → Async B) w a w' :
  m w = (Returned a, w') → bind m k w = k a w'.
Proof. intros Hm. unfold bind. by rewrite Hm. Qed.

Lemma query_run {A} (q : Database → A) w : query q w = (Returned (q (db w)), w).
Proof. reflexivity. Qed.

Section EarlyReturns.
Context (rt : Runtime).

Lemma db_with_preferences_frame userDid w :
  same_but_preferences (db w) (db_with_preferences rt userDid w)
  ∧ user_preferences (db_with_preferences rt userDid w)
    = match find_user_preferences userDid (db w) with
      | Some _ => user_preferences (db w)
      | None =>
          user_preferences (db w) ++
            [default_preferences userDid (clock rt (clock_reads w))]
      end.
Proof.
  unfold db_with_preferences, same_but_preferences.
  by destruct (find_user_preferences userDid (db w)).
Qed.

Lemma db_with_preferences_unchanged userDid w :
  is_Some (find_user_preferences userDid (db w)) →
  db_with_preferences rt userDid w = db w.
Proof. intros [prefs Hfind]. unfold db_with_preferences. by rewrite Hfind. Qed.

Lemma viewed_on_with_preferences userDid viewerDid today w :
  viewed_on viewerDid today (db_with_preferences rt userDid w)
  = viewed_on viewerDid today (db w).
Proof. unfold db_with_preferences. by destruct (find_user_preferences _ _). Qed.

Lemma getPostsViewedToday_run viewerDid w :
  getPostsViewedToday rt viewerDid w =
    (Returned (viewed_on viewerDid (isoDate (clock rt (clock_reads w))) (db w)),
     mkWorld (db w) (S (clock_reads w)) (random_draws w)).
Proof. reflexivity. Qed.

(** The first early return: no followee. *)
Lemma handler_returns_without_followees params requesterDid w :
  requesterDid ≠ "" →
  getUserFollowees requesterDid (db w) = [] →
  handler rt params (Some requesterDid) w
  = (Returned empty_page,
     mkWorld (db_with_preferences rt requesterDid w) (S (clock_reads w))
             (random_draws w)).
Proof.
  intros Hauth Hnone. unfold handler.
  destruct (decide (requesterDid = "")) as [|_]; [done|].
  erewrite bind_returned by apply getOrCreateUserPreferences_run.
  erewrite bind_returned by apply query_run. cbn [db clock_reads random_draws].
  by rewrite getUserFollowees_with_preferences, Hnone.
Qed.

(** The second early return: the daily budget is spent. *)
Lemma handler_returns_when_spent params requesterDid w :
  requesterDid ≠ "" →
  getUserFollowees requesterDid (db w) ≠ [] →
  Z.of_nat (length (viewed_on requesterDid
                      (isoDate (clock rt (S (clock_reads w)))) (db w)))
    >= UserPreferences.daily_post_limit (preferences_in rt requesterDid w) →
  handler rt params (Some requesterDid) w
  = (Returned empty_page,
     mkWorld (db_with_preferences rt requesterDid w) (S (S (clock_reads w)))
             (random_draws w)).
Proof.
  intros Hauth Hsome Hspent. unfold handler.
  destruct (decide (requesterDid = "")) as [|_]; [done|].
  erewrite bind_returned by apply getOrCreateUserPreferences_run.
  erewrite bind_returned by apply query_run. cbn [db clock_reads random_draws].
  rewrite getUserFollowees_with_preferences.
  destruct (decide (length _ = 0%nat)) as [Hzero|_].
  { by destruct (getUserFollowees requesterDid (db w)). }
  erewrite bind_returned by apply getPostsViewedToday_run.
  cbn [db clock_reads random_draws]. rewrite viewed_on_with_preferences.
  by destruct (decide (_ >= _)).
Qed.

(** C8 (amended).  For a user with no followees [handler] returns
    [{cursor: undefined, feed: []}] at once and writes no ViewRecord, no
    DailyStat and no followee edge; the one write it can make is the
    default preferences row that [getOrCreateUserPreferences] inserts when
    the user has none, and with a preferences row the database is
    unchanged. *)
Theorem handler_no_followees params requesterDid w :
  requesterDid ≠ "" →
  getUserFollowees requesterDid (db w) = [] →
  ∃ w',
    handler rt params (Some requesterDid) w = (Returned empty_page, w')
    ∧ same_but_preferences (db w) (db w')
    ∧ user_preferences (db w')
      = match find_user_preferences requesterDid (db w) with
        | Some _ => user_preferences (db w)
        | None =>
            user_preferences (db w) ++
              [default_preferences requesterDid (clock rt (clock_reads w))]
        end
    ∧ (is_Some (find_user_preferences requesterDid (db w)) → db w' = db w).
Proof.
  intros Hauth Hnone.
  eexists. split; [by apply handler_returns_without_followees|]. simpl.
  destruct (db_with_preferences_frame requesterDid w) as [Hframe Hprefs].
  split; [exact Hframe|]. split; [exact Hprefs|].
  apply db_with_preferences_unchanged.
Qed.

(** C3 (amended).  When the ViewRecords [getPostsViewedToday] reads for the
    requester number at least the daily_post_limit, [handler] returns an
    empty feed with no cursor and writes no ViewRecord, no DailyStat and no
    followee edge; the one write it can make is the default preferences row
    that [getOrCreateUserPreferences] inserts when the user has none, and
    with a preferences row the database is unchanged. *)
Theorem handler_budget_exhausted params requesterDid w :
  requesterDid ≠ "" →
  let today := isoDate (clock rt (S (clock_reads w))) in
  Z.of_nat (length (viewed_on requesterDid today (db w)))
    >= UserPreferences.daily_post_limit (preferences_in rt requesterDid w) →
  ∃ w',
    handler rt params (Some requesterDid) w = (Returned empty_page, w')
    ∧ same_but_preferences (db w) (db w')
    ∧ user_preferences (db w')
      = match find_user_preferences requesterDid (db w) with
        | Some _ => user_preferences (db w)
        | None =>
            user_preferences (db w) ++
              [default_preferences requesterDid (clock rt (clock_reads w))]
        end
    ∧ (is_Some (find_user_preferences requesterDid (db w)) → db w' = db w).
Proof.
  intros Hauth today Hspent.
  destruct (db_with_preferences_frame requesterDid w) as [Hframe Hprefs].
  pose proof (db_with_preferences_unchanged requesterDid w) as Hsame.
  destruct (decide (getUserFollowees requesterDid (db w) = [])) as [Hnone|Hsome].
  - eexists. split; [by apply handler_returns_without_followees|]. done.
  - eexists. split; [by apply handler_returns_when_spent|]. done.
Qed.

End EarlyReturns.

(** ** The allocation loops *)

Lemma swap_Permutation {A} (i j : nat) (a : list A) : swap i j a ≡ₚ a.
Proof.
  unfold swap.
  destruct (a !! i) as [x|] eqn:Hi; [|done].
  destruct (a !! j) as [y|] eqn:Hj; [|done].
  destruct (decide (i = j)) as [->|Hne].
  - simplify_eq. rewrite list_insert_insert_eq, list_insert_id; done.
  - apply Permutation_inj. split; [by rewrite !length_insert|].
    exists (λ k, if decide (k = i) then j else if decide (k = j) then i else k).
    split.
    + intros k1 k2. repeat case_decide; congruence.
    + intros k. repeat case_decide; subst.
      * rewrite list_lookup_insert_ne by done.
        rewrite list_lookup_insert_eq; [done|]. by eapply lookup_lt_Some.
      * rewrite list_lookup_insert_eq; [done|].
        rewrite length_insert. by eapply lookup_lt_Some.
      * by rewrite !list_lookup_insert_ne.
Qed.

Lemma sort_insert_Permutation {A} (compareFn : A → A → option Z) x l :
  sort_insert compareFn x l ≡ₚ x :: l.
Proof.
  induction l as [|y l IH]; simpl; [done|].
  case_decide; [done|]. rewrite IH. apply Permutation_swap.
Qed.

Lemma Array_sort_Permutation {A} (compareFn : A → A → option Z) l :
  Array_sort compareFn l ≡ₚ l.
Proof.
  induction l as [|x l IH]; simpl; [done|].
  rewrite sort_insert_Permutation. by rewrite IH.
Qed.

Lemma Array_sort_length {A} (compareFn : A → A → option Z) l :
  length (Array_sort compareFn l) = length l.
Proof. by rewrite Array_sort_Permutation. Qed.

Section Loops.
Context (rt : Runtime).

Lemma shuffle_from_spec {A} (i : nat) (a : list A) w :
  ∃ shuffled,
    shuffle_from rt i a w
      = (Returned shuffled,
         mkWorld (db w) (clock_reads w) (random_draws w + i))
    ∧ shuffled ≡ₚ a.
Proof.
  revert a w. induction i as [|i IH]; intros a w.
  - exists a. simpl. unfold ret. rewrite Nat.add_0_r. by destruct w.
  - simpl. unfold bind at 1, random at 1.
    match goal with |- context [shuffle_from rt i ?a' ?w'] =>
      destruct (IH a' w') as (shuffled & Hrun & Hperm) end.
    exists shuffled. rewrite Hrun. simpl. split.
    + do 2 f_equal. lia.
    + by rewrite Hperm, swap_Permutation.
Qed.

Lemma shuffle_spec {A} (a : list A) w :
  ∃ shuffled,
    shuffle rt a w
      = (Returned shuffled,
         mkWorld (db w) (clock_reads w) (random_draws w + (length a - 1)))
    ∧ shuffled ≡ₚ a.
Proof. apply shuffle_from_spec. Qed.

Lemma set_post_statistics_same d : set_post_statistics (post_statistics d ++ []) d = d.
Proof. destruct d. unfold set_post_statistics. simpl. by rewrite app_nil_r. Qed.

Lemma tracked_nil viewerDid w w' :
  db w' = db w → (clock_reads w ≤ clock_reads w')%nat → tracked rt viewerDid w w' [].
Proof.
  intros Hdb Hclock. exists []. rewrite set_post_statistics_same.
  split; [done|]. split; [done|]. constructor.
Qed.

Lemma tracked_app viewerDid w1 w2 w3 items1 items2 :
  tracked rt viewerDid w1 w2 items1 → tracked rt viewerDid w2 w3 items2 →
  tracked rt viewerDid w1 w3 (items1 ++ items2).
Proof.
  intros (views1 & Hdb1 & Hclock1 & Hviews1) (views2 & Hdb2 & Hclock2 & Hviews2).
  exists (views1 ++ views2). split; [|split].
  - rewrite Hdb2, Hdb1. unfold set_post_statistics. simpl. by rewrite app_assoc.
  - lia.
  - apply Forall2_app.
    + eapply Forall2_impl; [exact Hviews1|].
      intros item view (? & ? & ? & i & ? & ?). repeat split; try done.
      exists i. split; [lia|done].
    + eapply Forall2_impl; [exact Hviews2|].
      intros item view (? & ? & ? & i & ? & ?). repeat split; try done.
      exists i. split; [lia|done].
Qed.

Section OneCall.
Context (requesterDid : string) (userPrefs : UserPreferences.t)
        (postsViewedToday : list PostStatistics.t) (postsToShow : Z).

(** What the inner loop does for one followee: it appends one item per post
    it takes, in order, tracks each of them, and stops at the page cap. *)
Lemma add_posts_spec followeeDid mahootNumber shuffledPosts count mahootFeed w :
  ∃ items w',
    add_posts rt requesterDid userPrefs postsToShow
      followeeDid mahootNumber shuffledPosts count mahootFeed w
      = (Returned (mahootFeed ++ items), w')
    ∧ tracked rt requesterDid w w' items
    ∧ random_draws w' = random_draws w
    ∧ Forall (λ item, MahootFeedItem.author_did item = followeeDid
                      ∧ Metadata.followeeDid (MahootFeedItem.metadata item) = followeeDid
                      ∧ MahootFeedItem.mahoot_number item = mahootNumber
                      ∧ MahootFeedItem.reason item ≠ "") items
    ∧ MahootFeedItem.post <$> items = Post.uri <$> take (length items) shuffledPosts
    ∧ (Z.of_nat (length mahootFeed) < postsToShow →
       Z.of_nat (length items)
       = Z.min (Z.of_nat (length shuffledPosts))
               (postsToShow - Z.of_nat (length mahootFeed))).
Proof.
  revert count mahootFeed w.
  induction shuffledPosts as [|post rest IH]; intros count mahootFeed w.
  - exists [], w. simpl. unfold ret. rewrite app_nil_r.
    split; [done|]. split; [by apply tracked_nil|]. split; [done|].
    split; [constructor|]. split; [done|]. lia.
  - simpl. unfold bind at 1, new_Date at 1. cbn zeta.
    erewrite bind_returned by apply trackPostView_run.
    cbn [db clock_reads random_draws].
    set (item := MahootFeedItem.mk _ _ _ _ _ _).
    set (w2 := mkWorld _ _ _).
    assert (tracked rt requesterDid w w2 [item]) as Hstep.
    { eexists [_]. split; [reflexivity|]. split; [simpl; lia|].
      constructor; [|constructor]. simpl. repeat split; try done.
      exists (S (clock_reads w)). split; [lia|done]. }
    assert (MahootFeedItem.reason item ≠ "") as Hreason by done.
    destruct (decide (Z.of_nat (length (mahootFeed ++ [item])) >= postsToShow))
      as [Hfull|Hroom].
    + exists [item], w2. split; [done|]. split; [done|]. split; [done|].
      split; [by repeat constructor|]. split; [done|].
      rewrite length_app in Hfull. simpl in *. lia.
    + destruct (IH (count + 1) (mahootFeed ++ [item]) w2)
        as (items & w' & Hrun & Htracked & Hrandom & Hitems & Huris & Hcount).
      exists (item :: items), w'. rewrite Hrun, <- app_assoc. simpl.
      split; [done|].
      split; [exact (tracked_app _ _ _ _ [item] items Hstep Htracked)|].
      split; [done|].
      split; [by repeat constructor|].
      split; [f_equal; exact Huris|].
      rewrite length_app in Hroom, Hcount. simpl in *. lia.
Qed.

Lemma allowance_nonneg authorDid followees :
  0 ≤ allowance postsViewedToday authorDid followees.
Proof.
  induction followees as [|f fs IH]; simpl; [done|]. case_decide; lia.
Qed.

Lemma items_from_app authorDid items1 items2 :
  items_from authorDid (items1 ++ items2)
  = (items_from authorDid items1 + items_from authorDid items2)%nat.
Proof. unfold items_from. by rewrite filter_app, length_app. Qed.

Lemma items_from_same authorDid items :
  Forall (λ item, MahootFeedItem.author_did item = authorDid) items →
  items_from authorDid items = length items.
Proof.
  intros Hall. unfold items_from. f_equal.
  induction Hall as [|item items Hitem _ IH]; [done|].
  by rewrite filter_cons_True, IH.
Qed.

Lemma items_from_other authorDid otherDid items :
  otherDid ≠ authorDid →
  Forall (λ item, MahootFeedItem.author_did item = otherDid) items →
  items_from authorDid items = 0%nat.
Proof.
  intros Hne Hall. unfold items_from.
  induction Hall as [|item items Hitem _ IH]; [done|].
  rewrite filter_cons_False by congruence. exact IH.
Qed.

Lemma slice0_length {A} (n : Z) (l : list A) :
  0 < n → Z.of_nat (length (slice0 n l)) = Z.min n (Z.of_nat (length l)).
Proof.
  intros Hn. unfold slice0. destruct (decide (n < 0)); [lia|].
  rewrite length_take. lia.
Qed.

Lemma process_followees_cons followee rest mahootFeed :
  process_followees rt requesterDid userPrefs postsViewedToday postsToShow
    (followee :: rest) mahootFeed
  = let followeeDid := FolloweeRelationship.followee_did followee in
    let mahootNumber := FolloweeRelationship.mahoot_number followee in
    let continue :=
      process_followees rt requesterDid userPrefs postsViewedToday postsToShow
        rest mahootFeed in
    if decide (mahootNumber = 0) then continue
    else if decide (viewed_from postsViewedToday followeeDid >= mahootNumber)
    then continue
    else
      let postsToShowFromFollowee :=
        Z.min (mahootNumber - viewed_from postsViewedToday followeeDid)
              (postsToShow - Z.of_nat (length mahootFeed)) in
      if decide (postsToShowFromFollowee ≤ 0) then continue
      else
        unviewedPosts <- query (getUnviewedPostsByAuthor requesterDid followeeDid
                                  (postsToShowFromFollowee * 3)) ;;
        if decide (length unviewedPosts = 0%nat) then continue
        else
          shuffledPosts <- shuffle rt (slice0 postsToShowFromFollowee unviewedPosts) ;;
          mahootFeed <- add_posts rt requesterDid userPrefs postsToShow
                          followeeDid mahootNumber shuffledPosts
                          (viewed_from postsViewedToday followeeDid) mahootFeed ;;
          if decide (Z.of_nat (length mahootFeed) >= postsToShow) then ret mahootFeed
          else process_followees rt requesterDid userPrefs postsViewedToday postsToShow
                 rest mahootFeed.
Proof. reflexivity. Qed.

(** What the outer loop does: every item it appends is a tracked post of a
    followee with a non-zero quota; no author gets more items than the
    quota leaves after today's views; the page never grows past the cap. *)
Lemma process_followees_spec sortedFollowees mahootFeed w :
  ∃ items w',
    process_followees rt requesterDid userPrefs postsViewedToday postsToShow
      sortedFollowees mahootFeed w
      = (Returned (mahootFeed ++ items), w')
    ∧ tracked rt requesterDid w w' items
    ∧ Forall (λ item,
        MahootFeedItem.reason item ≠ ""
        ∧ ∃ followee,
            followee ∈ sortedFollowees
            ∧ FolloweeRelationship.mahoot_number followee ≠ 0
            ∧ MahootFeedItem.author_did item
              = FolloweeRelationship.followee_did followee
            ∧ Metadata.followeeDid (MahootFeedItem.metadata item)
              = FolloweeRelationship.followee_did followee) items
    ∧ (∀ authorDid,
         Z.of_nat (items_from authorDid items)
         ≤ allowance postsViewedToday authorDid sortedFollowees)
    ∧ Z.of_nat (length items)
      ≤ Z.max 0 (postsToShow - Z.of_nat (length mahootFeed)).
Proof.
  revert mahootFeed w.
  induction sortedFollowees as [|followee rest IH]; intros mahootFeed w.
  { exists [], w. simpl. unfold ret. rewrite app_nil_r.
    split; [done|]. split; [by apply tracked_nil|].
    split; [constructor|]. split; [done|]. simpl. lia. }
  assert (∀ items w',
    process_followees rt requesterDid userPrefs postsViewedToday postsToShow
      rest mahootFeed w = (Returned (mahootFeed ++ items), w') →
    tracked rt requesterDid w w' items →
    Forall (λ item,
        MahootFeedItem.reason item ≠ ""
        ∧ ∃ followee,
            followee ∈ rest
            ∧ FolloweeRelationship.mahoot_number followee ≠ 0
            ∧ MahootFeedItem.author_did item
              = FolloweeRelationship.followee_did followee
            ∧ Metadata.followeeDid (MahootFeedItem.metadata item)
              = FolloweeRelationship.followee_did followee) items →
    (∀ authorDid,
       Z.of_nat (items_from authorDid items) ≤ allowance postsViewedToday authorDid rest) →
    Z.of_nat (length items) ≤ Z.max 0 (postsToShow - Z.of_nat (length mahootFeed)) →
    ∃ items w',
      process_followees rt requesterDid userPrefs postsViewedToday postsToShow
        rest mahootFeed w = (Returned (mahootFeed ++ items), w')
      ∧ tracked rt requesterDid w w' items
      ∧ Forall (λ item,
          MahootFeedItem.reason item ≠ ""
          ∧ ∃ f,
              f ∈ followee :: rest
              ∧ FolloweeRelationship.mahoot_number f ≠ 0
              ∧ MahootFeedItem.author_did item = FolloweeRelationship.followee_did f
              ∧ Metadata.followeeDid (MahootFeedItem.metadata item)
                = FolloweeRelationship.followee_did f) items
      ∧ (∀ authorDid,
           Z.of_nat (items_from authorDid items)
           ≤ allowance postsViewedToday authorDid (followee :: rest))
      ∧ Z.of_nat (length items)
        ≤ Z.max 0 (postsToShow - Z.of_nat (length mahootFeed))) as Hskip.
  { intros items w' Hrun Htracked Hitems Hquota Hcap.
    exists items, w'. split; [done|]. split; [done|]. split; [|split; [|done]].
    - eapply Forall_impl; [exact Hitems|].
      intros item (? & f & ? & ? & ? & ?). split; [done|].
      exists f. split; [by apply list_elem_of_further|done].
    - intros authorDid. specialize (Hquota authorDid). simpl. case_decide; lia. }
  rewrite process_followees_cons. cbn zeta.
  destruct (decide (FolloweeRelationship.mahoot_number followee = 0)) as [|Hquota].
  { destruct (IH mahootFeed w) as (items & w' & ? & ? & ? & ? & ?). eauto. }
  destruct (decide (viewed_from _ _ >= _)) as [|Hleft].
  { destruct (IH mahootFeed w) as (items & w' & ? & ? & ? & ? & ?). eauto. }
  destruct (decide (_ ≤ 0)) as [|Hslots].
  { destruct (IH mahootFeed w) as (items & w' & ? & ? & ? & ? & ?). eauto. }
  erewrite bind_returned by apply query_run.
  destruct (decide (length _ = 0%nat)) as [|Hsome].
  { destruct (IH mahootFeed w) as (items & w' & ? & ? & ? & ? & ?). eauto. }
  set (followeeDid := FolloweeRelationship.followee_did followee) in *.
  set (mahootNumber := FolloweeRelationship.mahoot_number followee) in *.
  set (slots := Z.min _ _) in *.
  set (unviewed := getUnviewedPostsByAuthor _ _ _ _) in *.
  destruct (shuffle_spec (slice0 slots unviewed) w) as (shuffled & Hshuffle & Hperm).
  erewrite bind_returned by exact Hshuffle.
  set (w1 := mkWorld _ _ _) in *.
  destruct (add_posts_spec followeeDid mahootNumber shuffled
              (viewed_from postsViewedToday followeeDid) mahootFeed w1)
    as (items1 & w2 & Hadd & Htracked1 & _ & Hitems1 & Huris & Hcount).
  erewrite bind_returned by exact Hadd.
  assert (Z.of_nat (length shuffled) = Z.min slots (Z.of_nat (length unviewed)))
    as Hlen by (rewrite Hperm; apply slice0_length; lia).
  assert (Z.of_nat (length items1) ≤ slots) as Hfew.
  { apply (f_equal length) in Huris.
    rewrite !length_fmap, length_take in Huris. lia. }
  assert (tracked rt requesterDid w w2 items1) as Htracked.
  { destruct Htracked1 as (views & Hdb & Hclock & Hviews).
    exists views. split; [done|]. split; [done|]. exact Hviews. }
  assert (Forall (λ item,
      MahootFeedItem.reason item ≠ ""
      ∧ ∃ f,
          f ∈ followee :: rest
          ∧ FolloweeRelationship.mahoot_number f ≠ 0
          ∧ MahootFeedItem.author_did item = FolloweeRelationship.followee_did f
          ∧ Metadata.followeeDid (MahootFeedItem.metadata item)
            = FolloweeRelationship.followee_did f) items1) as Hfrom.
  { eapply Forall_impl; [exact Hitems1|].
    intros item (? & ? & ? & ?). split; [done|].
    exists followee. split; [apply list_elem_of_here|done]. }
  assert (∀ authorDid,
    Z.of_nat (items_from authorDid items1)
    ≤ (if decide (followeeDid = authorDid)
       then Z.max 0 (mahootNumber - viewed_from postsViewedToday authorDid) else 0)) as Hshare.
  { intros authorDid. case_decide as Hsame.
    - rewrite items_from_same.
      + subst authorDid. lia.
      + eapply Forall_impl; [exact Hitems1|]. intros item (? & _). congruence.
    - rewrite (items_from_other authorDid followeeDid); [done|done|].
      eapply Forall_impl; [exact Hitems1|]. by intros item (? & _). }
  destruct (decide (Z.of_nat (length (mahootFeed ++ items1)) >= postsToShow))
    as [Hfull|Hroom].
  { exists items1, w2. split; [done|]. split; [done|]. split; [done|]. split.
    - intros authorDid. specialize (Hshare authorDid).
      pose proof (allowance_nonneg authorDid rest). simpl.
      fold followeeDid mahootNumber. lia.
    - lia. }
  destruct (IH (mahootFeed ++ items1) w2)
    as (items2 & w3 & Hrun & Htracked2 & Hitems2 & Hquota2 & Hcap2).
  exists (items1 ++ items2), w3. rewrite Hrun, app_assoc.
  split; [done|]. split; [by eapply tracked_app|]. split; [|split].
  - apply Forall_app. split; [done|].
    eapply Forall_impl; [exact Hitems2|].
    intros item (? & f & ? & ? & ? & ?). split; [done|].
    exists f. split; [by apply list_elem_of_further|done].
  - intros authorDid. specialize (Hshare authorDid). specialize (Hquota2 authorDid).
    rewrite items_from_app. simpl. fold followeeDid mahootNumber. lia.
  - rewrite length_app in *. lia.
Qed.

End OneCall.

Lemma filter_sql_update {R} (cond : R → Prop) `{∀ r, Decision (cond r)}
    (set : R → R) (table : list R) :
  (∀ r, cond r → cond (set r)) →
  filter cond (sql_update cond set table) = set <$> filter cond table.
Proof.
  intros Hkeeps. unfold sql_update.
  induction table as [|r table IH]; [done|]. rewrite fmap_cons.
  destruct (decide (cond r)) as [Hr|Hr].
  - rewrite !filter_cons_True by auto. rewrite fmap_cons. by f_equal.
  - rewrite !filter_cons_False by done. exact IH.
Qed.

Lemma updateDailyStats_spec userDid date total followees w :
  ∃ row,
    updateDailyStats rt userDid date total followees w
      = (Returned row,
         mkWorld (set_daily_stats
                    (upsert_daily_stats userDid date total followees
                       (daily_stats (db w))) (db w))
                 (S (clock_reads w)) (random_draws w))
    ∧ getDailyStats userDid date
        (set_daily_stats
           (upsert_daily_stats userDid date total followees (daily_stats (db w)))
           (db w)) = Some row
    ∧ DailyStats.user_did row = userDid
    ∧ DailyStats.date row = date
    ∧ DailyStats.total_posts_viewed row = total
    ∧ DailyStats.followee_count row = followees.
Proof.
  unfold updateDailyStats, upsert_daily_stats.
  unfold bind at 1, new_Date at 1. unfold bind at 1.
  unfold try_catch, execute_or_throw, execute. cbn [db clock_reads random_draws].
  destruct (sql_insert daily_stats_conflict _ (daily_stats (db w)))
    as [table|] eqn:Hinsert; cbn [mbind option_bind default].
  - unfold sql_insert in Hinsert.
    destruct (decide (Exists _ _)) as [|Hfresh]; [done|]. simplify_eq.
    assert (filter (λ r, DailyStats.user_did r = userDid ∧ DailyStats.date r = date)
              (daily_stats (db w)) = []) as Hnone.
    { apply filter_none. intros r Hin [Hu Hd].
      apply Hfresh, Exists_exists. exists r. split; [done|].
      by split. }
    assert (getDailyStats userDid date
              (set_daily_stats
                 (daily_stats (db w) ++ [DailyStats.mk userDid date total followees])
                 (db w))
            = Some (DailyStats.mk userDid date total followees)) as Hget.
    { unfold getDailyStats. simpl. rewrite filter_app, Hnone. simpl.
      by rewrite filter_cons_True. }
    exists (DailyStats.mk userDid date total followees). split.
    + erewrite bind_returned by apply query_run. cbn [db]. by rewrite Hget.
    + split; [exact Hget|done].
  - unfold sql_insert in Hinsert.
    destruct (decide (Exists _ _)) as [Htaken|]; [|done].
    apply Exists_exists in Htaken as (r & Hin & Hu & Hd). simpl in Hu, Hd.
    assert (r ∈ filter (λ r, DailyStats.user_did r = userDid ∧ DailyStats.date r = date)
                  (daily_stats (db w))) as Hmem
      by (apply list_elem_of_filter; done).
    destruct (filter _ (daily_stats (db w))) as [|r0 matching] eqn:Hfilter;
      [by apply elem_of_nil in Hmem|].
    assert (r0 ∈ filter (λ r, DailyStats.user_did r = userDid ∧ DailyStats.date r = date)
                   (daily_stats (db w))) as Hr0
      by (rewrite Hfilter; apply list_elem_of_here).
    apply list_elem_of_filter in Hr0 as [[Hu0 Hd0] _].
    set (updated := sql_update _ _ _).
    assert (getDailyStats userDid date (set_daily_stats updated (db w))
            = Some (DailyStats.mk (DailyStats.user_did r0) (DailyStats.date r0)
                      total followees)) as Hget.
    { unfold getDailyStats, updated. simpl.
      rewrite filter_sql_update by (by intros ? [? ?]).
      by rewrite Hfilter. }
    exists (DailyStats.mk (DailyStats.user_did r0) (DailyStats.date r0) total followees).
    split.
    + erewrite bind_returned by apply query_run. cbn [db]. by rewrite Hget.
    + split; [exact Hget|done].
Qed.

(** A call that gets past both early returns: the page is the sorted
    result of the loops, and the DailyStat row of the date read by [handler]
    is upserted to the views counted before plus the page length. *)
Lemma handler_serves params requesterDid w :
  requesterDid ≠ "" →
  let userPrefs := preferences_in rt requesterDid w in
  let followees := getUserFollowees requesterDid (db w) in
  let viewed := viewed_on requesterDid (isoDate (clock rt (S (clock_reads w)))) (db w) in
  let viewedCount := Z.of_nat (length viewed) in
  let postsToShow :=
    Z.min (UserPreferences.daily_post_limit userPrefs - viewedCount)
          (limit_or_default params) in
  let today := isoDate (clock rt (2 + clock_reads w)) in
  followees ≠ [] →
  viewedCount < UserPreferences.daily_post_limit userPrefs →
  ∃ items w1 out w',
    process_followees rt requesterDid userPrefs viewed postsToShow
      (Array_sort by_mahoot_number_desc followees) [] (loops_start rt requesterDid w)
      = (Returned items, w1)
    ∧ handler rt params (Some requesterDid) w = (Returned out, w')
    ∧ feed out = to_skeleton <$> Array_sort (by_uri_time_desc rt) items
    ∧ (items = [] → cursor out = None)
    ∧ is_Some (metadata out)
    ∧ db w' = set_daily_stats
                (upsert_daily_stats requesterDid today
                   (viewedCount + Z.of_nat (length items))
                   (Z.of_nat (length followees)) (daily_stats (db w1)))
                (db w1)
    ∧ (clock_reads w1 ≤ clock_reads w')%nat.
Proof.
  intros Hauth userPrefs followees viewed viewedCount postsToShow today Hsome Hbudget.
  destruct (process_followees_spec requesterDid userPrefs viewed postsToShow
              (Array_sort by_mahoot_number_desc followees) []
              (loops_start rt requesterDid w))
    as (items & w1 & Hloops & _).
  rewrite app_nil_l in Hloops.
  unfold handler.
  destruct (decide (requesterDid = "")) as [|_]; [done|].
  erewrite bind_returned by apply getOrCreateUserPreferences_run.
  erewrite bind_returned by apply query_run. cbn [db clock_reads random_draws].
  rewrite getUserFollowees_with_preferences. fold followees userPrefs.
  destruct (decide (length followees = 0%nat)) as [Hzero|_].
  { by destruct followees. }
  erewrite bind_returned by apply getPostsViewedToday_run.
  cbn [db clock_reads random_draws]. rewrite viewed_on_with_preferences.
  fold viewed viewedCount.
  destruct (decide (viewedCount >= _)) as [|_]; [lia|].
  unfold bind at 1, new_Date at 1. cbn [db clock_reads random_draws].
  fold postsToShow.
  change (mkWorld (db_with_preferences rt requesterDid w)
            (S (S (S (clock_reads w)))) (random_draws w))
    with (loops_start rt requesterDid w).
  erewrite bind_returned by exact Hloops.
  rewrite Array_sort_length.
  destruct (updateDailyStats_spec requesterDid today
              (viewedCount + Z.of_nat (length items))
              (Z.of_nat (length followees)) w1) as (row & Hupdate & _).
  erewrite bind_returned by exact Hupdate.
  exists items, w1.
  destruct (last (Array_sort (by_uri_time_desc rt) items)) as [lastPost|] eqn:Hlast.
  - eexists _, _. split; [done|]. split; [reflexivity|]. simpl.
    split; [done|]. split; [|split; [by eexists|split; [done|lia]]].
    intros ->. done.
  - eexists _, _. split; [done|]. split; [reflexivity|]. simpl.
    split; [done|]. split; [done|]. split; [by eexists|]. split; [done|lia].
Qed.

End Loops.

(** ** Priority order *)

Lemma sort_insert_sorted {A} (compareFn : A → A → option Z) x l :
  (∀ a b, ¬ sorts_before compareFn a b → sorts_before compareFn b a) →
  Transitive (sorts_before compareFn) →
  StronglySorted (sorts_before compareFn) l →
  StronglySorted (sorts_before compareFn) (sort_insert compareFn x l).
Proof.
  intros Htotal Htrans Hsorted.
  induction Hsorted as [|y l Hl IH Hy]; simpl.
  - repeat constructor.
  - case_decide as Hxy.
    + constructor; [by constructor|].
      constructor; [exact Hxy|].
      eapply Forall_impl; [exact Hy|]. intros z Hyz. by transitivity y.
    + constructor; [exact IH|].
      rewrite sort_insert_Permutation. constructor; [|exact Hy].
      by apply Htotal.
Qed.

Lemma Array_sort_sorted {A} (compareFn : A → A → option Z) l :
  (∀ a b, ¬ sorts_before compareFn a b → sorts_before compareFn b a) →
  Transitive (sorts_before compareFn) →
  StronglySorted (sorts_before compareFn) (Array_sort compareFn l).
Proof.
  intros Htotal Htrans. induction l as [|x l IH]; simpl; [constructor|].
  by apply sort_insert_sorted.
Qed.

Lemma StronglySorted_mono {A} (R1 R2 : A → A → Prop) l :
  (∀ a b, R1 a b → R2 a b) → StronglySorted R1 l → StronglySorted R2 l.
Proof.
  intros Himpl Hsorted. induction Hsorted as [|x l _ IH Hx]; constructor; [done|].
  eapply Forall_impl; [exact Hx|]. auto.
Qed.

(** The followees are visited from the highest quota down. *)
Lemma sortedFollowees_descending followees :
  StronglySorted
    (λ a b, FolloweeRelationship.mahoot_number b ≤ FolloweeRelationship.mahoot_number a)
    (Array_sort by_mahoot_number_desc followees)
  ∧ Array_sort by_mahoot_number_desc followees ≡ₚ followees.
Proof.
  split; [|apply Array_sort_Permutation].
  eapply StronglySorted_mono; [|apply Array_sort_sorted].
  - intros a b. unfold sorts_before, by_mahoot_number_desc. simpl. lia.
  - intros a b. unfold sorts_before, by_mahoot_number_desc. simpl. lia.
  - intros a b c. unfold sorts_before, by_mahoot_number_desc. simpl. lia.
Qed.

(** ** Page size and priority *)

(** [params.limit || 20] at 0: the default page size. *)
Lemma limit_or_default_zero feedUri pageCursor :
  limit_or_default (mkQueryParams feedUri (Some 0) pageCursor) = 20
  ∧ limit_or_default (mkQueryParams feedUri None pageCursor) = 20.
Proof. done. Qed.

Section Allocation.
Context (rt : Runtime).

Lemma getUnviewedPostsByAuthor_with_preferences userDid viewerDid authorDid n w :
  getUnviewedPostsByAuthor viewerDid authorDid n (db_with_preferences rt userDid w)
  = getUnviewedPostsByAuthor viewerDid authorDid n (db w).
Proof. unfold db_with_preferences. by destruct (find_user_preferences _ _). Qed.

(** [tracked] only appends to [post_statistics]. *)
Lemma tracked_views viewerDid w w' items :
  tracked rt viewerDid w w' items →
  ∃ views,
    post_statistics (db w') = post_statistics (db w) ++ views
    ∧ length views = length items.
Proof.
  intros (views & Hdb & _ & Hviews). exists views. rewrite Hdb.
  split; [done|]. symmetry. by eapply Forall2_length.
Qed.

(** C5 (amended).  For every negative page size [handler] returns an empty
    feed without a cursor and tracks no post: the page cap
    [min(remaining, limit)] is negative, so no followee gets a slot.  (A
    page size of 0 is not among them: [params.limit || 20] replaces it by
    the default 20.) *)
Theorem handler_negative_limit params requesterDid w pageSize :
  requesterDid ≠ "" →
  limit params = Some pageSize →
  pageSize < 0 →
  ∃ out w',
    handler rt params (Some requesterDid) w = (Returned out, w')
    ∧ feed out = []
    ∧ cursor out = None
    ∧ post_statistics (db w') = post_statistics (db w).
Proof.
  intros Hauth Hlimit Hneg.
  destruct (decide (getUserFollowees requesterDid (db w) = [])) as [Hnone|Hsome].
  { eexists empty_page, _.
    split; [by apply handler_returns_without_followees|]. simpl.
    by destruct (db_with_preferences_frame rt requesterDid w)
      as [(_ & _ & _ & -> & _) _]. }
  destruct (decide (Z.of_nat (length (viewed_on requesterDid
              (isoDate (clock rt (S (clock_reads w)))) (db w)))
            >= UserPreferences.daily_post_limit (preferences_in rt requesterDid w)))
    as [Hspent|Hbudget].
  { eexists empty_page, _.
    split; [by apply handler_returns_when_spent|]. simpl.
    by destruct (db_with_preferences_frame rt requesterDid w)
      as [(_ & _ & _ & -> & _) _]. }
  assert (Z.of_nat (length (viewed_on requesterDid
            (isoDate (clock rt (S (clock_reads w)))) (db w)))
          < UserPreferences.daily_post_limit (preferences_in rt requesterDid w))
    as Hleft by lia.
  destruct (handler_serves rt params requesterDid w Hauth Hsome Hleft)
    as (items & w1 & out & w' & Hloops & Hrun & Hfeed & Hcursor & _ & Hdb & _).
  match type of Hloops with
  | process_followees _ _ ?prefs ?viewed ?cap ?sorted _ ?w0 = _ =>
      destruct (process_followees_spec rt requesterDid prefs viewed cap sorted [] w0)
        as (items' & w1' & Hloops' & Htracked & _ & _ & Hcap)
  end.
  rewrite Hloops, app_nil_l in Hloops'. injection Hloops' as <- <-.
  assert (limit_or_default params = pageSize) as Hpage.
  { unfold limit_or_default. rewrite Hlimit. case_decide; [lia|done]. }
  rewrite Hpage in Hcap. simpl length in Hcap.
  assert (items = []) as -> by (apply length_zero_iff_nil; lia).
  exists out, w'. split; [done|]. split; [by rewrite Hfeed|].
  split; [by apply Hcursor|].
  apply tracked_views in Htracked as (views & Hviews & Hlen).
  rewrite Hdb. simpl. rewrite Hviews.
  destruct views; [|done]. rewrite app_nil_r. unfold loops_start. cbn [db].
  by destruct (db_with_preferences_frame rt requesterDid w) as [(_ & _ & _ & -> & _) _].
Qed.

End Allocation.

(** ** Daily statistics against the view records *)

Lemma isoDate_spec date t :
  isoDate t = date ↔ startOfDay date ≤ t ≤ lastMsOfDay date.
Proof.
  unfold isoDate, startOfDay, lastMsOfDay, MS_PER_DAY.
  pose proof (Z.div_mod t 86400000 ltac:(lia)).
  pose proof (Z.mod_pos_bound t 86400000 ltac:(lia)).
  split; intros; nia.
Qed.

Lemma in_day_range_isoDate date t : in_day_range date t → isoDate t = date.
Proof. unfold in_day_range. intros ?. apply isoDate_spec. lia. Qed.

Lemma filter_agree {A} (P Q : A → Prop) `{∀ x, Decision (P x)} `{∀ x, Decision (Q x)}
    (l : list A) :
  (∀ x, x ∈ l → P x ↔ Q x) → filter P l = filter Q l.
Proof.
  intros Hiff. induction l as [|x l IH]; [done|].
  assert (filter P l = filter Q l) as Htail
    by (apply IH; intros y Hy; by apply Hiff, list_elem_of_further).
  destruct (decide (P x)) as [HP|HP].
  - rewrite !filter_cons_True; [by f_equal|by apply Hiff; [apply list_elem_of_here|]|done].
  - rewrite !filter_cons_False; [done| |done].
    intros HQ. apply HP, Hiff; [apply list_elem_of_here|done].
Qed.

Section DailyStat.
Context (rt : Runtime).

Lemma upsert_stored_same userDid date total followees table d :
  stored_total userDid date
    (set_daily_stats (upsert_daily_stats userDid date total followees table) d)
  = Some total.
Proof.
  destruct (updateDailyStats_spec rt userDid date total followees
              (mkWorld (set_daily_stats table d) 0 0))
    as (row & _ & Hget & _ & _ & Htotal & _).
  unfold stored_total. unfold getDailyStats in *. simpl in *.
  by rewrite Hget, <- Htotal.
Qed.

Lemma upsert_stored_other userDid date total followees table d otherDid otherDate :
  otherDid ≠ userDid ∨ otherDate ≠ date →
  stored_total otherDid otherDate
    (set_daily_stats (upsert_daily_stats userDid date total followees table) d)
  = stored_total otherDid otherDate (set_daily_stats table d).
Proof.
  intros Hother. unfold stored_total, getDailyStats. simpl. do 2 f_equal.
  unfold upsert_daily_stats, sql_insert.
  destruct (decide (Exists _ table)) as [_|_]; simpl.
  - unfold sql_update. induction table as [|r table IH]; [done|].
    rewrite fmap_cons. destruct (decide (_ ∧ _)) as [[Hu Hd]|Hno].
    + rewrite !filter_cons_False; [exact IH| |]; simpl; intros [? ?]; destruct Hother; congruence.
    + destruct (decide (DailyStats.user_did r = otherDid ∧ DailyStats.date r = otherDate)).
      * rewrite !filter_cons_True by done. by f_equal.
      * by rewrite !filter_cons_False.
  - rewrite filter_app, filter_cons_False, filter_nil, app_nil_r; [done|].
    simpl. intros [? ?]. destruct Hother; congruence.
Qed.

Lemma all_views_on_date_app userDid date d views :
  all_views_on_date userDid date
    (set_post_statistics (post_statistics d ++ views) d)
  = (all_views_on_date userDid date d
     + length (filter (λ r, PostStatistics.viewer_did r = userDid
                            ∧ isoDate (PostStatistics.viewed_at r) = date) views))%nat.
Proof. unfold all_views_on_date. simpl. by rewrite filter_app, length_app. Qed.

Lemma viewed_on_all_views viewerDid date d :
  (∀ v, v ∈ post_statistics d → PostStatistics.viewer_did v = viewerDid →
        PostStatistics.viewed_at v ≠ lastMsOfDay date) →
  length (viewed_on viewerDid date d) = all_views_on_date viewerDid date d.
Proof.
  intros Hnone. unfold viewed_on, all_views_on_date. f_equal.
  apply filter_agree. intros v Hv. rewrite isoDate_spec.
  split.
  - intros (? & ? & ?). split; [done|lia].
  - intros (Hviewer & ? & ?). specialize (Hnone v Hv Hviewer).
    split; [done|]. lia.
Qed.

(** The views a call tracks are the requester's, carry clock readings of
    the call, and are as many per author as the page has items. *)
Lemma tracked_stamps viewerDid w w' items :
  tracked rt viewerDid w w' items →
  ∃ views,
    db w' = set_post_statistics (post_statistics (db w) ++ views) (db w)
    ∧ (clock_reads w ≤ clock_reads w')%nat
    ∧ length views = length items
    ∧ Forall (λ view,
        PostStatistics.viewer_did view = viewerDid
        ∧ ∃ i, (clock_reads w ≤ i < clock_reads w')%nat
               ∧ PostStatistics.viewed_at view = clock rt i) views
    ∧ ∀ authorDid,
        length (filter (λ view, PostStatistics.author_did view = authorDid) views)
        = items_from authorDid items.
Proof.
  intros (views & Hdb & Hclock & Hviews). exists views. split; [done|].
  split; [done|].
  split; [symmetry; by eapply Forall2_length|].
  clear Hdb. split.
  - induction Hviews as [|item view items views (_ & _ & ? & ?) _ IH];
      constructor; done.
  - intros authorDid. unfold items_from.
    induction Hviews as [|item view items views (_ & Hauthor & _) _ IH]; [done|].
    destruct (decide (MahootFeedItem.author_did item = authorDid)) as [Hsame|Hdiff].
    + rewrite !filter_cons_True by congruence. simpl. by rewrite IH.
    + rewrite !filter_cons_False by congruence. exact IH.
Qed.

Lemma stamped_views_count userDid date otherDid otherDate views :
  Forall (λ view, PostStatistics.viewer_did view = userDid
                  ∧ isoDate (PostStatistics.viewed_at view) = date) views →
  length (filter (λ r, PostStatistics.viewer_did r = otherDid
                       ∧ isoDate (PostStatistics.viewed_at r) = otherDate) views)
  = if decide (otherDid = userDid ∧ otherDate = date) then length views else 0%nat.
Proof.
  intros Hviews. induction Hviews as [|view views [Hu Hd] _ IH]; [by case_decide|].
  destruct (decide (otherDid = userDid ∧ otherDate = date)) as [[-> ->]|Hother].
  - rewrite filter_cons_True by done. simpl. by rewrite IH.
  - rewrite filter_cons_False; [exact IH|]. intros [? ?]. apply Hother.
    split; congruence.
Qed.

Lemma stats_agree_same_tables d d' :
  post_statistics d' = post_statistics d →
  daily_stats d' = daily_stats d →
  stats_agree d → stats_agree d'.
Proof.
  intros Hviews Hstats Hagree userDid date total.
  unfold stored_total, getDailyStats, all_views_on_date.
  rewrite Hviews, Hstats. apply Hagree.
Qed.

(** C7 (amended).  Take a call of [handler] all of whose clock readings lie
    in the range [[00:00:00.000, 23:59:59.999)] of one date, made when no
    ViewRecord of the requester is stamped [23:59:59.999] of that date.
    If the call gets past the early returns, it upserts the DailyStat row
    of that date to the number of the requester's ViewRecords of that date
    before the call plus the length of the page, which is the number of the
    requester's ViewRecords of that date after the call.  And whether it
    serves or returns early, if every DailyStat row stored the count of its
    user's ViewRecords of its date before the call, every row does after
    it. *)
Theorem handler_keeps_daily_stats params requesterDid w date :
  requesterDid ≠ "" →
  let result := handler rt params (Some requesterDid) w in
  let viewedCount := Z.of_nat (all_views_on_date requesterDid date (db w)) in
  (∀ i, (clock_reads w ≤ i < clock_reads result.2)%nat →
        in_day_range date (clock rt i)) →
  (∀ v, v ∈ post_statistics (db w) →
        PostStatistics.viewer_did v = requesterDid →
        PostStatistics.viewed_at v ≠ lastMsOfDay date) →
  (getUserFollowees requesterDid (db w) ≠ [] →
   viewedCount < UserPreferences.daily_post_limit (preferences_in rt requesterDid w) →
   ∃ out,
     result.1 = Returned out
     ∧ stored_total requesterDid date (db result.2)
       = Some (viewedCount + Z.of_nat (length (feed out)))
     ∧ Z.of_nat (all_views_on_date requesterDid date (db result.2))
       = viewedCount + Z.of_nat (length (feed out)))
  ∧ (stats_agree (db w) → stats_agree (db result.2)).
Proof.
  intros Hauth result viewedCount Hclock Hnone.
  destruct (db_with_preferences_frame rt requesterDid w)
    as [(_ & _ & _ & Hviews0 & Hstats0) _].
  destruct (decide (getUserFollowees requesterDid (db w) = [])) as [Hempty|Hsome].
  { subst result.
    rewrite (handler_returns_without_followees rt params requesterDid w Hauth Hempty).
    split; [done|]. by apply stats_agree_same_tables. }
  destruct (decide (Z.of_nat (length (viewed_on requesterDid
              (isoDate (clock rt (S (clock_reads w)))) (db w)))
            >= UserPreferences.daily_post_limit (preferences_in rt requesterDid w)))
    as [Hspent|Hbudget].
  { subst result.
    rewrite (handler_returns_when_spent rt params requesterDid w Hauth Hsome Hspent)
      in Hclock |- *.
    cbn [fst snd db clock_reads] in *.
    split; [|by apply stats_agree_same_tables].
    intros _ Hleft. exfalso.
    rewrite (in_day_range_isoDate date) in Hspent by (apply Hclock; lia).
    rewrite (viewed_on_all_views requesterDid date (db w) Hnone) in Hspent.
    unfold viewedCount in Hleft. lia. }
  assert (Z.of_nat (length (viewed_on requesterDid
            (isoDate (clock rt (S (clock_reads w)))) (db w)))
          < UserPreferences.daily_post_limit (preferences_in rt requesterDid w))
    as Hleft by lia.
  destruct (handler_serves rt params requesterDid w Hauth Hsome Hleft)
    as (items & w1 & out & w' & Hloops & Hrun & Hfeed & _ & _ & Hdb & Hlater).
  match type of Hloops with
  | process_followees _ _ ?prefs ?viewed ?cap ?sorted _ ?w0 = _ =>
      destruct (process_followees_spec rt requesterDid prefs viewed cap sorted [] w0)
        as (items' & w1' & Hloops' & Htracked & _)
  end.
  rewrite Hloops, app_nil_l in Hloops'. injection Hloops' as <- <-.
  apply tracked_stamps in Htracked as (views & Hdb1 & Hstart & Hlen & Hstamps & _).
  unfold loops_start in Hstart, Hstamps, Hdb1. cbn [db clock_reads] in *.
  subst result. rewrite Hrun in Hclock |- *. cbn [fst snd] in *.
  assert (isoDate (clock rt (S (clock_reads w))) = date) as Hday1
    by (apply in_day_range_isoDate, Hclock; lia).
  assert (isoDate (clock rt (2 + clock_reads w)) = date) as Hday2
    by (apply in_day_range_isoDate, Hclock; lia).
  rewrite Hday1, Hday2 in Hdb.
  rewrite (viewed_on_all_views requesterDid date (db w) Hnone) in Hdb.
  fold viewedCount in Hdb.
  assert (Forall (λ view, PostStatistics.viewer_did view = requesterDid
                          ∧ isoDate (PostStatistics.viewed_at view) = date) views)
    as Hdated.
  { eapply Forall_impl; [exact Hstamps|].
    intros view (? & i & Hi & ->). split; [done|].
    apply in_day_range_isoDate, Hclock. lia. }
  assert (length (feed out) = length items) as Hpage
    by (by rewrite Hfeed, length_fmap, Array_sort_length).
  assert (∀ userDid day,
    all_views_on_date userDid day (db w')
    = (all_views_on_date userDid day (db w)
       + if decide (userDid = requesterDid ∧ day = date) then length items else 0)%nat)
    as Hcount.
  { intros userDid day. rewrite Hdb.
    unfold all_views_on_date at 1. cbn [post_statistics set_daily_stats].
    fold (all_views_on_date userDid day (db w1)).
    rewrite Hdb1, all_views_on_date_app.
    rewrite (stamped_views_count _ _ _ _ _ Hdated), Hlen.
    unfold all_views_on_date. by rewrite Hviews0. }
  split.
  - intros _ _. exists out. split; [done|]. rewrite Hpage. split.
    + rewrite Hdb. apply upsert_stored_same.
    + rewrite Hcount, decide_True by done. unfold viewedCount. lia.
  - intros Hagree userDid day total Hstored.
    rewrite Hcount.
    destruct (decide (userDid = requesterDid ∧ day = date)) as [[-> ->]|Hother].
    + rewrite Hdb, upsert_stored_same in Hstored. injection Hstored as <-.
      unfold viewedCount. lia.
    + rewrite Hdb, upsert_stored_other in Hstored
        by (destruct (decide (userDid = requesterDid)); [right|left]; naive_solver).
      rewrite Nat.add_0_r. apply Hagree.
      revert Hstored. unfold stored_total, getDailyStats. simpl.
      rewrite Hdb1. cbn [daily_stats set_post_statistics]. by rewrite Hstats0.
Qed.

End DailyStat.

(** ** The per-followee quota *)

Lemma viewed_from_views_in_range viewerDid authorDid date d :
  viewed_from (viewed_on viewerDid date d) authorDid
  = Z.of_nat (views_in_range viewerDid authorDid date d).
Proof.
  unfold viewed_from, viewed_on, views_in_range, in_day_range. do 2 f_equal.
  rewrite list_filter_filter. apply list_filter_iff. intros r. tauto.
Qed.

Lemma allowance_no_edge viewed authorDid followees :
  (∀ e, e ∈ followees → FolloweeRelationship.followee_did e ≠ authorDid) →
  allowance viewed authorDid followees = 0.
Proof.
  intros Hnone. induction followees as [|e followees IH]; [done|].
  simpl. rewrite decide_False by (apply Hnone, list_elem_of_here).
  rewrite IH; [done|]. intros e' He'. by apply Hnone, list_elem_of_further.
Qed.

(** With one edge per followee, the allowance of an author is what the
    author's edge leaves. *)
Lemma allowance_one_edge viewed authorDid quota followees :
  one_edge_per_followee followees →
  (∀ e, e ∈ followees → FolloweeRelationship.followee_did e = authorDid →
        FolloweeRelationship.mahoot_number e = quota) →
  allowance viewed authorDid followees ≤ Z.max 0 (quota - viewed_from viewed authorDid).
Proof.
  unfold one_edge_per_followee. intros Hunique Hquota.
  induction followees as [|e followees IH]; simpl; [lia|].
  rewrite fmap_cons in Hunique. apply NoDup_cons in Hunique as [Hfresh Hunique].
  destruct (decide (FolloweeRelationship.followee_did e = authorDid)) as [Hsame|Hdiff].
  - rewrite (Hquota e (list_elem_of_here _ _) Hsame).
    rewrite allowance_no_edge; [lia|].
    intros e' He' Hdid. apply Hfresh, list_elem_of_fmap. exists e'.
    split; [congruence|done].
  - rewrite Z.add_0_l. apply IH; [done|].
    intros e' He'. by apply Hquota, list_elem_of_further.
Qed.

Section Quota.
Context (rt : Runtime).

(** One call tracks, for every author, no more posts than the author's
    edge leaves after the views the call counted for today; the other
    tables than [post_statistics], [daily_stats] and [user_preferences]
    stay as they are. *)
Lemma handler_tracks_within_quota params requesterDid w authorDid quota :
  requesterDid ≠ "" →
  one_edge_per_followee (getUserFollowees requesterDid (db w)) →
  (∀ e, e ∈ getUserFollowees requesterDid (db w) →
        FolloweeRelationship.followee_did e = authorDid →
        FolloweeRelationship.mahoot_number e = quota) →
  let result := handler rt params (Some requesterDid) w in
  let today := isoDate (clock rt (S (clock_reads w))) in
  ∃ views,
    post_statistics (db result.2) = post_statistics (db w) ++ views
    ∧ followee_relationships (db result.2) = followee_relationships (db w)
    ∧ (clock_reads w ≤ clock_reads result.2)%nat
    ∧ Forall (λ view,
        PostStatistics.viewer_did view = requesterDid
        ∧ ∃ i, (3 + clock_reads w ≤ i < clock_reads result.2)%nat
               ∧ PostStatistics.viewed_at view = clock rt i) views
    ∧ Z.of_nat (length (filter (λ view, PostStatistics.author_did view = authorDid)
                               views))
      ≤ Z.max 0 (quota - Z.of_nat (views_in_range requesterDid authorDid today (db w))).
Proof.
  intros Hauth Hunique Hquota result today.
  destruct (db_with_preferences_frame rt requesterDid w)
    as [(_ & _ & Hedges0 & Hviews0 & _) _].
  destruct (decide (getUserFollowees requesterDid (db w) = [])) as [Hempty|Hsome].
  { subst result.
    rewrite (handler_returns_without_followees rt params requesterDid w Hauth Hempty).
    exists []. cbn [fst snd db clock_reads]. rewrite app_nil_r.
    split; [done|]. split; [done|]. split; [lia|]. split; [constructor|].
    simpl. lia. }
  destruct (decide (Z.of_nat (length (viewed_on requesterDid today (db w)))
            >= UserPreferences.daily_post_limit (preferences_in rt requesterDid w)))
    as [Hspent|Hbudget].
  { subst result.
    rewrite (handler_returns_when_spent rt params requesterDid w Hauth Hsome Hspent).
    exists []. cbn [fst snd db clock_reads]. rewrite app_nil_r.
    split; [done|]. split; [done|]. split; [lia|]. split; [constructor|].
    simpl. lia. }
  assert (Z.of_nat (length (viewed_on requesterDid today (db w)))
          < UserPreferences.daily_post_limit (preferences_in rt requesterDid w))
    as Hleft by lia.
  destruct (handler_serves rt params requesterDid w Hauth Hsome Hleft)
    as (items & w1 & out & w' & Hloops & Hrun & _ & _ & _ & Hdb & Hlater).
  match type of Hloops with
  | process_followees _ _ ?prefs ?viewed ?cap ?sorted _ ?w0 = _ =>
      destruct (process_followees_spec rt requesterDid prefs viewed cap sorted [] w0)
        as (items' & w1' & Hloops' & Htracked & _ & Hshare & _)
  end.
  rewrite Hloops, app_nil_l in Hloops'. injection Hloops' as <- <-.
  apply tracked_stamps in Htracked
    as (views & Hdb1 & Hstart & Hlen & Hstamps & Hauthors).
  unfold loops_start in Hstart, Hstamps, Hdb1. cbn [db clock_reads] in *.
  subst result. rewrite Hrun. cbn [fst snd].
  exists views. rewrite Hdb, Hdb1. cbn.
  split; [by rewrite Hviews0|]. split; [by rewrite Hedges0|]. split; [lia|].
  split.
  - eapply Forall_impl; [exact Hstamps|].
    intros view (? & i & ? & ?). split; [done|]. exists i. split; [lia|done].
  - rewrite Hauthors. specialize (Hshare authorDid).
    fold today in Hshare.
    rewrite <- viewed_from_views_in_range.
    etrans; [exact Hshare|].
    apply allowance_one_edge.
    + unfold one_edge_per_followee in *. by rewrite Array_sort_Permutation.
    + intros e He. apply Hquota. by rewrite <- (Array_sort_Permutation by_mahoot_number_desc).
Qed.

Lemma filter_length_le {A} (P Q : A → Prop) `{∀ x, Decision (P x)} `{∀ x, Decision (Q x)}
    (l : list A) :
  (∀ x, x ∈ l → P x → Q x) → (length (filter P l) ≤ length (filter Q l))%nat.
Proof.
  intros Himpl. induction l as [|x l IH]; [done|].
  assert (length (filter P l) ≤ length (filter Q l))%nat as Htail
    by (apply IH; intros y Hy; by apply Himpl, list_elem_of_further).
  destruct (decide (P x)) as [HP|HP].
  - rewrite (filter_cons_True P), (filter_cons_True Q);
      [simpl; lia|by apply Himpl; [apply list_elem_of_here|]|done].
  - rewrite (filter_cons_False P) by done.
    destruct (decide (Q x)); [rewrite filter_cons_True by done; simpl; lia|].
    by rewrite filter_cons_False.
Qed.

(** The quota invariant of one call: with a clock that does not go back,
    a call that starts within quota on every day range ends within quota
    on every day range. *)
Lemma handler_keeps_quota params requesterDid w authorDid quota :
  monotone_clock rt →
  requesterDid ≠ "" →
  one_edge_per_followee (getUserFollowees requesterDid (db w)) →
  (∀ e, e ∈ getUserFollowees requesterDid (db w) →
        FolloweeRelationship.followee_did e = authorDid →
        FolloweeRelationship.mahoot_number e = quota) →
  views_not_later rt requesterDid authorDid w →
  within_quota requesterDid authorDid quota (db w) →
  let w' := (handler rt params (Some requesterDid) w).2 in
  within_quota requesterDid authorDid quota (db w')
  ∧ views_not_later rt requesterDid authorDid w'
  ∧ getUserFollowees requesterDid (db w') = getUserFollowees requesterDid (db w).
Proof.
  intros Hmono Hauth Hunique Hquota Hpast Hwithin w'.
  destruct (handler_tracks_within_quota params requesterDid w authorDid quota
              Hauth Hunique Hquota)
    as (views & Hviews & Hedges & Hclock & Hstamps & Hshare).
  fold w' in Hviews, Hedges, Hclock, Hstamps, Hshare.
  set (today := isoDate (clock rt (S (clock_reads w)))) in *.
  pose proof (proj1 (isoDate_spec today (clock rt (S (clock_reads w)))) eq_refl)
    as Htoday.
  split; [|split].
  - intros date. pose proof (Hwithin date) as Hdate. pose proof (Hwithin today) as Hnow.
    set (new := length (filter (λ r, PostStatistics.viewer_did r = requesterDid
                                     ∧ PostStatistics.author_did r = authorDid
                                     ∧ in_day_range date (PostStatistics.viewed_at r))
                               views)).
    assert (views_in_range requesterDid authorDid date (db w')
            = (views_in_range requesterDid authorDid date (db w) + new)%nat) as ->
      by (unfold views_in_range; by rewrite Hviews, filter_app, length_app).
    assert (new ≤ length (filter (λ view, PostStatistics.author_did view = authorDid)
                            views))%nat as Hnew
      by (apply filter_length_le; tauto).
    destruct (decide (date = today)) as [->|Hother]; [lia|].
    destruct (decide (date < today)) as [Hbefore|Hafter].
    + assert (new = 0%nat) as ->; [|lia].
      apply length_zero_iff_nil, filter_none. intros v Hv (_ & _ & Hrange).
      rewrite Forall_forall in Hstamps.
      destruct (Hstamps v Hv) as (_ & i & Hi & Hat).
      pose proof (Hmono (S (clock_reads w)) i ltac:(lia)).
      unfold in_day_range, startOfDay, lastMsOfDay, MS_PER_DAY in *. lia.
    + assert (views_in_range requesterDid authorDid date (db w) = 0%nat) as ->; [|lia].
      apply length_zero_iff_nil, filter_none. intros v Hv (Hviewer & Hauthor & Hrange).
      pose proof (Hpast v Hv Hviewer Hauthor).
      pose proof (Hmono (clock_reads w) (S (clock_reads w)) ltac:(lia)).
      unfold in_day_range, startOfDay, lastMsOfDay, MS_PER_DAY in *. lia.
  - intros v Hv Hviewer Hauthor. rewrite Hviews in Hv.
    apply elem_of_app in Hv as [Hold|Hnew].
    + pose proof (Hpast v Hold Hviewer Hauthor).
      pose proof (Hmono (clock_reads w) (clock_reads w') Hclock). lia.
    + rewrite Forall_forall in Hstamps.
      destruct (Hstamps v Hnew) as (_ & i & Hi & ->). apply Hmono. lia.
  - unfold getUserFollowees. by rewrite Hedges.
Qed.

(** The quota invariant of any number of calls: starting within quota,
    with a quota that stays and a clock that does not go back, the pair's
    ViewRecords in any day range never exceed the quota. *)
Lemma quota_kept_in_every_day_range requesterDid authorDid quota calls w :
  monotone_clock rt →
  requesterDid ≠ "" →
  one_edge_per_followee (getUserFollowees requesterDid (db w)) →
  (∀ e, e ∈ getUserFollowees requesterDid (db w) →
        FolloweeRelationship.followee_did e = authorDid →
        FolloweeRelationship.mahoot_number e = quota) →
  views_not_later rt requesterDid authorDid w →
  within_quota requesterDid authorDid quota (db w) →
  within_quota requesterDid authorDid quota (db (after_calls rt requesterDid calls w)).
Proof.
  intros Hmono Hauth. revert w.
  induction calls as [|params calls IH]; intros w Hunique Hquota Hpast Hwithin;
    [done|].
  destruct (handler_keeps_quota params requesterDid w authorDid quota
              Hmono Hauth Hunique Hquota Hpast Hwithin)
    as (Hwithin' & Hpast' & Hedges).
  cbn [after_calls]. apply IH; [by rewrite Hedges|by rewrite Hedges|done|done].
Qed.

(** X5: A followee whose edge has quota 0, or who has no edge, is never
    tracked: whatever the clock, the page size and the unviewed posts, the
    calls add no ViewRecord for that author. *)
Lemma muted_followee_never_tracked requesterDid authorDid calls w :
  requesterDid ≠ "" →
  one_edge_per_followee (getUserFollowees requesterDid (db w)) →
  (∀ e, e ∈ getUserFollowees requesterDid (db w) →
        FolloweeRelationship.followee_did e = authorDid →
        FolloweeRelationship.mahoot_number e = 0) →
  filter (λ view, PostStatistics.author_did view = authorDid)
         (post_statistics (db (after_calls rt requesterDid calls w)))
  = filter (λ view, PostStatistics.author_did view = authorDid)
           (post_statistics (db w)).
Proof.
  intros Hauth. revert w.
  induction calls as [|params calls IH]; intros w Hunique Hquota; [done|].
  destruct (handler_tracks_within_quota params requesterDid w authorDid 0
              Hauth Hunique Hquota)
    as (views & Hviews & Hedges & _ & _ & Hshare).
  cbn [after_calls]. rewrite IH.
  - rewrite Hviews, filter_app.
    assert (filter (λ view, PostStatistics.author_did view = authorDid) views = [])
      as -> by (apply length_zero_iff_nil; lia).
    by rewrite app_nil_r.
  - unfold getUserFollowees. by rewrite Hedges.
  - unfold getUserFollowees. by rewrite Hedges.
Qed.

Lemma views_on_date_in_range viewerDid authorDid date d :
  no_last_ms_views viewerDid authorDid d →
  views_on_date viewerDid authorDid date d = views_in_range viewerDid authorDid date d.
Proof.
  intros Hnone. unfold views_on_date, views_in_range, in_day_range. f_equal.
  apply filter_agree. intros v Hv. rewrite isoDate_spec. split.
  - intros (Hviewer & Hauthor & ? & ?).
    pose proof (Hnone v date Hv Hviewer Hauthor). repeat split; [done|done|lia|lia].
  - intros (? & ? & ? & ?). repeat split; [done|done|lia|lia].
Qed.

(** X6: Away from the last millisecond of the day the invariant reads on
    calendar dates: if the clock does not go back and never reads
    [23:59:59.999], the pair's ViewRecords on any date never exceed the
    quota. *)
Lemma quota_kept_on_every_date requesterDid authorDid quota calls w :
  monotone_clock rt →
  (∀ i date, clock rt i ≠ lastMsOfDay date) →
  requesterDid ≠ "" →
  one_edge_per_followee (getUserFollowees requesterDid (db w)) →
  (∀ e, e ∈ getUserFollowees requesterDid (db w) →
        FolloweeRelationship.followee_did e = authorDid →
        FolloweeRelationship.mahoot_number e = quota) →
  views_not_later rt requesterDid authorDid w →
  no_last_ms_views requesterDid authorDid (db w) →
  (∀ date, Z.of_nat (views_on_date requesterDid authorDid date (db w)) ≤ quota) →
  ∀ date,
    Z.of_nat (views_on_date requesterDid authorDid date
                (db (after_calls rt requesterDid calls w))) ≤ quota.
Proof.
  intros Hmono Hclock Hauth Hunique Hquota Hpast Hnone Hwithin date.
  assert (no_last_ms_views requesterDid authorDid
            (db (after_calls rt requesterDid calls w))) as Hnone'.
  { clear Hwithin Hpast. revert w Hunique Hquota Hnone.
    induction calls as [|params calls IH]; intros w Hunique Hquota Hnone; [done|].
    destruct (handler_tracks_within_quota params requesterDid w authorDid quota
                Hauth Hunique Hquota)
      as (views & Hviews & Hedges & _ & Hstamps & _).
    cbn [after_calls]. apply IH.
    - unfold getUserFollowees. by rewrite Hedges.
    - unfold getUserFollowees. by rewrite Hedges.
    - intros v day Hv Hviewer Hauthor. rewrite Hviews in Hv.
      apply elem_of_app in Hv as [Hold|Hnew]; [by eapply Hnone|].
      rewrite Forall_forall in Hstamps.
      destruct (Hstamps v Hnew) as (_ & i & _ & ->). apply Hclock. }
  rewrite (views_on_date_in_range _ _ _ _ Hnone').
  apply quota_kept_in_every_day_range; try done.
  intros day. rewrite <- (views_on_date_in_range _ _ _ _ Hnone). apply Hwithin.
Qed.

End Quota.

(** ** Updates of the preferences *)

Lemma new_Date_run rt w :
  new_Date rt w = (Returned (clock rt (clock_reads w)),
                   mkWorld (db w) (S (clock_reads w)) (random_draws w)).
Proof. reflexivity. Qed.

Lemma execute_run f w :
  execute f w = (Returned (), mkWorld (f (db w)) (clock_reads w) (random_draws w)).
Proof. reflexivity. Qed.

Lemma head_filter_sql_update {R} (cond : R → Prop) `{∀ r, Decision (cond r)}
    (set : R → R) (table : list R) :
  (∀ r, cond r → cond (set r)) →
  head (filter cond (sql_update cond set table)) = set <$> head (filter cond table).
Proof.
  intros Hset. rewrite filter_sql_update by done. by destruct (filter cond table).
Qed.

Lemma filter_sql_update_other {R} (cond other : R → Prop) `{∀ r, Decision (cond r)}
    `{∀ r, Decision (other r)} (set : R → R) (table : list R) :
  (∀ r, cond r → ¬ other r ∧ ¬ other (set r)) →
  filter other (sql_update cond set table) = filter other table.
Proof.
  intros Hother. unfold sql_update. induction table as [|r table IH]; [done|].
  rewrite fmap_cons, !filter_cons, IH.
  destruct (decide (cond r)) as [Hr|Hr]; [|done].
  destruct (Hother r Hr) as [? ?]. by rewrite !decide_False.
Qed.

Section Updates.
Context (rt : Runtime).

Lemma find_user_preferences_user_did userDid d prefs :
  find_user_preferences userDid d = Some prefs → UserPreferences.user_did prefs = userDid.
Proof.
  unfold find_user_preferences. intros Hhead.
  apply head_Some in Hhead as [rest Hrows].
  assert (prefs ∈ filter (λ r, UserPreferences.user_did r = userDid) (user_preferences d))
    as Hin by (rewrite Hrows; left).
  by apply list_elem_of_filter in Hin as [? _].
Qed.

Lemma preferences_in_user_did userDid w :
  UserPreferences.user_did (preferences_in rt userDid w) = userDid.
Proof.
  unfold preferences_in.
  destruct (find_user_preferences userDid (db w)) as [prefs|] eqn:Hfind; [|done].
  by apply find_user_preferences_user_did in Hfind.
Qed.

Lemma find_with_preferences userDid w :
  find_user_preferences userDid (db_with_preferences rt userDid w)
  = Some (preferences_in rt userDid w).
Proof.
  unfold db_with_preferences, preferences_in.
  destruct (find_user_preferences userDid (db w)) as [prefs|] eqn:Hfind; [done|].
  unfold find_user_preferences in *. cbn [user_preferences set_user_preferences].
  rewrite filter_app. apply head_None in Hfind. rewrite Hfind. cbn.
  by rewrite decide_True.
Qed.

Lemma find_other_with_preferences userDid otherDid w :
  otherDid ≠ userDid →
  find_user_preferences otherDid (db_with_preferences rt userDid w)
  = find_user_preferences otherDid (db w).
Proof.
  intros Hother. unfold db_with_preferences.
  destruct (find_user_preferences userDid (db w)); [done|].
  unfold find_user_preferences. cbn [user_preferences set_user_preferences].
  rewrite filter_app, filter_cons, decide_False by (cbn; congruence).
  by rewrite filter_nil, app_nil_r.
Qed.

(** X8: [updateUserDailyPostLimit] stores whatever limit it is given, for a
    user with or without a preferences row: the row it returns is the one
    stored for the user, with the new limit, the [default_mahoot_number] and
    [created_at] the user had (or the defaults just created) and
    [updated_at] set to the first clock reading; the rows of other users and
    all other tables are as before. *)
Theorem updateUserDailyPostLimit_stores_limit userDid dailyPostLimit w :
  let now := clock rt (clock_reads w) in
  let prior :=
    preferences_in rt userDid (mkWorld (db w) (S (clock_reads w)) (random_draws w)) in
  let row :=
    UserPreferences.mk userDid dailyPostLimit (UserPreferences.default_mahoot_number prior)
      (UserPreferences.created_at prior) now in
  ∃ w',
    updateUserDailyPostLimit rt userDid dailyPostLimit w = (Returned row, w')
    ∧ find_user_preferences userDid (db w') = Some row
    ∧ (∀ otherDid, otherDid ≠ userDid →
         find_user_preferences otherDid (db w') = find_user_preferences otherDid (db w))
    ∧ same_but_preferences (db w) (db w').
Proof.
  intros now prior row. unfold updateUserDailyPostLimit.
  erewrite bind_returned by apply new_Date_run.
  erewrite bind_returned by apply getOrCreateUserPreferences_run.
  erewrite bind_returned by apply execute_run.
  erewrite bind_returned by apply query_run.
  cbn [db clock_reads random_draws].
  set (w1 := mkWorld (db w) (S (clock_reads w)) (random_draws w)).
  assert (∀ d, find_user_preferences userDid
            (set_user_preferences
               (sql_update (λ r, UserPreferences.user_did r = userDid)
                  (λ r, UserPreferences.mk (UserPreferences.user_did r) dailyPostLimit
                          (UserPreferences.default_mahoot_number r)
                          (UserPreferences.created_at r) now)
                  (user_preferences (db_with_preferences rt userDid w1))) d)
          = Some row) as Hfind.
  { intros d. unfold find_user_preferences at 1. cbn [user_preferences set_user_preferences].
    rewrite head_filter_sql_update by done.
    fold (find_user_preferences userDid (db_with_preferences rt userDid w1)).
    rewrite find_with_preferences. cbn. unfold row. f_equal. f_equal.
    apply preferences_in_user_did. }
  rewrite Hfind. eexists. split; [reflexivity|]. cbn [db].
  split; [apply Hfind|]. split.
  - intros otherDid Hother. unfold find_user_preferences at 1.
    cbn [user_preferences set_user_preferences].
    rewrite filter_sql_update_other by (cbn; intros r ->; split; congruence).
    fold (find_user_preferences otherDid (db_with_preferences rt userDid w1)).
    by rewrite find_other_with_preferences.
  - destruct (db_with_preferences_frame rt userDid w1) as [(?&?&?&?&?) _].
    unfold same_but_preferences. cbn. done.
Qed.


(** X9: [updateDefaultMahootNumber] stores whatever default quota it is
    given and keeps the user's [daily_post_limit]; the rows of other users
    and all other tables are as before. *)
Theorem updateDefaultMahootNumber_stores_default userDid defaultMahootNumber w :
  let now := clock rt (clock_reads w) in
  let prior :=
    preferences_in rt userDid (mkWorld (db w) (S (clock_reads w)) (random_draws w)) in
  let row :=
    UserPreferences.mk userDid (UserPreferences.daily_post_limit prior) defaultMahootNumber
      (UserPreferences.created_at prior) now in
  ∃ w',
    updateDefaultMahootNumber rt userDid defaultMahootNumber w = (Returned row, w')
    ∧ find_user_preferences userDid (db w') = Some row
    ∧ (∀ otherDid, otherDid ≠ userDid →
         find_user_preferences otherDid (db w') = find_user_preferences otherDid (db w))
    ∧ same_but_preferences (db w) (db w').
Proof.
  intros now prior row. unfold updateDefaultMahootNumber.
  erewrite bind_returned by apply new_Date_run.
  erewrite bind_returned by apply getOrCreateUserPreferences_run.
  erewrite bind_returned by apply execute_run.
  erewrite bind_returned by apply query_run.
  cbn [db clock_reads random_draws].
  set (w1 := mkWorld (db w) (S (clock_reads w)) (random_draws w)).
  assert (∀ d, find_user_preferences userDid
            (set_user_preferences
               (sql_update (λ r, UserPreferences.user_did r = userDid)
                  (λ r, UserPreferences.mk (UserPreferences.user_did r)
                          (UserPreferences.daily_post_limit r) defaultMahootNumber
                          (UserPreferences.created_at r) now)
                  (user_preferences (db_with_preferences rt userDid w1))) d)
          = Some row) as Hfind.
  { intros d. unfold find_user_preferences at 1. cbn [user_preferences set_user_preferences].
    rewrite head_filter_sql_update by done.
    fold (find_user_preferences userDid (db_with_preferences rt userDid w1)).
    rewrite find_with_preferences. cbn. unfold row. f_equal. f_equal.
    apply preferences_in_user_did. }
  rewrite Hfind. eexists. split; [reflexivity|]. cbn [db].
  split; [apply Hfind|]. split.
  - intros otherDid Hother. unfold find_user_preferences at 1.
    cbn [user_preferences set_user_preferences].
    rewrite filter_sql_update_other by (cbn; intros r ->; split; congruence).
    fold (find_user_preferences otherDid (db_with_preferences rt userDid w1)).
    by rewrite find_other_with_preferences.
  - destruct (db_with_preferences_frame rt userDid w1) as [(?&?&?&?&?) _].
    unfold same_but_preferences. cbn. done.
Qed.

End Updates.

(** ** Followee edges *)

Lemma find_relationship_matches userDid followeeDid d edge :
  find_relationship userDid followeeDid d = Some edge →
  edge ∈ followee_relationships d
  ∧ FolloweeRelationship.user_did edge = userDid
  ∧ FolloweeRelationship.followee_did edge = followeeDid.
Proof.
  unfold find_relationship. intros Hhead. apply head_Some in Hhead as [rest Hrows].
  assert (edge ∈ filter (λ r, FolloweeRelationship.user_did r = userDid
                              ∧ FolloweeRelationship.followee_did r = followeeDid)
                        (followee_relationships d)) as Hin by (rewrite Hrows; left).
  apply list_elem_of_filter in Hin as [[? ?] ?]. done.
Qed.

Lemma upsert_edge_cases userDid followeeDid quota uri now d :
  let table := followee_relationships d in
  (find_relationship userDid followeeDid d = None
   ∧ upsert_edge userDid followeeDid quota uri now table
     = table ++ [FolloweeRelationship.mk userDid followeeDid quota uri now now])
  ∨ (is_Some (find_relationship userDid followeeDid d)
     ∧ upsert_edge userDid followeeDid quota uri now table
       = sql_update
           (λ r, FolloweeRelationship.user_did r = userDid
                 ∧ FolloweeRelationship.followee_did r = followeeDid)
           (λ r, FolloweeRelationship.mk (FolloweeRelationship.user_did r)
                   (FolloweeRelationship.followee_did r) quota uri
                   (FolloweeRelationship.created_at r) now)
           table).
Proof.
  intros table. unfold upsert_edge, sql_insert.
  destruct (find_relationship userDid followeeDid d) as [edge|] eqn:Hfind.
  - right. split; [done|]. rewrite decide_True; [done|].
    apply find_relationship_matches in Hfind as (Hin & Hu & Hf).
    apply Exists_exists. exists edge. split; [done|].
    unfold followee_relationships_conflict. cbn. done.
  - left. split; [done|]. rewrite decide_False; [done|].
    intros Hex. apply Exists_exists in Hex as (r & Hin & Hu & Hf). cbn in Hu, Hf.
    eapply (no_first_row _ _ Hfind r Hin). done.
Qed.

Lemma upsert_edge_find userDid followeeDid quota uri now d :
  find_relationship userDid followeeDid
    (set_followee_relationships
       (upsert_edge userDid followeeDid quota uri now (followee_relationships d)) d)
  = Some (edge_after userDid followeeDid quota uri now d).
Proof.
  unfold edge_after.
  destruct (upsert_edge_cases userDid followeeDid quota uri now d)
    as [[Hfind ->]|[[edge Hfind] ->]]; rewrite Hfind.
  - unfold find_relationship in *. cbn [followee_relationships set_followee_relationships].
    rewrite filter_app. apply head_None in Hfind. rewrite Hfind. cbn.
    by rewrite decide_True.
  - unfold find_relationship at 1. cbn [followee_relationships set_followee_relationships].
    rewrite head_filter_sql_update by done.
    fold (find_relationship userDid followeeDid d). rewrite Hfind. cbn.
    apply find_relationship_matches in Hfind as (_ & -> & ->). done.
Qed.

Lemma upsert_edge_find_other userDid followeeDid quota uri now d otherUser otherFollowee :
  otherUser ≠ userDid ∨ otherFollowee ≠ followeeDid →
  find_relationship otherUser otherFollowee
    (set_followee_relationships
       (upsert_edge userDid followeeDid quota uri now (followee_relationships d)) d)
  = find_relationship otherUser otherFollowee d.
Proof.
  intros Hother. unfold find_relationship at 1.
  cbn [followee_relationships set_followee_relationships].
  destruct (upsert_edge_cases userDid followeeDid quota uri now d)
    as [[Hfind ->]|[_ ->]].
  - rewrite filter_app, filter_cons, decide_False by (cbn; intros [? ?]; destruct Hother; congruence).
    by rewrite filter_nil, app_nil_r.
  - rewrite filter_sql_update_other; [done|].
    cbn. intros r [<- <-]. split; intros [? ?]; destruct Hother; congruence.
Qed.

Lemma upsert_edge_length userDid followeeDid quota uri now d :
  length (upsert_edge userDid followeeDid quota uri now (followee_relationships d))
  = if decide (is_Some (find_relationship userDid followeeDid d))
    then length (followee_relationships d)
    else S (length (followee_relationships d)).
Proof.
  destruct (upsert_edge_cases userDid followeeDid quota uri now d)
    as [[Hfind ->]|[Hfind ->]].
  - rewrite decide_False by (rewrite Hfind; by intros [? ?]).
    rewrite length_app. cbn. lia.
  - rewrite decide_True by done. unfold sql_update. by rewrite length_fmap.
Qed.

Lemma upsert_edge_keys userDid followeeDid quota uri now d :
  let key r := (FolloweeRelationship.user_did r, FolloweeRelationship.followee_did r) in
  key <$> upsert_edge userDid followeeDid quota uri now (followee_relationships d)
  = if decide (is_Some (find_relationship userDid followeeDid d))
    then key <$> followee_relationships d
    else (key <$> followee_relationships d) ++ [(userDid, followeeDid)].
Proof.
  intros key.
  destruct (upsert_edge_cases userDid followeeDid quota uri now d)
    as [[Hfind ->]|[Hfind ->]].
  - rewrite decide_False by (rewrite Hfind; by intros [? ?]).
    by rewrite fmap_app.
  - rewrite decide_True by done. unfold sql_update. rewrite <- list_fmap_compose.
    apply list_fmap_ext. intros i r _. cbn. by destruct (decide _).
Qed.

Lemma filter_fmap_length {A} (P : A → Prop) `{∀ x, Decision (P x)} (f : A → A)
    (l : list A) :
  (∀ x, P (f x) ↔ P x) → length (filter P (f <$> l)) = length (filter P l).
Proof.
  intros Hsame. induction l as [|x l IH]; [done|].
  rewrite fmap_cons, !filter_cons.
  destruct (decide (P x)) as [Hx|Hx].
  - rewrite decide_True by (by apply Hsame). cbn. by rewrite IH.
  - rewrite decide_False by (by rewrite Hsame). done.
Qed.

Lemma upsert_edge_count userDid followeeDid quota uri now d :
  getFolloweeCount userDid
    (set_followee_relationships
       (upsert_edge userDid followeeDid quota uri now (followee_relationships d)) d)
  = getFolloweeCount userDid d
    + (if decide (is_Some (find_relationship userDid followeeDid d)) then 0 else 1).
Proof.
  unfold getFolloweeCount, followee_count_of, getUserFollowees.
  cbn [followee_relationships set_followee_relationships].
  destruct (upsert_edge_cases userDid followeeDid quota uri now d)
    as [[Hfind ->]|[Hfind ->]].
  - rewrite decide_False by (rewrite Hfind; by intros [? ?]).
    rewrite filter_app, filter_cons, decide_True by done.
    rewrite length_app. cbn. lia.
  - rewrite decide_True by done. unfold sql_update.
    rewrite filter_fmap_length; [lia|]. intros r. cbn. by destruct (decide _).
Qed.

Section Edges.
Context (rt : Runtime).

Lemma write_edge_run userDid followeeDid quota uri now w :
  (try_catch
     (execute_or_throw (λ d,
        t ← sql_insert followee_relationships_conflict
              (FolloweeRelationship.mk userDid followeeDid quota uri now now)
              (followee_relationships d);
        Some (set_followee_relationships t d)))
     (execute (λ d,
        set_followee_relationships
          (sql_update
             (λ r, FolloweeRelationship.user_did r = userDid
                   ∧ FolloweeRelationship.followee_did r = followeeDid)
             (λ r, FolloweeRelationship.mk (FolloweeRelationship.user_did r)
                     (FolloweeRelationship.followee_did r) quota uri
                     (FolloweeRelationship.created_at r) now)
             (followee_relationships d)) d))) w
  = (Returned (),
     mkWorld (set_followee_relationships
                (upsert_edge userDid followeeDid quota uri now
                   (followee_relationships (db w))) (db w))
             (clock_reads w) (random_draws w)).
Proof.
  unfold try_catch, execute_or_throw, execute, upsert_edge.
  destruct (sql_insert _ _ _); done.
Qed.

Lemma addOrUpdateFolloweeRelationship_run userDid followeeDid mahootNumber followUri w :
  let now := clock rt (clock_reads w) in
  let uri := follow_uri_or_default userDid followeeDid followUri in
  let w1 := mkWorld (db w) (S (clock_reads w)) (random_draws w) in
  ∃ quota w2,
    match mahootNumber with
    | Some n => ret n
    | None => calculateDefaultMahootNumber rt userDid
    end w1 = (Returned quota, w2)
    ∧ addOrUpdateFolloweeRelationship rt userDid followeeDid mahootNumber followUri w
      = (Returned (edge_after userDid followeeDid quota uri now (db w2)),
         mkWorld (set_followee_relationships
                    (upsert_edge userDid followeeDid quota uri now
                       (followee_relationships (db w2))) (db w2))
                 (clock_reads w2) (random_draws w2)).
Proof.
  intros now uri w1.
  assert (∃ quota w2,
            match mahootNumber with
            | Some n => ret n
            | None => calculateDefaultMahootNumber rt userDid
            end w1 = (Returned quota, w2)) as (quota & w2 & Hquota).
  { destruct mahootNumber as [n|]; [by eexists _, _|].
    rewrite calculateDefaultMahootNumber_run. by eexists _, _. }
  exists quota, w2. split; [done|].
  unfold addOrUpdateFolloweeRelationship.
  erewrite bind_returned by apply new_Date_run.
  erewrite bind_returned by apply Hquota.
  erewrite bind_returned by apply write_edge_run.
  erewrite bind_returned by apply query_run.
  cbn [db clock_reads random_draws].
  by rewrite upsert_edge_find.
Qed.


Lemma quota_step_frame userDid (mahootNumber : option Z) w1 quota w2 :
  match mahootNumber with
  | Some n => ret n
  | None => calculateDefaultMahootNumber rt userDid
  end w1 = (Returned quota, w2) →
  same_but_preferences (db w1) (db w2)
  ∧ (is_Some mahootNumber → w2 = w1).
Proof.
  destruct mahootNumber as [n|]; intros Hrun.
  - injection Hrun as <- <-. by split.
  - rewrite calculateDefaultMahootNumber_run in Hrun. injection Hrun as <- <-.
    split; [apply db_with_preferences_frame|]. by intros [? ?].
Qed.

(** X10: a quota passed to [addOrUpdateFolloweeRelationship] is stored as it
    is, 0 included, for a new edge and for an existing one.  The row
    returned is the row stored for the (user, followee) key; it carries the
    follow URI given, or the default URI when none or an empty one is
    given, and keeps the [created_at] of an existing edge.  No preferences
    row is read or created and no other edge changes. *)
Theorem addOrUpdateFolloweeRelationship_keeps_given_quota
    userDid followeeDid quota followUri w :
  let now := clock rt (clock_reads w) in
  ∃ row w',
    addOrUpdateFolloweeRelationship rt userDid followeeDid (Some quota) followUri w
      = (Returned row, w')
    ∧ find_relationship userDid followeeDid (db w') = Some row
    ∧ isFollowing userDid followeeDid (db w') = true
    ∧ row = FolloweeRelationship.mk userDid followeeDid quota
              (follow_uri_or_default userDid followeeDid followUri)
              (default now (FolloweeRelationship.created_at
                              <$> find_relationship userDid followeeDid (db w)))
              now
    ∧ user_preferences (db w') = user_preferences (db w)
    ∧ clock_reads w' = S (clock_reads w)
    ∧ (∀ otherUser otherFollowee,
         otherUser ≠ userDid ∨ otherFollowee ≠ followeeDid →
         find_relationship otherUser otherFollowee (db w')
         = find_relationship otherUser otherFollowee (db w)).
Proof.
  intros now.
  destruct (addOrUpdateFolloweeRelationship_run userDid followeeDid (Some quota)
              followUri w) as (q & w2 & Hquota & Hrun).
  injection Hquota as <- <-. cbn [db clock_reads random_draws] in Hrun.
  eexists _, _. split; [exact Hrun|]. cbn [db clock_reads].
  split; [apply upsert_edge_find|].
  split; [unfold isFollowing; rewrite upsert_edge_find; by apply bool_decide_eq_true|].
  split; [done|]. split; [done|]. split; [done|].
  intros otherUser otherFollowee Hother. by apply upsert_edge_find_other.
Qed.

(** X11: without a quota, [addOrUpdateFolloweeRelationship] stores what
    [calculateDefaultMahootNumber] returns before the edge is written: the
    followee count it divides by does not include a new edge, and the first
    followee of a user gets the user's [default_mahoot_number].  The quota
    of an existing edge is overwritten in the same way. *)
Theorem addOrUpdateFolloweeRelationship_default_quota userDid followeeDid followUri w :
  let w1 := mkWorld (db w) (S (clock_reads w)) (random_draws w) in
  let preferences := preferences_in rt userDid w1 in
  let count := followee_count_of userDid (db w) in
  ∃ row w',
    addOrUpdateFolloweeRelationship rt userDid followeeDid None followUri w
      = (Returned row, w')
    ∧ find_relationship userDid followeeDid (db w') = Some row
    ∧ (calculateDefaultMahootNumber rt userDid w1).1
      = Returned (FolloweeRelationship.mahoot_number row)
    ∧ (count = 0 →
       FolloweeRelationship.mahoot_number row
       = UserPreferences.default_mahoot_number preferences)
    ∧ (count ≠ 0 →
       FolloweeRelationship.mahoot_number row
       = Z.min (Z.max 1 (ceil_div (UserPreferences.daily_post_limit preferences) count)) 20)
    ∧ find_user_preferences userDid (db w') = Some preferences.
Proof.
  intros w1 preferences count.
  destruct (addOrUpdateFolloweeRelationship_run userDid followeeDid None
              followUri w) as (q & w2 & Hquota & Hrun).
  fold w1 in Hquota. rewrite calculateDefaultMahootNumber_run in Hquota.
  injection Hquota as <- <-. cbn [db clock_reads random_draws] in Hrun.
  eexists _, _. split; [exact Hrun|]. cbn [db clock_reads].
  split; [apply upsert_edge_find|].
  split; [by rewrite calculateDefaultMahootNumber_run|].
  unfold edge_after. cbn [FolloweeRelationship.mahoot_number]. fold preferences count.
  split; [intros Hcount; by rewrite decide_True|].
  split; [intros Hcount; by rewrite decide_False|].
  apply (find_with_preferences rt userDid w1).
Qed.

Lemma key_of_missing_edge userDid followeeDid d :
  find_relationship userDid followeeDid d = None →
  (userDid, followeeDid)
  ∉ (λ r, (FolloweeRelationship.user_did r, FolloweeRelationship.followee_did r))
      <$> followee_relationships d.
Proof.
  intros Hfind Hin. apply list_elem_of_fmap in Hin as (r & Hkey & Hin).
  injection Hkey as Hu Hf. by eapply (no_first_row _ _ Hfind r Hin).
Qed.

(** X12: [addOrUpdateFolloweeRelationship] keeps the unique constraint of
    the table: a table with one row per (user, followee) has one row per
    (user, followee) afterwards, with one more row, and one more followee
    counted by [getFolloweeCount], when the user did not follow the
    followee, and the same number of rows when they did. *)
Theorem addOrUpdateFolloweeRelationship_keeps_unique_edges
    userDid followeeDid mahootNumber followUri w :
  unique_edges (followee_relationships (db w)) →
  let w' := (addOrUpdateFolloweeRelationship rt userDid followeeDid mahootNumber
               followUri w).2 in
  unique_edges (followee_relationships (db w'))
  ∧ length (followee_relationships (db w'))
    = (if decide (is_Some (find_relationship userDid followeeDid (db w)))
       then length (followee_relationships (db w))
       else S (length (followee_relationships (db w))))
  ∧ getFolloweeCount userDid (db w')
    = getFolloweeCount userDid (db w)
      + (if decide (is_Some (find_relationship userDid followeeDid (db w)))
         then 0 else 1).
Proof.
  intros Hunique w'.
  destruct (addOrUpdateFolloweeRelationship_run userDid followeeDid mahootNumber
              followUri w) as (q & w2 & Hquota & Hrun).
  apply quota_step_frame in Hquota as [(_ & _ & Hedges & _ & _) _].
  cbn [db] in Hedges.
  assert (find_relationship userDid followeeDid (db w2)
          = find_relationship userDid followeeDid (db w)) as Hsame
    by (unfold find_relationship; by rewrite Hedges).
  unfold w'. rewrite Hrun. cbn [snd db followee_relationships set_followee_relationships].
  split.
  - unfold unique_edges. rewrite upsert_edge_keys, Hsame, Hedges.
    destruct (decide _) as [|Hnew]; [done|].
    apply NoDup_app. split; [done|]. split; [|apply NoDup_singleton].
    intros key Hin Hlast. apply list_elem_of_singleton in Hlast as ->.
    eapply key_of_missing_edge; [|exact Hin].
    destruct (find_relationship userDid followeeDid (db w)) eqn:?; [|done].
    by destruct Hnew.
  - split; [by rewrite upsert_edge_length, Hsame, Hedges|].
    rewrite upsert_edge_count, Hsame. f_equal.
    unfold getFolloweeCount, followee_count_of, getUserFollowees. by rewrite Hedges.
Qed.

End Edges.

Lemma removeFolloweeRelationship_run userDid followeeDid w :
  removeFolloweeRelationship userDid followeeDid w
  = (Returned (),
     mkWorld (set_followee_relationships
                (sql_delete (λ r, FolloweeRelationship.user_did r = userDid
                                  ∧ FolloweeRelationship.followee_did r = followeeDid)
                            (followee_relationships (db w))) (db w))
             (clock_reads w) (random_draws w)).
Proof. reflexivity. Qed.

Lemma sql_delete_none {R} (cond : R → Prop) `{∀ r, Decision (cond r)} (table : list R) :
  (∀ r, r ∈ table → ¬ cond r) → sql_delete cond table = table.
Proof.
  intros Hnone. unfold sql_delete. induction table as [|r table IH]; [done|].
  rewrite filter_cons, decide_True by (apply Hnone; left).
  f_equal. apply IH. intros r' Hin. apply Hnone. by right.
Qed.

Lemma set_followee_relationships_same d :
  set_followee_relationships (followee_relationships d) d = d.
Proof. by destruct d. Qed.

Lemma find_relationship_after_delete userDid followeeDid otherUser otherFollowee d :
  find_relationship otherUser otherFollowee
    (set_followee_relationships
       (sql_delete (λ r, FolloweeRelationship.user_did r = userDid
                         ∧ FolloweeRelationship.followee_did r = followeeDid)
                   (followee_relationships d)) d)
  = if decide (otherUser = userDid ∧ otherFollowee = followeeDid) then None
    else find_relationship otherUser otherFollowee d.
Proof.
  unfold find_relationship, sql_delete.
  cbn [followee_relationships set_followee_relationships].
  rewrite list_filter_filter.
  destruct (decide _) as [[-> ->]|Hother].
  - rewrite filter_none; [done|]. intros r _ [? ?]. done.
  - f_equal. apply filter_agree. intros r _. split; [by intros [? _]|].
    intros [<- <-]. split; [done|]. intros [? ?]. by apply Hother.
Qed.

(** X13: [removeFolloweeRelationship] deletes the edge of the (user,
    followee) key and nothing else: afterwards the user does not follow the
    followee and is not among the followee's followers, every other edge is
    found as before, and a second call changes nothing.  On a user who did
    not follow the followee it changes nothing at all. *)
Theorem removeFolloweeRelationship_removes_edge userDid followeeDid w :
  let w' := (removeFolloweeRelationship userDid followeeDid w).2 in
  (removeFolloweeRelationship userDid followeeDid w).1 = Returned ()
  ∧ isFollowing userDid followeeDid (db w') = false
  ∧ ¬ userDid ∈ getFollowers followeeDid (db w')
  ∧ (∀ otherUser otherFollowee,
       otherUser ≠ userDid ∨ otherFollowee ≠ followeeDid →
       find_relationship otherUser otherFollowee (db w')
       = find_relationship otherUser otherFollowee (db w))
  ∧ (removeFolloweeRelationship userDid followeeDid w').2 = w'
  ∧ (find_relationship userDid followeeDid (db w) = None → w' = w).
Proof.
  intros w'. unfold w'. rewrite !removeFolloweeRelationship_run.
  cbn [fst snd db clock_reads random_draws].
  split; [done|]. split.
  { unfold isFollowing. rewrite find_relationship_after_delete, decide_True by done.
    apply bool_decide_eq_false. by intros [? ?]. }
  split.
  { unfold getFollowers, sql_delete.
    cbn [followee_relationships set_followee_relationships].
    intros Hin. apply list_elem_of_fmap in Hin as (r & -> & Hin).
    apply list_elem_of_filter in Hin as [Hf Hin].
    apply list_elem_of_filter in Hin as [Hnot _]. by apply Hnot. }
  split.
  { intros otherUser otherFollowee Hother.
    rewrite find_relationship_after_delete, decide_False; [done|].
    intros [? ?]. destruct Hother; congruence. }
  split.
  { f_equal. cbn [followee_relationships set_followee_relationships].
    rewrite (sql_delete_none _ (sql_delete _ _)).
    - by destruct (db w).
    - intros r Hin. unfold sql_delete in Hin. by apply list_elem_of_filter in Hin as [? _]. }
  intros Hfind. rewrite (sql_delete_none _ _) by (apply (no_first_row _ _ Hfind)).
  rewrite set_followee_relationships_same. by destruct w.
Qed.

Section RoundTrip.
Context (rt : Runtime).

(** X14: following and unfollowing again is a round trip: when the user
    does not follow the followee, [addOrUpdateFolloweeRelationship] followed
    by [removeFolloweeRelationship] leaves the table of edges as it was,
    and with an explicit quota the whole database. *)
Theorem follow_then_unfollow_round_trip userDid followeeDid mahootNumber followUri w :
  find_relationship userDid followeeDid (db w) = None →
  let w1 := (addOrUpdateFolloweeRelationship rt userDid followeeDid mahootNumber
               followUri w).2 in
  let w2 := (removeFolloweeRelationship userDid followeeDid w1).2 in
  isFollowing userDid followeeDid (db w1) = true
  ∧ followee_relationships (db w2) = followee_relationships (db w)
  ∧ (is_Some mahootNumber → db w2 = db w).
Proof.
  intros Hfind w1 w2.
  destruct (addOrUpdateFolloweeRelationship_run rt userDid followeeDid mahootNumber
              followUri w) as (q & w0 & Hquota & Hrun).
  apply quota_step_frame in Hquota as [(_ & _ & Hedges & _ & _) Hexplicit].
  cbn [db] in Hedges.
  assert (find_relationship userDid followeeDid (db w0) = None) as Hfind0
    by (unfold find_relationship in *; by rewrite Hedges).
  unfold w2, w1. rewrite Hrun, removeFolloweeRelationship_run.
  cbn [snd fst db clock_reads random_draws followee_relationships
       set_followee_relationships].
  split.
  { unfold isFollowing. rewrite upsert_edge_find. by apply bool_decide_eq_true. }
  destruct (upsert_edge_cases userDid followeeDid q
              (follow_uri_or_default userDid followeeDid followUri)
              (clock rt (clock_reads w)) (db w0)) as [[_ ->]|[[? Hsome] _]];
    [|congruence].
  assert (sql_delete (λ r, FolloweeRelationship.user_did r = userDid
                           ∧ FolloweeRelationship.followee_did r = followeeDid)
            (followee_relationships (db w0) ++
               [FolloweeRelationship.mk userDid followeeDid q
                  (follow_uri_or_default userDid followeeDid followUri)
                  (clock rt (clock_reads w)) (clock rt (clock_reads w))])
          = followee_relationships (db w0)) as ->.
  { unfold sql_delete. rewrite filter_app, filter_cons, decide_False by (cbn; tauto).
    rewrite filter_nil, app_nil_r. apply (sql_delete_none _ _).
    apply (no_first_row _ _ Hfind0). }
  split; [done|]. intros Hsome. rewrite (Hexplicit Hsome). cbn [db].
  by destruct (db w).
Qed.

End RoundTrip.

(** ** Followee tracking *)

Lemma try_catch_returned {A} (m h : Async A) w a w' :
  m w = (Returned a, w') → try_catch m h w = (Returned a, w').
Proof. intros Hm. unfold try_catch. by rewrite Hm. Qed.

Lemma filter_all {A} (P : A → Prop) `{∀ x, Decision (P x)} (l : list A) :
  (∀ x, x ∈ l → P x) → filter P l = l.
Proof.
  intros Hall. induction l as [|x l IH]; [done|].
  rewrite filter_cons, decide_True by (apply Hall; left).
  f_equal. apply IH. intros y Hy. apply Hall. by right.
Qed.

Lemma NoDup_fmap_filter {A B} (f : A → B) (P : A → Prop) `{∀ x, Decision (P x)}
    (l : list A) :
  NoDup (f <$> l) → NoDup (f <$> filter P l).
Proof.
  induction l as [|x l IH]; [done|]. rewrite fmap_cons, NoDup_cons.
  intros [Hx Hl]. rewrite filter_cons. destruct (decide (P x)); [|by apply IH].
  rewrite fmap_cons, NoDup_cons. split; [|by apply IH].
  intros Hin. apply Hx. apply list_elem_of_fmap in Hin as (y & -> & Hy).
  apply list_elem_of_filter in Hy as [_ Hy]. by apply list_elem_of_fmap_2.
Qed.

Lemma NoDup_fmap_eq {A B} (f : A → B) (l : list A) x y :
  NoDup (f <$> l) → x ∈ l → y ∈ l → f x = f y → x = y.
Proof.
  induction l as [|a l IH]; [by intros _ Hx; apply elem_of_nil in Hx|].
  rewrite fmap_cons, NoDup_cons. intros [Ha Hl] Hx Hy Heq.
  apply elem_of_cons in Hx as [->|Hx]; apply elem_of_cons in Hy as [->|Hy].
  - done.
  - destruct Ha. rewrite Heq. by apply list_elem_of_fmap_2.
  - destruct Ha. rewrite <- Heq. by apply list_elem_of_fmap_2.
  - by apply IH.
Qed.

Lemma isFollowing_keys followerDid followeeDid d :
  isFollowing followerDid followeeDid d = true
  ↔ (followerDid, followeeDid)
    ∈ (λ r, (FolloweeRelationship.user_did r, FolloweeRelationship.followee_did r))
        <$> followee_relationships d.
Proof.
  unfold isFollowing. rewrite bool_decide_eq_true. split.
  - intros [edge Hfind]. apply find_relationship_matches in Hfind as (Hin & <- & <-).
    by apply (list_elem_of_fmap_2 (λ r, (FolloweeRelationship.user_did r,
                                    FolloweeRelationship.followee_did r))).
  - intros Hin. destruct (find_relationship followerDid followeeDid d) eqn:Hfind; [done|].
    by apply key_of_missing_edge in Hfind.
Qed.

Lemma sql_update_keys cond `{∀ r, Decision (cond r)} set
    (table : list FolloweeRelationship.t) :
  let key r := (FolloweeRelationship.user_did r, FolloweeRelationship.followee_did r) in
  (∀ r, key (set r) = key r) →
  key <$> sql_update cond set table = key <$> table.
Proof.
  intros key Hset. unfold sql_update. rewrite <- list_fmap_compose.
  apply list_fmap_ext. intros i r _. cbn. destruct (decide _); [apply Hset|done].
Qed.

Lemma uniform_quota_subset userDid d d' :
  (∀ edge, edge ∈ getUserFollowees userDid d' → edge ∈ getUserFollowees userDid d) →
  uniform_quota userDid d → uniform_quota userDid d'.
Proof.
  intros Hsub (quota & Hrange & Hall). exists quota. split; [done|].
  apply Forall_forall. intros edge Hin. rewrite Forall_forall in Hall.
  by apply Hall, Hsub.
Qed.

Section Tracking.
Context (rt : Runtime).

Lemma updateMahootNumbersForUser_run userDid w :
  let count := followee_count_of userDid (db w) in
  let quota :=
    Z.min (Z.max 1 (ceil_div (UserPreferences.daily_post_limit
                                (preferences_in rt userDid w)) count)) 20 in
  updateMahootNumbersForUser rt userDid w
  = (Returned (),
     if decide (count = 0) then w
     else
       mkWorld
         (set_followee_relationships
            (sql_update (λ r, FolloweeRelationship.user_did r = userDid)
               (λ r, FolloweeRelationship.mk (FolloweeRelationship.user_did r)
                       (FolloweeRelationship.followee_did r) quota
                       (FolloweeRelationship.follow_uri r)
                       (FolloweeRelationship.created_at r)
                       (clock rt (S (clock_reads w))))
               (followee_relationships (db w)))
            (db_with_preferences rt userDid w))
         (S (S (clock_reads w))) (random_draws w)).
Proof.
  intros count quota. unfold updateMahootNumbersForUser.
  apply try_catch_returned.
  erewrite bind_returned by apply query_run. fold count.
  destruct (decide (count = 0)) as [Hcount|Hcount]; [done|].
  erewrite bind_returned by apply calculateDefaultMahootNumber_run.
  erewrite bind_returned by apply new_Date_run.
  rewrite execute_run. cbn [db clock_reads random_draws].
  fold count. rewrite decide_False by done.
  destruct (db_with_preferences_frame rt userDid w) as [(_ & _ & -> & _ & _) _].
  done.
Qed.

Lemma getUserFollowees_sql_update_same userDid set table d :
  (∀ r, FolloweeRelationship.user_did (set r) = FolloweeRelationship.user_did r) →
  getUserFollowees userDid
    (set_followee_relationships
       (sql_update (λ r, FolloweeRelationship.user_did r = userDid) set table) d)
  = set <$> filter (λ r, FolloweeRelationship.user_did r = userDid) table.
Proof.
  intros Hset. unfold getUserFollowees.
  cbn [followee_relationships set_followee_relationships].
  apply filter_sql_update. intros r. by rewrite Hset.
Qed.

Lemma getUserFollowees_sql_update_other userDid otherDid set table d :
  otherDid ≠ userDid →
  (∀ r, FolloweeRelationship.user_did (set r) = FolloweeRelationship.user_did r) →
  getUserFollowees otherDid
    (set_followee_relationships
       (sql_update (λ r, FolloweeRelationship.user_did r = userDid) set table) d)
  = filter (λ r, FolloweeRelationship.user_did r = otherDid) table.
Proof.
  intros Hother Hset. unfold getUserFollowees.
  cbn [followee_relationships set_followee_relationships].
  apply filter_sql_update_other. intros r Hr. rewrite Hset. split; congruence.
Qed.

Lemma updateMahootNumbersForUser_effect userDid w :
  ∃ w',
    updateMahootNumbersForUser rt userDid w = (Returned (), w')
    ∧ same_posts_and_statistics (db w) (db w')
    ∧ (∀ u, uniform_quota u (db w) → uniform_quota u (db w'))
    ∧ (followee_count_of userDid (db w) ≠ 0 → uniform_quota userDid (db w'))
    ∧ (∀ a b, isFollowing a b (db w') = isFollowing a b (db w)).
Proof.
  rewrite updateMahootNumbersForUser_run. eexists. split; [reflexivity|].
  destruct (decide (followee_count_of userDid (db w) = 0)) as [Hcount|Hcount].
  { split; [done|]. split; [done|]. split; [done|]. done. }
  cbn [db].
  destruct (db_with_preferences_frame rt userDid w) as [(Hp & Hs & He & Hv & Hd) _].
  split; [done|].
  set (quota := Z.min (Z.max 1 (ceil_div _ _)) 20).
  assert (uniform_quota userDid
            (set_followee_relationships
               (sql_update (λ r, FolloweeRelationship.user_did r = userDid)
                  (λ r, FolloweeRelationship.mk (FolloweeRelationship.user_did r)
                          (FolloweeRelationship.followee_did r) quota
                          (FolloweeRelationship.follow_uri r)
                          (FolloweeRelationship.created_at r)
                          (clock rt (S (clock_reads w))))
                  (followee_relationships (db w)))
               (db_with_preferences rt userDid w))) as Huniform.
  { exists quota. split; [unfold quota; lia|].
    rewrite getUserFollowees_sql_update_same by done.
    apply Forall_fmap, Forall_forall. by intros edge _. }
  split; [|split; [done|]].
  - intros u Hu. destruct (decide (u = userDid)) as [->|Hother]; [done|].
    destruct Hu as (q & Hrange & Hall). exists q. split; [done|].
    by rewrite getUserFollowees_sql_update_other.
  - intros a b. apply eq_true_iff_eq. rewrite !isFollowing_keys.
    cbn [followee_relationships set_followee_relationships].
    by rewrite (sql_update_keys _ _ _).
Qed.

(** X25: when the user has followees, [updateMahootNumbersForUser]
    overwrites the quota of every edge of the user, muted and custom ones
    included, with the one number [min(max(1, ceil(L / N)), 20)]; the
    followees stay the same and the edges of other users are untouched.
    For a user without followees it does nothing at all.  It never throws. *)
Theorem updateMahootNumbersForUser_overwrites_every_quota userDid w :
  let count := followee_count_of userDid (db w) in
  let dailyPostLimit := UserPreferences.daily_post_limit (preferences_in rt userDid w) in
  let quota := Z.min (Z.max 1 (ceil_div dailyPostLimit count)) 20 in
  let w' := (updateMahootNumbersForUser rt userDid w).2 in
  (updateMahootNumbersForUser rt userDid w).1 = Returned ()
  ∧ (count = 0 → w' = w)
  ∧ (count ≠ 0 →
     1 ≤ quota ≤ 20
     ∧ Forall (λ edge, FolloweeRelationship.mahoot_number edge = quota)
              (getUserFollowees userDid (db w'))
     ∧ FolloweeRelationship.followee_did <$> getUserFollowees userDid (db w')
       = FolloweeRelationship.followee_did <$> getUserFollowees userDid (db w))
  ∧ (∀ otherDid, otherDid ≠ userDid →
       getUserFollowees otherDid (db w') = getUserFollowees otherDid (db w)).
Proof.
  intros count dailyPostLimit quota w'. unfold w'.
  rewrite updateMahootNumbersForUser_run. cbn [fst snd]. fold count dailyPostLimit quota.
  split; [done|]. split; [intros Hcount; by rewrite decide_True|]. split.
  - intros Hcount. rewrite decide_False by done. cbn [db].
    split; [unfold quota; lia|].
    rewrite getUserFollowees_sql_update_same by done.
    fold (getUserFollowees userDid (db w)). split.
    + apply Forall_fmap, Forall_forall. by intros edge _.
    + rewrite <- list_fmap_compose. by apply list_fmap_ext.
  - intros otherDid Hother. destruct (decide (count = 0)); [done|]. cbn [db].
    by rewrite getUserFollowees_sql_update_other.
Qed.


Lemma find_relationship_same_edges a b d d' :
  followee_relationships d' = followee_relationships d →
  find_relationship a b d' = find_relationship a b d.
Proof. intros Hsame. unfold find_relationship. by rewrite Hsame. Qed.

Lemma addOrUpdateFolloweeRelationship_effect userDid followeeDid mahootNumber followUri w :
  ∃ row w',
    addOrUpdateFolloweeRelationship rt userDid followeeDid mahootNumber followUri w
      = (Returned row, w')
    ∧ isFollowing userDid followeeDid (db w') = true
    ∧ (∀ a b, isFollowing a b (db w) = true → isFollowing a b (db w') = true)
    ∧ same_posts_and_statistics (db w) (db w').
Proof.
  destruct (addOrUpdateFolloweeRelationship_run rt userDid followeeDid mahootNumber
              followUri w) as (q & w2 & Hquota & Hrun).
  apply quota_step_frame in Hquota as [(Hp & Hs & He & Hv & Hd) _].
  cbn [db] in *.
  eexists _, _. split; [exact Hrun|]. cbn [db].
  split; [unfold isFollowing; rewrite upsert_edge_find; by apply bool_decide_eq_true|].
  split; [|done].
  intros a b. unfold isFollowing. rewrite !bool_decide_eq_true.
  rewrite <- (find_relationship_same_edges a b (db w) (db w2) He).
  destruct (decide (a = userDid ∧ b = followeeDid)) as [[-> ->]|Hother].
  - intros _. by rewrite upsert_edge_find.
  - rewrite upsert_edge_find_other; [done|].
    destruct (decide (a = userDid)); [right|left]; [|done]. intros ->. by apply Hother.
Qed.

Lemma same_posts_and_statistics_trans d1 d2 d3 :
  same_posts_and_statistics d1 d2 → same_posts_and_statistics d2 d3 →
  same_posts_and_statistics d1 d3.
Proof. unfold same_posts_and_statistics. intros (?&?&?&?) (?&?&?&?). by repeat split; congruence. Qed.

Lemma processFollowEvents_spec followEvents w :
  ∃ w',
    processFollowEvents rt followEvents w = (Returned (), w')
    ∧ Forall (λ event, isFollowing (FollowEvent.author event)
                         (FollowRecord.subject (FollowEvent.record event)) (db w') = true)
             followEvents
    ∧ (∀ a b, isFollowing a b (db w) = true → isFollowing a b (db w') = true)
    ∧ same_posts_and_statistics (db w) (db w').
Proof.
  revert w. induction followEvents as [|event rest IH]; intros w.
  { exists w. by repeat split. }
  destruct (addOrUpdateFolloweeRelationship_effect (FollowEvent.author event)
              (FollowRecord.subject (FollowEvent.record event)) None
              (Some (FollowEvent.uri event)) w) as (row & w1 & Hrun & Hnew & Hkeep & Hframe).
  destruct (IH w1) as (w' & Hrest & Hall & Hkeep' & Hframe').
  exists w'. cbn [processFollowEvents].
  erewrite bind_returned;
    [|apply try_catch_returned; erewrite bind_returned by exact Hrun; reflexivity].
  split; [exact Hrest|]. split; [|split].
  - constructor; [by apply Hkeep'|done].
  - intros a b Hab. by apply Hkeep', Hkeep.
  - by eapply same_posts_and_statistics_trans.
Qed.

(** X26: [processFollowEvents] never throws, and after it every follow
    event of the list is an edge: the author follows the subject.  Edges
    that existed before are still there, and the posts, the ViewRecords and
    the DailyStat rows are untouched. *)
Theorem processFollowEvents_adds_every_edge followEvents w :
  let w' := (processFollowEvents rt followEvents w).2 in
  (processFollowEvents rt followEvents w).1 = Returned ()
  ∧ Forall (λ event, isFollowing (FollowEvent.author event)
                       (FollowRecord.subject (FollowEvent.record event)) (db w') = true)
           followEvents
  ∧ (∀ a b, isFollowing a b (db w) = true → isFollowing a b (db w') = true)
  ∧ same_posts_and_statistics (db w) (db w').
Proof.
  intros w'. unfold w'.
  destruct (processFollowEvents_spec followEvents w) as (w1 & -> & ?). done.
Qed.

End Tracking.

(** ** Unfollow events *)

Lemma find_by_follow_uri_matches uri d edge :
  find_by_follow_uri uri d = Some edge →
  edge ∈ followee_relationships d ∧ FolloweeRelationship.follow_uri edge = uri.
Proof.
  unfold find_by_follow_uri. intros Hhead. apply head_Some in Hhead as [rest Hrows].
  assert (edge ∈ filter (λ r, FolloweeRelationship.follow_uri r = uri)
                        (followee_relationships d)) as Hin by (rewrite Hrows; left).
  apply list_elem_of_filter in Hin as [? ?]. done.
Qed.

Lemma set_followee_relationships_twice t t' d :
  set_followee_relationships t (set_followee_relationships t' d)
  = set_followee_relationships t d.
Proof. done. Qed.

Lemma processUnfollowEvents_step event rest w :
  processUnfollowEvents (event :: rest) w
  = processUnfollowEvents rest
      (match find_by_follow_uri (UnfollowEvent.uri event) (db w) with
       | Some relationship =>
           mkWorld (set_followee_relationships
                      (sql_delete
                         (λ r, FolloweeRelationship.user_did r
                               = FolloweeRelationship.user_did relationship
                               ∧ FolloweeRelationship.followee_did r
                                 = FolloweeRelationship.followee_did relationship)
                         (followee_relationships (db w))) (db w))
                   (clock_reads w) (random_draws w)
       | None => w
       end).
Proof.
  cbn [processUnfollowEvents]. erewrite bind_returned; [reflexivity|].
  apply try_catch_returned. erewrite bind_returned by apply query_run.
  by destruct (find_by_follow_uri _ _).
Qed.

Lemma processUnfollowEvents_run unfollowEvents w :
  unique_edges (followee_relationships (db w)) →
  unique_follow_uris (followee_relationships (db w)) →
  processUnfollowEvents unfollowEvents w
  = (Returned (),
     mkWorld (set_followee_relationships
                (filter (λ r, FolloweeRelationship.follow_uri r
                              ∉ UnfollowEvent.uri <$> unfollowEvents)
                        (followee_relationships (db w))) (db w))
             (clock_reads w) (random_draws w)).
Proof.
  revert w. induction unfollowEvents as [|event rest IH]; intros w Hedges Huris.
  { cbn [processUnfollowEvents]. rewrite filter_all.
    - rewrite set_followee_relationships_same. by destruct w.
    - intros r _. apply not_elem_of_nil. }
  rewrite processUnfollowEvents_step.
  assert (filter (λ r, FolloweeRelationship.follow_uri r
                       ∉ UnfollowEvent.uri <$> event :: rest)
                 (followee_relationships (db w))
          = filter (λ r, FolloweeRelationship.follow_uri r ∉ UnfollowEvent.uri <$> rest)
              (filter (λ r, FolloweeRelationship.follow_uri r ≠ UnfollowEvent.uri event)
                 (followee_relationships (db w)))) as ->.
  { rewrite list_filter_filter. apply filter_agree. intros r _.
    rewrite fmap_cons, not_elem_of_cons. tauto. }
  destruct (find_by_follow_uri (UnfollowEvent.uri event) (db w)) as [edge|] eqn:Hfind.
  - apply find_by_follow_uri_matches in Hfind as [Hin Huri].
    assert (sql_delete
              (λ r, FolloweeRelationship.user_did r = FolloweeRelationship.user_did edge
                    ∧ FolloweeRelationship.followee_did r
                      = FolloweeRelationship.followee_did edge)
              (followee_relationships (db w))
            = filter (λ r, FolloweeRelationship.follow_uri r ≠ UnfollowEvent.uri event)
                (followee_relationships (db w))) as ->.
    { unfold sql_delete. apply filter_agree. intros r Hr. split.
      - intros Hkey Hsame. apply Hkey.
        assert (r = edge) as ->; [|done].
        eapply (NoDup_fmap_eq FolloweeRelationship.follow_uri); [exact Huris|done..|].
        congruence.
      - intros Hdiff [Hu Hf]. apply Hdiff.
        assert (r = edge) as ->; [|done].
        eapply (NoDup_fmap_eq (λ r, (FolloweeRelationship.user_did r,
                                     FolloweeRelationship.followee_did r)));
          [exact Hedges|done..|]. cbn. congruence. }
    rewrite IH; cbn [db clock_reads random_draws followee_relationships
                     set_followee_relationships].
    + done.
    + by apply NoDup_fmap_filter.
    + by apply NoDup_fmap_filter.
  - rewrite IH by done. do 3 f_equal.
    rewrite (filter_all (λ r, FolloweeRelationship.follow_uri r ≠ UnfollowEvent.uri event));
      [done|].
    intros r Hr Huri. eapply (no_first_row _ _ Hfind r Hr). done.
Qed.


Lemma processUnfollowEvents_spec unfollowEvents w :
  ∃ w',
    processUnfollowEvents unfollowEvents w = (Returned (), w')
    ∧ same_posts_and_statistics (db w) (db w')
    ∧ user_preferences (db w') = user_preferences (db w)
    ∧ (∀ r, r ∈ followee_relationships (db w') → r ∈ followee_relationships (db w)).
Proof.
  revert w. induction unfollowEvents as [|event rest IH]; intros w.
  { exists w. by repeat split. }
  rewrite processUnfollowEvents_step.
  destruct (find_by_follow_uri (UnfollowEvent.uri event) (db w)) as [edge|]; [|apply IH].
  match goal with |- context [processUnfollowEvents rest ?w1] =>
    destruct (IH w1) as (w' & Hrun & (?&?&?&?) & Hprefs & Hsub) end.
  cbn [db] in *. exists w'. split; [done|]. split; [done|]. split; [done|].
  intros r Hr. apply Hsub in Hr. cbn [followee_relationships set_followee_relationships] in Hr.
  unfold sql_delete in Hr. by apply list_elem_of_filter in Hr as [_ ?].
Qed.

Lemma uniform_quota_fewer_edges userDid d d' :
  (∀ r, r ∈ followee_relationships d' → r ∈ followee_relationships d) →
  uniform_quota userDid d → uniform_quota userDid d'.
Proof.
  intros Hsub. apply uniform_quota_subset. intros edge Hin.
  unfold getUserFollowees in *. apply list_elem_of_filter in Hin as [? ?].
  apply list_elem_of_filter. split; [done|]. by apply Hsub.
Qed.

Lemma isFollowing_followee_count a b d :
  isFollowing a b d = true → followee_count_of a d ≠ 0.
Proof.
  unfold isFollowing. rewrite bool_decide_eq_true. intros [edge Hfind].
  apply find_relationship_matches in Hfind as (Hin & Hu & _).
  unfold followee_count_of, getUserFollowees.
  assert (edge ∈ filter (λ r, FolloweeRelationship.user_did r = a)
                        (followee_relationships d)) as Hedge
    by (by apply list_elem_of_filter).
  destruct (filter _ _); [by apply elem_of_nil in Hedge|]. cbn. lia.
Qed.

Lemma sql_insert_do_nothing_cases {R} (conflict : R → R → Prop)
    `{∀ a b, Decision (conflict a b)} (row : R) (table : list R) :
  (Exists (conflict row) table ∧ sql_insert_do_nothing conflict row table = table)
  ∨ (¬ Exists (conflict row) table
     ∧ sql_insert_do_nothing conflict row table = table ++ [row]).
Proof.
  unfold sql_insert_do_nothing, sql_insert.
  destruct (decide (Exists (conflict row) table)); [by left|by right].
Qed.

Lemma sql_insert_all_do_nothing_extends {R} (conflict : R → R → Prop)
    `{∀ a b, Decision (conflict a b)} (rows table : list R) :
  ∃ added,
    sql_insert_all_do_nothing conflict rows table = table ++ added
    ∧ ∀ r, r ∈ added → r ∈ rows.
Proof.
  revert table. induction rows as [|row rows IH]; intros table.
  { exists []. split; [by rewrite app_nil_r|done]. }
  unfold sql_insert_all_do_nothing. cbn [foldl].
  fold (sql_insert_all_do_nothing conflict rows
          (sql_insert_do_nothing conflict row table)).
  destruct (IH (sql_insert_do_nothing conflict row table)) as (added & -> & Hadded).
  destruct (sql_insert_do_nothing_cases conflict row table) as [[_ ->]|[_ ->]].
  - exists added. split; [done|]. intros r Hr. right. by apply Hadded.
  - exists (row :: added). split; [by rewrite <- app_assoc|].
    intros r Hr. apply elem_of_cons in Hr as [->|Hr]; [left|right; by apply Hadded].
Qed.

Lemma post_insert_all_uris (rows table : list Post.t) row :
  row ∈ rows →
  Post.uri row ∈ Post.uri <$> sql_insert_all_do_nothing post_conflict rows table.
Proof.
  revert table. induction rows as [|first rows IH]; intros table Hrow.
  { by apply elem_of_nil in Hrow. }
  unfold sql_insert_all_do_nothing. cbn [foldl].
  fold (sql_insert_all_do_nothing post_conflict rows
          (sql_insert_do_nothing post_conflict first table)).
  apply elem_of_cons in Hrow as [->|Hrow]; [|by apply IH].
  destruct (sql_insert_all_do_nothing_extends post_conflict rows
              (sql_insert_do_nothing post_conflict first table)) as (added & -> & _).
  rewrite fmap_app. apply elem_of_app. left.
  destruct (sql_insert_do_nothing_cases post_conflict first table)
    as [[Hconflict ->]|[_ ->]].
  - apply Exists_exists in Hconflict as (p & Hp & Huri). unfold post_conflict in Huri.
    rewrite Huri. by apply list_elem_of_fmap_2.
  - rewrite fmap_app. apply elem_of_app. right. cbn. left.
Qed.

Lemma post_insert_all_unique (rows table : list Post.t) :
  unique_posts table →
  unique_posts (sql_insert_all_do_nothing post_conflict rows table).
Proof.
  revert table. induction rows as [|first rows IH]; intros table Hunique; [done|].
  unfold sql_insert_all_do_nothing. cbn [foldl].
  fold (sql_insert_all_do_nothing post_conflict rows
          (sql_insert_do_nothing post_conflict first table)).
  apply IH.
  destruct (sql_insert_do_nothing_cases post_conflict first table)
    as [[_ ->]|[Hfresh ->]]; [done|].
  unfold unique_posts. rewrite fmap_app. apply NoDup_app.
  split; [done|]. split; [|apply NoDup_singleton].
  intros uri Hin Hlast. apply list_elem_of_singleton in Hlast as ->.
  apply Hfresh. apply list_elem_of_fmap in Hin as (p & Huri & Hp).
  apply Exists_exists. by exists p.
Qed.

Section Subscription.
Context (rt : Runtime).

Lemma update_followers_spec followEvents w :
  ∃ w',
    update_followers rt followEvents w = (Returned (), w')
    ∧ same_posts_and_statistics (db w) (db w')
    ∧ (∀ u, uniform_quota u (db w) → uniform_quota u (db w'))
    ∧ (∀ a b, isFollowing a b (db w') = isFollowing a b (db w))
    ∧ Forall (λ event,
        isFollowing (FollowEvent.author event)
          (FollowRecord.subject (FollowEvent.record event)) (db w) = true →
        uniform_quota (FollowEvent.author event) (db w')) followEvents.
Proof.
  revert w. induction followEvents as [|event rest IH]; intros w.
  { exists w. by repeat split. }
  destruct (updateMahootNumbersForUser_effect rt (FollowEvent.author event) w)
    as (w1 & Hrun & Hframe & Hkeep & Hnew & Hsame).
  destruct (IH w1) as (w' & Hrest & Hframe' & Hkeep' & Hsame' & Hall).
  exists w'. cbn [update_followers]. erewrite bind_returned by exact Hrun.
  split; [exact Hrest|]. split; [by eapply same_posts_and_statistics_trans|].
  split; [intros u Hu; by apply Hkeep', Hkeep|].
  split; [intros a b; by rewrite Hsame', Hsame|].
  constructor.
  - intros Hfollows. apply Hkeep', Hnew. by eapply isFollowing_followee_count.
  - eapply Forall_impl; [exact Hall|]. cbn. intros e He Hfollows. apply He.
    by rewrite Hsame.
Qed.

Lemma update_unfollowers_spec unfollowEvents w :
  ∃ w',
    update_unfollowers rt unfollowEvents w = (Returned (), w')
    ∧ same_posts_and_statistics (db w) (db w')
    ∧ (∀ u, uniform_quota u (db w) → uniform_quota u (db w'))
    ∧ (∀ a b, isFollowing a b (db w') = isFollowing a b (db w)).
Proof.
  revert w. induction unfollowEvents as [|event rest IH]; intros w.
  { exists w. by repeat split. }
  cbn [update_unfollowers]. erewrite bind_returned by apply query_run.
  destruct (find_by_follow_uri (UnfollowEvent.uri event) (db w)) as [row|].
  - destruct (updateMahootNumbersForUser_effect rt (FolloweeRelationship.user_did row) w)
      as (w1 & Hrun & Hframe & Hkeep & _ & Hsame).
    destruct (IH w1) as (w' & Hrest & Hframe' & Hkeep' & Hsame').
    exists w'. erewrite bind_returned by exact Hrun.
    split; [exact Hrest|]. split; [by eapply same_posts_and_statistics_trans|].
    split; [intros u Hu; by apply Hkeep', Hkeep|].
    intros a b. by rewrite Hsame', Hsame.
  - erewrite bind_returned by reflexivity. apply IH.
Qed.

Lemma update_unfollowers_nothing unfollowEvents w :
  (∀ event, event ∈ unfollowEvents →
            find_by_follow_uri (UnfollowEvent.uri event) (db w) = None) →
  update_unfollowers rt unfollowEvents w = (Returned (), w).
Proof.
  induction unfollowEvents as [|event rest IH]; intros Hnone; [done|].
  cbn [update_unfollowers]. erewrite bind_returned by apply query_run.
  rewrite (Hnone event) by left. erewrite bind_returned by reflexivity.
  apply IH. intros e He. apply Hnone. by right.
Qed.

Lemma posts_to_create_run postCreates w :
  posts_to_create rt postCreates w
  = (Returned (created_posts rt postCreates (clock_reads w)),
     mkWorld (db w) (clock_reads w + length postCreates) (random_draws w)).
Proof.
  revert w. induction postCreates as [|create rest IH]; intros w.
  { cbn. rewrite Nat.add_0_r. by destruct w. }
  cbn [posts_to_create created_posts length].
  erewrite bind_returned by apply new_Date_run.
  erewrite bind_returned by apply IH.
  cbn [db clock_reads random_draws]. unfold ret. do 2 f_equal. lia.
Qed.

Lemma created_posts_length postCreates n :
  length (created_posts rt postCreates n) = length postCreates.
Proof.
  revert n. induction postCreates as [|create rest IH]; intros n; [done|].
  cbn. by rewrite IH.
Qed.

Lemma created_posts_uris postCreates n :
  Post.uri <$> created_posts rt postCreates n = PostCreate.uri <$> postCreates.
Proof.
  revert n. induction postCreates as [|create rest IH]; intros n; [done|].
  cbn. by rewrite IH.
Qed.

Lemma set_post_same d : set_post (post d) d = d.
Proof. by destruct d. Qed.

Lemma handleEvent_run ops w w1 w2 :
  (if decide (0 < length (creates (follows ops)))%nat
   then processFollowEvents rt (creates (follows ops)) ;;;
        update_followers rt (creates (follows ops))
   else ret ()) w = (Returned (), w1) →
  (if decide (0 < length (deletes (follows ops)))%nat
   then processUnfollowEvents (deletes (follows ops)) ;;;
        update_unfollowers rt (deletes (follows ops))
   else ret ()) w1 = (Returned (), w2) →
  handleEvent rt ops w
  = (Returned (),
     mkWorld
       (set_post
          (sql_insert_all_do_nothing post_conflict
             (created_posts rt (creates (posts ops)) (clock_reads w2))
             (sql_delete (λ p, Post.uri p ∈ PostDelete.uri <$> deletes (posts ops))
                         (post (db w2))))
          (db w2))
       (clock_reads w2 + length (creates (posts ops))) (random_draws w2)).
Proof.
  intros Hfollow Hunfollow. unfold handleEvent.
  erewrite bind_returned by exact Hfollow.
  erewrite bind_returned by exact Hunfollow.
  erewrite bind_returned by apply posts_to_create_run.
  assert (∀ (rows : list Post.t) d,
            (if decide (0 < length rows)%nat
             then execute (λ d, set_post (sql_insert_all_do_nothing post_conflict rows
                                            (post d)) d)
             else ret ()) d
            = (Returned (),
               mkWorld (set_post (sql_insert_all_do_nothing post_conflict rows
                                    (post (db d))) (db d))
                       (clock_reads d) (random_draws d))) as Hinsert.
  { intros rows d. destruct (decide (0 < length rows)%nat) as [|Hempty]; [reflexivity|].
    destruct rows; [|cbn in Hempty; lia]. cbn. rewrite set_post_same. by destruct d. }
  destruct (decide (0 < length (PostDelete.uri <$> deletes (posts ops)))%nat)
    as [|Hempty].
  - erewrite bind_returned by apply execute_run. by rewrite Hinsert.
  - erewrite bind_returned by reflexivity. rewrite Hinsert.
    cbn [db clock_reads random_draws].
    rewrite (sql_delete_none (λ p, Post.uri p ∈ PostDelete.uri <$> deletes (posts ops)));
      [done|].
    destruct (PostDelete.uri <$> deletes (posts ops)); [|cbn in Hempty; lia].
    intros p _. apply not_elem_of_nil.
Qed.

Lemma follows_created_spec followEvents w :
  ∃ w',
    (if decide (0 < length followEvents)%nat
     then processFollowEvents rt followEvents ;;; update_followers rt followEvents
     else ret ()) w = (Returned (), w')
    ∧ same_posts_and_statistics (db w) (db w')
    ∧ Forall (λ event,
        isFollowing (FollowEvent.author event)
          (FollowRecord.subject (FollowEvent.record event)) (db w') = true
        ∧ uniform_quota (FollowEvent.author event) (db w')) followEvents
    ∧ (followEvents = [] → w' = w).
Proof.
  destruct (decide _) as [|Hempty].
  - destruct (processFollowEvents_spec rt followEvents w)
      as (w1 & Hrun & Hall & _ & Hframe).
    destruct (update_followers_spec followEvents w1)
      as (w' & Hrun' & Hframe' & _ & Hsame & Huniform).
    exists w'. erewrite bind_returned by exact Hrun.
    split; [exact Hrun'|]. split; [by eapply same_posts_and_statistics_trans|].
    split; [|intros ->; cbn in *; lia].
    rewrite Forall_forall in Hall, Huniform. apply Forall_forall. intros e He.
    split; [rewrite Hsame; by apply Hall|]. apply Huniform; [done|]. by apply Hall.
  - destruct followEvents; [|cbn in Hempty; lia]. exists w. by repeat split.
Qed.

Lemma follows_deleted_spec unfollowEvents w :
  ∃ w',
    (if decide (0 < length unfollowEvents)%nat
     then processUnfollowEvents unfollowEvents ;;; update_unfollowers rt unfollowEvents
     else ret ()) w = (Returned (), w')
    ∧ same_posts_and_statistics (db w) (db w')
    ∧ (∀ u, uniform_quota u (db w) → uniform_quota u (db w'))
    ∧ (unfollowEvents = [] → w' = w).
Proof.
  destruct (decide _) as [|Hempty].
  - destruct (processUnfollowEvents_spec unfollowEvents w)
      as (w1 & Hrun & Hframe & _ & Hsub).
    destruct (update_unfollowers_spec unfollowEvents w1)
      as (w' & Hrun' & Hframe' & Hkeep & _).
    exists w'. erewrite bind_returned by exact Hrun.
    split; [exact Hrun'|]. split; [by eapply same_posts_and_statistics_trans|].
    split; [|intros ->; cbn in *; lia].
    intros u Hu. apply Hkeep. by eapply uniform_quota_fewer_edges.
  - destruct unfollowEvents; [|cbn in Hempty; lia]. exists w. by repeat split.
Qed.

(** X27: after [handleEvent] has processed a commit, every user who
    followed someone in it has one and the same quota, a number of
    [[1, 20]], on all their edges: the custom quotas and the mutes the user
    had set are overwritten.  When the commit deletes no follow, the new
    edge is there. *)
Theorem handleEvent_follow_resets_quotas ops w event :
  event ∈ creates (follows ops) →
  let w' := (handleEvent rt ops w).2 in
  uniform_quota (FollowEvent.author event) (db w')
  ∧ (deletes (follows ops) = [] →
     isFollowing (FollowEvent.author event)
       (FollowRecord.subject (FollowEvent.record event)) (db w') = true).
Proof.
  intros Hevent w'.
  destruct (follows_created_spec (creates (follows ops)) w)
    as (w1 & Hfollow & Hframe1 & Hall & _).
  destruct (follows_deleted_spec (deletes (follows ops)) w1)
    as (w2 & Hunfollow & Hframe2 & Hkeep & Hnone).
  unfold w'. rewrite (handleEvent_run ops w w1 w2 Hfollow Hunfollow). cbn [snd db].
  rewrite Forall_forall in Hall. destruct (Hall event Hevent) as [Hfollows Huniform].
  split.
  - apply Hkeep in Huniform. destruct Huniform as (q & Hq & Hedges). by exists q.
  - intros Hdeletes. rewrite (Hnone Hdeletes). exact Hfollows.
Qed.


(** X28: [handleEvent] recalculates no quota after an unfollow.  On a
    table with one row per (user, followee) and per follow URI, a commit
    that creates no follow only deletes the edges whose follow URI it
    names: every other edge keeps its quota, and no preferences row is
    read or created.  (The lookup by follow URI that should find the user
    to recalculate for runs after the edge is deleted.) *)
Theorem handleEvent_unfollow_keeps_quotas ops w :
  creates (follows ops) = [] →
  unique_edges (followee_relationships (db w)) →
  unique_follow_uris (followee_relationships (db w)) →
  let w' := (handleEvent rt ops w).2 in
  followee_relationships (db w')
  = filter (λ r, FolloweeRelationship.follow_uri r
                 ∉ UnfollowEvent.uri <$> deletes (follows ops))
           (followee_relationships (db w))
  ∧ user_preferences (db w') = user_preferences (db w).
Proof.
  intros Hcreates Hedges Huris w'.
  destruct (follows_created_spec (creates (follows ops)) w)
    as (w1 & Hfollow & _ & _ & Hsame).
  rewrite (Hsame Hcreates) in Hfollow. clear w1 Hsame.
  set (w2 := mkWorld
               (set_followee_relationships
                  (filter (λ r, FolloweeRelationship.follow_uri r
                                ∉ UnfollowEvent.uri <$> deletes (follows ops))
                          (followee_relationships (db w))) (db w))
               (clock_reads w) (random_draws w)).
  assert ((if decide (0 < length (deletes (follows ops)))%nat
           then processUnfollowEvents (deletes (follows ops)) ;;;
                update_unfollowers rt (deletes (follows ops))
           else ret ()) w = (Returned (), w2)) as Hunfollow.
  { destruct (decide (0 < length (deletes (follows ops)))%nat) as [|Hempty].
    - erewrite bind_returned by (by apply processUnfollowEvents_run).
      apply update_unfollowers_nothing. intros event Hevent.
      unfold find_by_follow_uri, w2.
      cbn [db followee_relationships set_followee_relationships].
      rewrite list_filter_filter, filter_none; [done|].
      intros r _ [Huri Hnot]. apply Hnot. rewrite Huri. by apply list_elem_of_fmap_2.
    - destruct (deletes (follows ops)); [|cbn in Hempty; lia].
      unfold w2. rewrite filter_all by (intros r _; apply not_elem_of_nil).
      rewrite set_followee_relationships_same. by destruct w. }
  unfold w'. rewrite (handleEvent_run ops w w w2 Hfollow Hunfollow). done.
Qed.

(** X29: the posts of a commit.  [handleEvent] deletes before it inserts,
    so every post the commit creates is stored afterwards, also one the
    same commit deletes; a stored post the commit does not delete stays as
    it is, also when the commit creates its URI again; and the URIs of the
    table stay pairwise distinct. *)
Theorem handleEvent_stores_created_posts ops w :
  let w' := (handleEvent rt ops w).2 in
  (∀ create, create ∈ creates (posts ops) →
             PostCreate.uri create ∈ Post.uri <$> post (db w'))
  ∧ (∀ p, p ∈ post (db w) →
          Post.uri p ∉ PostDelete.uri <$> deletes (posts ops) →
          p ∈ post (db w'))
  ∧ (unique_posts (post (db w)) → unique_posts (post (db w'))).
Proof.
  intros w'.
  destruct (follows_created_spec (creates (follows ops)) w)
    as (w1 & Hfollow & (Hposts1 & _) & _).
  destruct (follows_deleted_spec (deletes (follows ops)) w1)
    as (w2 & Hunfollow & (Hposts2 & _) & _).
  unfold w'. rewrite (handleEvent_run ops w w1 w2 Hfollow Hunfollow).
  cbn [snd db post set_post]. rewrite Hposts2, Hposts1. split; [|split].
  - intros create Hcreate.
    assert (∃ row, row ∈ created_posts rt (creates (posts ops)) (clock_reads w2)
                   ∧ Post.uri row = PostCreate.uri create) as (row & Hrow & <-).
    { apply (list_elem_of_fmap_2 PostCreate.uri) in Hcreate.
      rewrite <- (created_posts_uris (creates (posts ops)) (clock_reads w2)) in Hcreate.
      apply list_elem_of_fmap in Hcreate as (row & ? & ?). by exists row. }
    by apply post_insert_all_uris.
  - intros p Hp Hkept.
    destruct (sql_insert_all_do_nothing_extends post_conflict
                (created_posts rt (creates (posts ops)) (clock_reads w2))
                (sql_delete (λ p, Post.uri p ∈ PostDelete.uri <$> deletes (posts ops))
                            (post (db w)))) as (added & -> & _).
    apply elem_of_app. left. unfold sql_delete. by apply list_elem_of_filter.
  - intros Hunique. apply post_insert_all_unique. by apply NoDup_fmap_filter.
Qed.

(** X30: [handleEvent] never throws and never touches the ViewRecords
    or the DailyStat rows: deleting a post leaves the ViewRecords of the
    post in place. *)
Theorem handleEvent_keeps_view_records ops w :
  let w' := (handleEvent rt ops w).2 in
  (handleEvent rt ops w).1 = Returned ()
  ∧ post_statistics (db w') = post_statistics (db w)
  ∧ daily_stats (db w') = daily_stats (db w)
  ∧ sub_state (db w') = sub_state (db w).
Proof.
  intros w'.
  destruct (follows_created_spec (creates (follows ops)) w)
    as (w1 & Hfollow & (_ & Hs1 & Hv1 & Hd1) & _).
  destruct (follows_deleted_spec (deletes (follows ops)) w1)
    as (w2 & Hunfollow & (_ & Hs2 & Hv2 & Hd2) & _).
  unfold w'. rewrite (handleEvent_run ops w w1 w2 Hfollow Hunfollow).
  cbn [fst snd db post_statistics daily_stats sub_state set_post].
  repeat split; congruence.
Qed.

End Subscription.

(** ** Daily statistics *)

Lemma upsert_daily_stats_cases userDid date total followees d :
  let table := daily_stats d in
  (getDailyStats userDid date d = None
   ∧ upsert_daily_stats userDid date total followees table
     = table ++ [DailyStats.mk userDid date total followees])
  ∨ (is_Some (getDailyStats userDid date d)
     ∧ upsert_daily_stats userDid date total followees table
       = sql_update (λ r, DailyStats.user_did r = userDid ∧ DailyStats.date r = date)
           (λ r, DailyStats.mk (DailyStats.user_did r) (DailyStats.date r) total followees)
           table).
Proof.
  intros table. unfold upsert_daily_stats, sql_insert.
  destruct (getDailyStats userDid date d) as [row|] eqn:Hget.
  - right. split; [done|]. rewrite decide_True; [done|].
    unfold getDailyStats in Hget. apply head_Some in Hget as [rest Hrows].
    assert (row ∈ filter (λ r, DailyStats.user_did r = userDid ∧ DailyStats.date r = date)
                         (daily_stats d)) as Hin by (rewrite Hrows; left).
    apply list_elem_of_filter in Hin as [[Hu Hd] Hin].
    apply Exists_exists. exists row. split; [done|].
    unfold daily_stats_conflict. cbn. done.
  - left. split; [done|]. rewrite decide_False; [done|].
    intros Hex. apply Exists_exists in Hex as (r & Hin & Hu & Hd). cbn in Hu, Hd.
    eapply (no_first_row _ _ Hget r Hin). done.
Qed.

Lemma getDailyStats_upsert_other userDid date total followees d otherDid otherDate :
  otherDid ≠ userDid ∨ otherDate ≠ date →
  getDailyStats otherDid otherDate
    (set_daily_stats (upsert_daily_stats userDid date total followees (daily_stats d)) d)
  = getDailyStats otherDid otherDate d.
Proof.
  intros Hother. unfold getDailyStats at 1. cbn [daily_stats set_daily_stats].
  destruct (upsert_daily_stats_cases userDid date total followees d) as [[_ ->]|[_ ->]].
  - rewrite filter_app, filter_cons, decide_False
      by (cbn; intros [? ?]; destruct Hother; congruence).
    by rewrite filter_nil, app_nil_r.
  - rewrite filter_sql_update_other; [done|].
    cbn. intros r [<- <-]. split; intros [? ?]; destruct Hother; congruence.
Qed.

Section DailyStatistics.
Context (rt : Runtime).

(** X15: [updateDailyStats] is an insert-or-overwrite on the (user, date)
    key.  It returns the row it was given, a later [getDailyStats] of the
    key finds that row, the rows of every other key are found as before,
    and no other table changes.  It never throws. *)
Theorem updateDailyStats_round_trip userDid date total followees w :
  let w' := (updateDailyStats rt userDid date total followees w).2 in
  let row := DailyStats.mk userDid date total followees in
  (updateDailyStats rt userDid date total followees w).1 = Returned row
  ∧ getDailyStats userDid date (db w') = Some row
  ∧ (∀ otherDid otherDate,
       otherDid ≠ userDid ∨ otherDate ≠ date →
       getDailyStats otherDid otherDate (db w') = getDailyStats otherDid otherDate (db w))
  ∧ post_statistics (db w') = post_statistics (db w)
  ∧ followee_relationships (db w') = followee_relationships (db w)
  ∧ user_preferences (db w') = user_preferences (db w)
  ∧ post (db w') = post (db w).
Proof.
  intros w' row. unfold w'.
  destruct (updateDailyStats_spec rt userDid date total followees w)
    as (stored & -> & Hget & Hu & Hd & Ht & Hf).
  assert (stored = row) as -> by (destruct stored; cbn in *; by subst).
  cbn [fst snd db]. split; [done|]. split; [done|].
  split; [|done]. intros otherDid otherDate Hother.
  by apply getDailyStats_upsert_other.
Qed.

(** X16: [updateDailyStats] keeps the unique constraint of [daily_stats]:
    a table with one row per (user, date) has one row per (user, date)
    afterwards, with one more row when the key was new and the same number
    of rows when it was not. *)
Theorem updateDailyStats_keeps_unique_key userDid date total followees w :
  unique_daily_stats (daily_stats (db w)) →
  let w' := (updateDailyStats rt userDid date total followees w).2 in
  unique_daily_stats (daily_stats (db w'))
  ∧ length (daily_stats (db w'))
    = (if decide (is_Some (getDailyStats userDid date (db w)))
       then length (daily_stats (db w))
       else S (length (daily_stats (db w)))).
Proof.
  intros Hunique w'. unfold w'.
  destruct (updateDailyStats_spec rt userDid date total followees w)
    as (stored & -> & _).
  cbn [snd db daily_stats set_daily_stats]. unfold unique_daily_stats.
  destruct (upsert_daily_stats_cases userDid date total followees (db w))
    as [[Hget ->]|[Hget ->]].
  - rewrite decide_False by (rewrite Hget; by intros [? ?]).
    rewrite fmap_app, length_app. split; [|cbn; lia].
    apply NoDup_app. split; [done|]. split; [|apply NoDup_singleton].
    intros key Hin Hlast. apply list_elem_of_singleton in Hlast as ->.
    apply list_elem_of_fmap in Hin as (r & Hkey & Hin). injection Hkey as Hu Hd.
    by eapply (no_first_row _ _ Hget r Hin).
  - rewrite decide_True by done. unfold sql_update. rewrite length_fmap.
    split; [|done]. rewrite <- list_fmap_compose.
    erewrite list_fmap_ext; [exact Hunique|]. intros i r _. cbn.
    by destruct (decide _).
Qed.

End DailyStatistics.

(** ** Preferences *)

Section PreferencesRow.
Context (rt : Runtime).

(** X7: [getOrCreateUserPreferences] creates at most once.  The row it
    returns is the row stored for the user afterwards; a second call
    returns the same row and leaves the database as the first call left it.
    A user without a row gets the limit 300 and the default quota 7, and
    the primary key of the table is kept. *)
Theorem getOrCreateUserPreferences_creates_once userDid w :
  let first := getOrCreateUserPreferences rt userDid w in
  let second := getOrCreateUserPreferences rt userDid first.2 in
  ∃ row,
    first.1 = Returned row
    ∧ second.1 = Returned row
    ∧ db second.2 = db first.2
    ∧ find_user_preferences userDid (db first.2) = Some row
    ∧ (find_user_preferences userDid (db w) = None →
       row = UserPreferences.mk userDid 300 7 (clock rt (clock_reads w))
               (clock rt (clock_reads w)))
    ∧ (unique_preferences (user_preferences (db w)) →
       unique_preferences (user_preferences (db first.2))).
Proof.
  intros first second. unfold second, first.
  rewrite !getOrCreateUserPreferences_run. cbn [fst snd db].
  exists (preferences_in rt userDid w).
  pose proof (find_with_preferences rt userDid w) as Hfound.
  split; [done|]. split.
  { f_equal. unfold preferences_in at 1. cbn [db]. by rewrite Hfound. }
  split.
  { unfold db_with_preferences at 1. cbn [db]. by rewrite Hfound. }
  split; [done|]. split.
  { intros Hnone. unfold preferences_in. by rewrite Hnone. }
  intros Hunique. unfold db_with_preferences.
  destruct (find_user_preferences userDid (db w)) eqn:Hfind; [done|].
  cbn [user_preferences set_user_preferences]. unfold unique_preferences.
  rewrite fmap_app. apply NoDup_app. split; [done|]. split; [|apply NoDup_singleton].
  intros key Hin Hlast. apply list_elem_of_singleton in Hlast as ->.
  apply list_elem_of_fmap in Hin as (r & Hkey & Hin). cbn in Hkey.
  by eapply (no_first_row _ _ Hfind r Hin).
Qed.

End PreferencesRow.

(** ** Windows of ViewRecords *)

Lemma startOfDay_isoDate t : t - MS_PER_DAY < startOfDay (isoDate t) ≤ t.
Proof.
  pose proof (proj1 (isoDate_spec (isoDate t) t) eq_refl) as Hday.
  unfold startOfDay, lastMsOfDay, MS_PER_DAY in *. lia.
Qed.

Lemma views_since_mono viewerDid authorDid since since' d :
  since' ≤ since →
  0 ≤ views_since viewerDid authorDid since d ≤ views_since viewerDid authorDid since' d.
Proof.
  intros Hle. unfold views_since. split; [lia|]. apply inj_le, filter_length_le.
  intros r _ (? & ? & ?). repeat split; [done..|lia].
Qed.

Section Windows.
Context (rt : Runtime).

(** X18: the three counts of [getPostAuthorStats] are nested, today's
    within the week's within the month's, when its three clock readings
    are not days apart: the second at most 6 days after the first and the
    third at most 23 days after the second. *)
Theorem getPostAuthorStats_counts_nested viewerDid authorDid w :
  let n := clock_reads w in
  clock rt (S n) - clock rt n ≤ 6 * MS_PER_DAY →
  clock rt (S (S n)) - clock rt (S n) ≤ 23 * MS_PER_DAY →
  ∃ stats,
    (getPostAuthorStats rt viewerDid authorDid w).1 = Returned stats
    ∧ 0 ≤ posts_viewed_today stats
    ∧ posts_viewed_today stats ≤ posts_viewed_this_week stats
    ∧ posts_viewed_this_week stats ≤ posts_viewed_this_month stats.
Proof.
  intros n Hweek Hmonth. rewrite getPostAuthorStats_run. eexists. split; [reflexivity|].
  cbn [posts_viewed_today posts_viewed_this_week posts_viewed_this_month]. fold n.
  pose proof (startOfDay_isoDate (clock rt n)) as Hday.
  split; [|split].
  - apply (views_since_mono viewerDid authorDid _ _ (db w) (Z.le_refl _)).
  - apply views_since_mono. unfold daysAgo, MS_PER_DAY in *. lia.
  - apply views_since_mono. unfold daysAgo, MS_PER_DAY in *. lia.
Qed.

(** X20: the windows of ViewRecords agree.  At the same clock reading,
    every ViewRecord [getPostsViewedToday] returns is among those
    [getPostsViewedInLastDays] returns for two days or more, with more
    than a day to spare: it is stamped more than 24 hours after the
    cutoff, so the hour by which a change of daylight saving moves the
    cutoff does not matter.  [getPostsByAuthorViewedInLastDays] returns
    exactly the records of the author among them.  None of the three
    writes. *)
Theorem getPostsViewedInLastDays_covers_today viewerDid authorDid days w :
  2 ≤ days →
  ∃ today recent byAuthor,
    getPostsViewedToday rt viewerDid w
      = (Returned today, mkWorld (db w) (S (clock_reads w)) (random_draws w))
    ∧ getPostsViewedInLastDays rt viewerDid days w
      = (Returned recent, mkWorld (db w) (S (clock_reads w)) (random_draws w))
    ∧ getPostsByAuthorViewedInLastDays rt viewerDid authorDid days w
      = (Returned byAuthor, mkWorld (db w) (S (clock_reads w)) (random_draws w))
    ∧ (∀ view, view ∈ today →
         view ∈ recent
         ∧ daysAgo (clock rt (clock_reads w)) days + MS_PER_DAY
           < PostStatistics.viewed_at view)
    ∧ byAuthor = filter (λ view, PostStatistics.author_did view = authorDid) recent.
Proof.
  intros Hdays.
  exists (viewed_on viewerDid (isoDate (clock rt (clock_reads w))) (db w)),
         (viewed_since viewerDid (daysAgo (clock rt (clock_reads w)) days) (db w)),
         (viewed_by_author_since viewerDid authorDid
            (daysAgo (clock rt (clock_reads w)) days) (db w)).
  split; [reflexivity|]. split; [reflexivity|]. split; [reflexivity|].
  split.
  - intros view Hview. unfold viewed_on in Hview. unfold viewed_since.
    apply list_elem_of_filter in Hview as [(Hviewer & Hstart & _) Hin].
    pose proof (startOfDay_isoDate (clock rt (clock_reads w))) as Hday.
    assert (daysAgo (clock rt (clock_reads w)) days + MS_PER_DAY
            < PostStatistics.viewed_at view) as Hspare
      by (unfold daysAgo, MS_PER_DAY in *; nia).
    split; [|done]. apply list_elem_of_filter. split; [|done]. split; [done|].
    unfold MS_PER_DAY in *. lia.
  - unfold viewed_by_author_since, viewed_since. rewrite list_filter_filter.
    apply filter_agree. intros view _. tauto.
Qed.

End Windows.

(** ** Cleaning up *)

Lemma isoDate_mono s t : s ≤ t → isoDate s ≤ isoDate t.
Proof. intros Hle. unfold isoDate, MS_PER_DAY. by apply Z.div_le_mono. Qed.

Section Cleanup.
Context (rt : Runtime).

Lemma cleanupOldStatistics_run daysToKeep w :
  let cutoffDate := daysAgo (clock rt (clock_reads w)) (default 60 daysToKeep) in
  cleanupOldStatistics rt daysToKeep w
  = (Returned (),
     mkWorld
       (set_daily_stats
          (sql_delete (λ r, DailyStats.date r < isoDate cutoffDate) (daily_stats (db w)))
          (set_post_statistics
             (sql_delete (λ r, PostStatistics.viewed_at r < cutoffDate)
                         (post_statistics (db w))) (db w)))
       (S (clock_reads w)) (random_draws w)).
Proof. reflexivity. Qed.

(** X21: [cleanupOldStatistics] with two days or more to keep (60 when
    none is given) leaves today's figures alone: the ViewRecords
    [getPostsViewedToday] selects for the day of the clock reading and the
    DailyStat rows of that day are the same before and after, for every
    user.  Today's ViewRecords are stamped more than 24 hours after the
    cutoff, so the hour by which a change of daylight saving moves the
    cutoff does not matter.  What is left of the ViewRecords is not older
    than the cutoff, and no other table changes. *)
Theorem cleanupOldStatistics_keeps_today daysToKeep w :
  2 ≤ default 60 daysToKeep →
  let now := clock rt (clock_reads w) in
  let w' := (cleanupOldStatistics rt daysToKeep w).2 in
  (∀ viewerDid,
     viewed_on viewerDid (isoDate now) (db w') = viewed_on viewerDid (isoDate now) (db w))
  ∧ (∀ viewerDid view,
       view ∈ viewed_on viewerDid (isoDate now) (db w) →
       daysAgo now (default 60 daysToKeep) + MS_PER_DAY < PostStatistics.viewed_at view)
  ∧ (∀ userDid,
       getDailyStats userDid (isoDate now) (db w')
       = getDailyStats userDid (isoDate now) (db w))
  ∧ Forall (λ view, daysAgo now (default 60 daysToKeep) ≤ PostStatistics.viewed_at view)
           (post_statistics (db w'))
  ∧ post (db w') = post (db w)
  ∧ followee_relationships (db w') = followee_relationships (db w)
  ∧ user_preferences (db w') = user_preferences (db w).
Proof.
  intros Hdays now w'. unfold w'. rewrite cleanupOldStatistics_run. cbn [snd db]. fold now.
  pose proof (startOfDay_isoDate now) as Hday.
  split; [|split; [|split; [|split; [|done]]]].
  - intros viewerDid. unfold viewed_on, sql_delete.
    cbn [post_statistics set_daily_stats set_post_statistics].
    rewrite list_filter_filter. apply filter_agree. intros view _.
    unfold daysAgo, MS_PER_DAY in *. split; [tauto|]. intros (? & ? & ?).
    split; [done|]. nia.
  - intros viewerDid view Hview. unfold viewed_on in Hview.
    apply list_elem_of_filter in Hview as [(_ & Hstart & _) _].
    unfold daysAgo, MS_PER_DAY in *. nia.
  - intros userDid. unfold getDailyStats, sql_delete.
    cbn [daily_stats set_daily_stats]. rewrite list_filter_filter. f_equal.
    apply filter_agree. intros r _. split; [tauto|]. intros [? Hdate].
    split; [done|]. rewrite Hdate.
    assert (isoDate (daysAgo now (default 60 daysToKeep)) ≤ isoDate now); [|lia].
    apply isoDate_mono. unfold daysAgo, MS_PER_DAY. nia.
  - cbn [post_statistics set_daily_stats set_post_statistics]. unfold sql_delete.
    apply Forall_forall. intros view Hview.
    apply list_elem_of_filter in Hview as [? _]. lia.
Qed.

(** X22: [cleanupOldStatistics] makes old posts new again: a stored post
    whose ViewRecords by the viewer are all older than the cutoff is among
    the viewer's unviewed posts of its author after the cleanup, so
    the feed can serve it once more. *)
Theorem cleanupOldStatistics_forgets_old_views daysToKeep w viewerDid p :
  let cutoffDate := daysAgo (clock rt (clock_reads w)) (default 60 daysToKeep) in
  let w' := (cleanupOldStatistics rt daysToKeep w).2 in
  p ∈ post (db w) →
  (∀ view, view ∈ post_statistics (db w) →
           PostStatistics.post_uri view = Post.uri p →
           PostStatistics.viewer_did view = viewerDid →
           PostStatistics.viewed_at view < cutoffDate) →
  p ∈ unviewed_posts viewerDid (Post.author_did p) (db w').
Proof.
  intros cutoffDate w' Hp Hold. unfold w'. rewrite cleanupOldStatistics_run.
  cbn [snd db]. fold cutoffDate. unfold unviewed_posts.
  cbn [post post_statistics set_daily_stats set_post_statistics].
  apply list_elem_of_filter. split; [|done]. split; [done|].
  intros Hex. apply Exists_exists in Hex as (view & Hview & Huri & Hviewer).
  unfold sql_delete in Hview. apply list_elem_of_filter in Hview as [Hkept Hview].
  apply Hkept. by apply Hold.
Qed.

End Cleanup.

(** ** Unviewed posts *)

Lemma order_by_indexedAt_desc_sorted rows :
  newest_first (order_by_indexedAt_desc rows)
  ∧ order_by_indexedAt_desc rows ≡ₚ rows.
Proof.
  split; [|apply Array_sort_Permutation].
  unfold newest_first, order_by_indexedAt_desc.
  eapply StronglySorted_mono; [|apply Array_sort_sorted].
  - intros a b. unfold sorts_before. cbn. lia.
  - intros a b. unfold sorts_before. cbn. lia.
  - intros a b c. unfold sorts_before. cbn. lia.
Qed.

Lemma newest_first_limit limit rows :
  0 ≤ limit →
  let result := sql_limit limit (order_by_indexedAt_desc rows) in
  Z.of_nat (length result) ≤ limit
  ∧ (∀ p, p ∈ result → p ∈ rows)
  ∧ newest_first result
  ∧ (∀ p q, p ∈ result → q ∈ rows → q ∉ result →
            Post.indexedAt q ≤ Post.indexedAt p).
Proof.
  intros Hlimit result. unfold result, sql_limit. rewrite decide_False by lia.
  destruct (order_by_indexedAt_desc_sorted rows) as [Hsorted Hperm].
  set (sorted := order_by_indexedAt_desc rows) in *.
  rewrite <- (take_drop (Z.to_nat limit) sorted) in Hsorted.
  split; [rewrite length_take; lia|]. split; [|split].
  - intros p Hp. rewrite <- Hperm. apply elem_of_take in Hp as (i & Hi & _).
    by eapply list_elem_of_lookup_2.
  - by apply StronglySorted_app_1_l in Hsorted.
  - intros p q Hp Hq Hout.
    eapply (StronglySorted_app_1_elem_of _ _ _ p q Hsorted); [done|].
    rewrite <- Hperm, <- (take_drop (Z.to_nat limit) sorted) in Hq.
    apply elem_of_app in Hq as [Hq|Hq]; [by destruct Hout|done].
Qed.

(** X23: [getUnviewedPostsByAuthor] with a limit that is not negative
    returns at most that many posts, newest first; each is a stored post of
    the author for which the viewer has no ViewRecord; and an unviewed post
    of the author that it leaves out is not newer than one it returns. *)
Theorem getUnviewedPostsByAuthor_newest_unviewed viewerDid authorDid limit d :
  0 ≤ limit →
  let result := getUnviewedPostsByAuthor viewerDid authorDid limit d in
  Z.of_nat (length result) ≤ limit
  ∧ Forall (λ p, p ∈ post d ∧ Post.author_did p = authorDid ∧ unviewed viewerDid d p)
           result
  ∧ newest_first result
  ∧ (∀ p q, p ∈ result → q ∈ post d → Post.author_did q = authorDid →
            unviewed viewerDid d q → q ∉ result →
            Post.indexedAt q ≤ Post.indexedAt p).
Proof.
  intros Hlimit result. unfold result, getUnviewedPostsByAuthor.
  destruct (newest_first_limit limit (unviewed_posts viewerDid authorDid d) Hlimit)
    as (Hlength & Hsub & Hsorted & Hnewest).
  split; [done|]. split; [|split; [done|]].
  - apply Forall_forall. intros p Hp. apply Hsub in Hp. unfold unviewed_posts in Hp.
    apply list_elem_of_filter in Hp as [[Hauthor Hnone] Hin].
    split; [done|]. split; [done|]. intros view Hview Huri Hviewer.
    apply Hnone, Exists_exists. by exists view.
  - intros p q Hp Hq Hauthor Hunviewed Hout. apply (Hnewest p q Hp); [|done].
    unfold unviewed_posts. apply list_elem_of_filter. split; [|done].
    split; [done|]. intros Hex. apply Exists_exists in Hex as (view & Hview & Huri & Hv).
    by eapply Hunviewed.
Qed.

(** X24: [getUnviewedPosts] returns at most [limit] posts, 100 when no
    limit is given, newest first, each a stored post for which the viewer
    has no ViewRecord; an unviewed post it leaves out is not newer than one
    it returns. *)
Theorem getUnviewedPosts_newest_unviewed viewerDid limit d :
  0 ≤ default 100 limit →
  let result := getUnviewedPosts viewerDid limit d in
  Z.of_nat (length result) ≤ default 100 limit
  ∧ Forall (λ p, p ∈ post d ∧ unviewed viewerDid d p) result
  ∧ newest_first result
  ∧ (∀ p q, p ∈ result → q ∈ post d → unviewed viewerDid d q → q ∉ result →
            Post.indexedAt q ≤ Post.indexedAt p).
Proof.
  intros Hlimit result. unfold result, getUnviewedPosts.
  destruct (newest_first_limit (default 100 limit) (all_unviewed_posts viewerDid d) Hlimit)
    as (Hlength & Hsub & Hsorted & Hnewest).
  split; [done|]. split; [|split; [done|]].
  - apply Forall_forall. intros p Hp. apply Hsub in Hp. unfold all_unviewed_posts in Hp.
    apply list_elem_of_filter in Hp as [Hnone Hin].
    split; [done|]. intros view Hview Huri Hviewer.
    apply Hnone, Exists_exists. by exists view.
  - intros p q Hp Hq Hunviewed Hout. apply (Hnewest p q Hp); [|done].
    unfold all_unviewed_posts. apply list_elem_of_filter. split; [|done].
    intros Hex. apply Exists_exists in Hex as (view & Hview & Huri & Hv).
    by eapply Hunviewed.
Qed.

(** ** Author statistics *)

Section AuthorStatistics.
Context (rt : Runtime).

(** X19: [getAllAuthorStats] returns one entry per author the viewer
    has a ViewRecord for, and no other: an author appears exactly when the
    viewer has viewed a post of theirs, never twice, followed or not.  It
    reads the clock three times per entry and writes nothing. *)
Theorem getAllAuthorStats_one_entry_per_author viewerDid w :
  ∃ all,
    getAllAuthorStats rt viewerDid w
      = (Returned all,
         mkWorld (db w) (clock_reads w + 3 * length all) (random_draws w))
    ∧ NoDup (pas_author_did <$> all)
    ∧ (∀ authorDid,
         authorDid ∈ pas_author_did <$> all
         ↔ ∃ view, view ∈ post_statistics (db w)
                   ∧ PostStatistics.viewer_did view = viewerDid
                   ∧ PostStatistics.author_did view = authorDid).
Proof.
  unfold getAllAuthorStats. erewrite bind_returned by apply query_run.
  destruct (collect_author_stats_spec rt viewerDid (viewed_authors viewerDid (db w)) [] w)
    as (collected & Hrun & Hauthors & _).
  exists collected. rewrite Hrun, Hauthors. cbn [app].
  split; [by rewrite <- Hauthors, length_fmap|].
  unfold viewed_authors. split; [apply NoDup_remove_dups|].
  intros authorDid. rewrite elem_of_remove_dups, list_elem_of_fmap. split.
  - intros (view & -> & Hview). apply list_elem_of_filter in Hview as [? ?].
    by exists view.
  - intros (view & Hview & Hviewer & <-). exists view. split; [done|].
    by apply list_elem_of_filter.
Qed.

End AuthorStatistics.

(** ** What the page is made of *)

Lemma sql_limit_subset {R} (n : Z) (rows : list R) x : x ∈ sql_limit n rows → x ∈ rows.
Proof.
  unfold sql_limit. destruct (decide (n < 0)); [done|]. apply subseteq_take.
Qed.

Lemma slice0_subset {A} (n : Z) (l : list A) x : x ∈ slice0 n l → x ∈ l.
Proof. unfold slice0. destruct (decide (n < 0)); apply subseteq_take. Qed.

Lemma sql_limit_sublist {R} (n : Z) (rows : list R) : sql_limit n rows `sublist_of` rows.
Proof. unfold sql_limit. destruct (decide (n < 0)); [done|]. apply sublist_take. Qed.

Lemma slice0_sublist {A} (n : Z) (l : list A) : slice0 n l `sublist_of` l.
Proof. unfold slice0. destruct (decide (n < 0)); apply sublist_take. Qed.

Lemma fmap_eq_elements {A B C} (f : A → C) (g : B → C) (l : list A) (k : list B) :
  f <$> l = g <$> k → Forall (λ x, ∃ y, y ∈ k ∧ g y = f x) l.
Proof.
  revert k. induction l as [|x l IH]; intros k Heq; [constructor|].
  destruct k as [|y k]; [done|]. injection Heq as Hhead Htail.
  constructor; [exists y; split; [left|done]|].
  eapply Forall_impl; [by apply IH|]. intros x' (y' & ? & ?). exists y'.
  split; [by right|done].
Qed.

Lemma getUnviewedPostsByAuthor_elements viewerDid authorDid n d p :
  p ∈ getUnviewedPostsByAuthor viewerDid authorDid n d →
  p ∈ post d ∧ Post.author_did p = authorDid ∧ unviewed viewerDid d p.
Proof.
  unfold getUnviewedPostsByAuthor. intros Hp. apply sql_limit_subset in Hp.
  unfold order_by_indexedAt_desc in Hp. rewrite Array_sort_Permutation in Hp.
  unfold unviewed_posts in Hp. apply list_elem_of_filter in Hp as [[Hauthor Hnone] Hin].
  split; [done|]. split; [done|]. intros view Hview Huri Hviewer.
  apply Hnone, Exists_exists. by exists view.
Qed.

Lemma getUnviewedPostsByAuthor_unique viewerDid authorDid n d :
  unique_posts (post d) →
  NoDup (Post.uri <$> getUnviewedPostsByAuthor viewerDid authorDid n d).
Proof.
  intros Hunique. unfold getUnviewedPostsByAuthor.
  eapply sublist_NoDup; [|apply fmap_sublist, sql_limit_sublist].
  unfold order_by_indexedAt_desc. rewrite Array_sort_Permutation.
  by apply NoDup_fmap_filter.
Qed.

Section Page.
Context (rt : Runtime).
Context (requesterDid : string) (userPrefs : UserPreferences.t)
        (postsViewedToday : list PostStatistics.t) (postsToShow : Z).

Lemma tracked_frame w w' items :
  tracked rt requesterDid w w' items →
  post (db w') = post (db w)
  ∧ (∀ view, view ∈ post_statistics (db w) → view ∈ post_statistics (db w'))
  ∧ Forall (λ item, ∃ view, view ∈ post_statistics (db w')
                            ∧ PostStatistics.post_uri view = MahootFeedItem.post item
                            ∧ PostStatistics.viewer_did view = requesterDid) items.
Proof.
  intros (views & -> & _ & Hviews). cbn [post post_statistics set_post_statistics].
  split; [done|]. split; [intros view Hview; apply elem_of_app; by left|].
  induction Hviews as [|item view items views (Huri & _ & Hviewer & _) _ IH];
    [constructor|].
  constructor.
  - exists view. split; [|done]. apply elem_of_app. right. left.
  - eapply Forall_impl; [exact IH|]. intros item' (view' & Hin & ? & ?).
    exists view'. split; [|done].
    apply elem_of_app in Hin as [Hin|Hin]; apply elem_of_app; [by left|right; by right].
Qed.

Lemma fresh_post_earlier d d' postUri authorDid :
  post d' = post d →
  (∀ view, view ∈ post_statistics d → view ∈ post_statistics d') →
  fresh_post requesterDid d' postUri authorDid →
  fresh_post requesterDid d postUri authorDid.
Proof.
  intros Hposts Hviews (p & Hp & Huri & Hauthor & Hunviewed).
  exists p. rewrite <- Hposts. split; [done|]. split; [done|]. split; [done|].
  intros view Hview. by apply Hunviewed, Hviews.
Qed.

Lemma process_followees_posts sortedFollowees mahootFeed w :
  ∃ items w',
    process_followees rt requesterDid userPrefs postsViewedToday postsToShow
      sortedFollowees mahootFeed w
      = (Returned (mahootFeed ++ items), w')
    ∧ tracked rt requesterDid w w' items
    ∧ Forall (λ item, fresh_post requesterDid (db w) (MahootFeedItem.post item)
                        (MahootFeedItem.author_did item)) items
    ∧ (unique_posts (post (db w)) → NoDup (MahootFeedItem.post <$> items)).
Proof.
  revert mahootFeed w.
  induction sortedFollowees as [|followee rest IH]; intros mahootFeed w.
  { exists [], w. cbn [process_followees]. unfold ret. rewrite app_nil_r.
    split; [done|]. split; [by apply tracked_nil|]. split; [constructor|].
    intros _. constructor. }
  rewrite process_followees_cons. cbn zeta.
  destruct (decide (FolloweeRelationship.mahoot_number followee = 0)); [apply IH|].
  destruct (decide (viewed_from _ _ >= _)); [apply IH|].
  destruct (decide (_ ≤ 0)); [apply IH|].
  erewrite bind_returned by apply query_run.
  destruct (decide (length _ = 0%nat)); [apply IH|].
  set (followeeDid := FolloweeRelationship.followee_did followee) in *.
  set (mahootNumber := FolloweeRelationship.mahoot_number followee) in *.
  set (slots := Z.min _ _) in *.
  set (unviewedPosts := getUnviewedPostsByAuthor _ _ _ _) in *.
  destruct (shuffle_spec rt (slice0 slots unviewedPosts) w)
    as (shuffled & Hshuffle & Hperm).
  erewrite bind_returned by exact Hshuffle.
  set (w1 := mkWorld _ _ _) in *.
  destruct (add_posts_spec rt requesterDid userPrefs postsToShow followeeDid mahootNumber
              shuffled (viewed_from postsViewedToday followeeDid) mahootFeed w1)
    as (items1 & w2 & Hadd & Htracked1 & _ & Hitems1 & Huris & _).
  erewrite bind_returned by exact Hadd.
  assert (tracked rt requesterDid w w2 items1) as Htracked.
  { destruct Htracked1 as (views & Hdb & Hclock & Hviews).
    exists views. split; [done|]. split; [done|]. exact Hviews. }
  assert (∀ p, p ∈ take (length items1) shuffled → p ∈ unviewedPosts) as Hchosen.
  { intros p Hp. apply subseteq_take in Hp. rewrite Hperm in Hp.
    by apply slice0_subset in Hp. }
  assert (Forall (λ item, fresh_post requesterDid (db w) (MahootFeedItem.post item)
                            (MahootFeedItem.author_did item)) items1) as Hfresh1.
  { apply fmap_eq_elements in Huris. rewrite Forall_forall in Huris, Hitems1.
    apply Forall_forall. intros item Hitem.
    destruct (Huris item Hitem) as (p & Hp & Huri).
    destruct (Hitems1 item Hitem) as (Hauthor & _).
    apply Hchosen, getUnviewedPostsByAuthor_elements in Hp as (Hin & Hby & Hunviewed).
    exists p. rewrite Hauthor. done. }
  assert (unique_posts (post (db w)) → NoDup (MahootFeedItem.post <$> items1)) as Hnodup1.
  { intros Hunique. rewrite Huris.
    eapply sublist_NoDup; [|apply fmap_sublist, sublist_take].
    rewrite Hperm.
    eapply sublist_NoDup; [|apply fmap_sublist, slice0_sublist].
    by apply getUnviewedPostsByAuthor_unique. }
  destruct (decide (Z.of_nat (length (mahootFeed ++ items1)) >= postsToShow)).
  { exists items1, w2. done. }
  destruct (IH (mahootFeed ++ items1) w2)
    as (items2 & w3 & Hrun & Htracked2 & Hfresh2 & Hnodup2).
  destruct (tracked_frame w w2 items1 Htracked) as (Hposts & Hviews & Hviewed1).
  exists (items1 ++ items2), w3. rewrite Hrun, app_assoc.
  split; [done|]. split; [by eapply tracked_app|]. split.
  - apply Forall_app. split; [done|].
    eapply Forall_impl; [exact Hfresh2|]. intros item.
    by apply fresh_post_earlier.
  - intros Hunique. rewrite fmap_app. apply NoDup_app.
    split; [by apply Hnodup1|]. split; [|apply Hnodup2; by rewrite Hposts].
    intros uri Hin1 Hin2.
    apply list_elem_of_fmap in Hin1 as (item1 & -> & Hitem1).
    apply list_elem_of_fmap in Hin2 as (item2 & Huri & Hitem2).
    rewrite Forall_forall in Hviewed1, Hfresh2.
    destruct (Hviewed1 item1 Hitem1) as (view & Hview & Hpost & Hviewer).
    destruct (Hfresh2 item2 Hitem2) as (p & _ & Hp & _ & Hunviewed).
    apply (Hunviewed view Hview); [congruence|done].
Qed.

End Page.

Section Served.
Context (rt : Runtime).

Lemma to_skeleton_post (items : list MahootFeedItem.t) :
  SkeletonItem.post <$> (to_skeleton <$> items) = MahootFeedItem.post <$> items.
Proof. rewrite <- list_fmap_compose. by apply list_fmap_ext. Qed.

Lemma fresh_post_with_preferences userDid viewerDid w postUri authorDid :
  fresh_post viewerDid (db_with_preferences rt userDid w) postUri authorDid →
  fresh_post viewerDid (db w) postUri authorDid.
Proof.
  destruct (db_with_preferences_frame rt userDid w) as [(Hposts & _ & _ & Hviews & _) _].
  intros (p & Hp & ? & ? & Hunviewed). exists p. rewrite <- Hposts.
  split; [done|]. split; [done|]. split; [done|].
  intros view Hview. apply Hunviewed. by rewrite Hviews.
Qed.

(** The page and the state of a call that gets past the two early
    returns, in terms of the items the allocation loops produce. *)
Lemma handler_serves_items params requesterDid w :
  requesterDid ≠ "" →
  let userPrefs := preferences_in rt requesterDid w in
  let followees := getUserFollowees requesterDid (db w) in
  let viewed := viewed_on requesterDid (isoDate (clock rt (S (clock_reads w)))) (db w) in
  let viewedCount := Z.of_nat (length viewed) in
  let postsToShow :=
    Z.min (UserPreferences.daily_post_limit userPrefs - viewedCount)
          (limit_or_default params) in
  followees ≠ [] →
  viewedCount < UserPreferences.daily_post_limit userPrefs →
  ∃ items w1 out w',
    handler rt params (Some requesterDid) w = (Returned out, w')
    ∧ feed out ≡ₚ to_skeleton <$> items
    ∧ tracked rt requesterDid (loops_start rt requesterDid w) w1 items
    ∧ post_statistics (db w') = post_statistics (db w1)
    ∧ Z.of_nat (length items) ≤ Z.max 0 postsToShow
    ∧ Forall (λ item,
        fresh_post requesterDid (db w) (MahootFeedItem.post item)
          (MahootFeedItem.author_did item)
        ∧ ∃ followee,
            followee ∈ followees
            ∧ FolloweeRelationship.mahoot_number followee ≠ 0
            ∧ MahootFeedItem.author_did item
              = FolloweeRelationship.followee_did followee) items
    ∧ (unique_posts (post (db w)) → NoDup (MahootFeedItem.post <$> items)).
Proof.
  intros Hauth userPrefs followees viewed viewedCount postsToShow Hsome Hleft.
  destruct (handler_serves rt params requesterDid w Hauth Hsome Hleft)
    as (items & w1 & out & w' & Hloops & Hrun & Hfeed & _ & _ & Hdb & _).
  fold userPrefs followees viewed viewedCount postsToShow in Hloops.
  destruct (process_followees_spec rt requesterDid userPrefs viewed postsToShow
              (Array_sort by_mahoot_number_desc followees) []
              (loops_start rt requesterDid w))
    as (items' & w1' & Hloops' & Htracked & Hfrom & _ & Hcap).
  rewrite Hloops, app_nil_l in Hloops'. injection Hloops' as <- <-.
  destruct (process_followees_posts rt requesterDid userPrefs viewed postsToShow
              (Array_sort by_mahoot_number_desc followees) []
              (loops_start rt requesterDid w))
    as (items' & w1' & Hloops' & _ & Hfresh & Hnodup).
  rewrite Hloops, app_nil_l in Hloops'. injection Hloops' as <- <-.
  exists items, w1, out, w'. split; [done|].
  split; [by rewrite Hfeed, Array_sort_Permutation|]. split; [done|].
  split; [by rewrite Hdb|]. split; [cbn in Hcap; lia|]. split.
  - rewrite Forall_forall in Hfresh, Hfrom. apply Forall_forall. intros item Hitem.
    split; [by apply (fresh_post_with_preferences requesterDid), Hfresh|].
    destruct (Hfrom item Hitem) as (_ & followee & Hin & Hquota & Hauthor & _).
    exists followee. split; [|done]. by rewrite Array_sort_Permutation in Hin.
  - intros Hunique. apply Hnodup. unfold loops_start. cbn [db].
    destruct (db_with_preferences_frame rt requesterDid w) as [(-> & _) _]. done.
Qed.

(** X2: every post on the page is a stored post, written by a followee
    of the requester whose quota is not 0, for which the requester had no
    ViewRecord when the call began. *)
Theorem handler_serves_fresh_posts params requesterDid w :
  requesterDid ≠ "" →
  ∃ out w',
    handler rt params (Some requesterDid) w = (Returned out, w')
    ∧ Forall (λ entry,
        ∃ followee,
          followee ∈ getUserFollowees requesterDid (db w)
          ∧ FolloweeRelationship.mahoot_number followee ≠ 0
          ∧ fresh_post requesterDid (db w) (SkeletonItem.post entry)
              (FolloweeRelationship.followee_did followee)) (feed out).
Proof.
  intros Hauth.
  destruct (decide (getUserFollowees requesterDid (db w) = [])) as [Hempty|Hsome].
  { rewrite (handler_returns_without_followees rt params requesterDid w Hauth Hempty).
    eexists _, _. split; [reflexivity|]. constructor. }
  destruct (decide (Z.of_nat (length (viewed_on requesterDid
                                        (isoDate (clock rt (S (clock_reads w)))) (db w)))
            >= UserPreferences.daily_post_limit (preferences_in rt requesterDid w)))
    as [Hspent|Hbudget].
  { rewrite (handler_returns_when_spent rt params requesterDid w Hauth Hsome Hspent).
    eexists _, _. split; [reflexivity|]. constructor. }
  destruct (handler_serves_items params requesterDid w Hauth Hsome ltac:(lia))
    as (items & w1 & out & w' & Hrun & Hfeed & _ & _ & _ & Hitems & _).
  exists out, w'. split; [done|]. rewrite Hfeed.
  apply Forall_fmap. eapply Forall_impl; [exact Hitems|].
  intros item (Hfresh & followee & Hin & Hquota & Hauthor). cbn.
  exists followee. rewrite <- Hauthor. done.
Qed.

(** X3: no post is on the page twice, when the URIs of the stored posts
    are pairwise distinct. *)
Theorem handler_page_has_no_duplicates params requesterDid w :
  requesterDid ≠ "" →
  unique_posts (post (db w)) →
  ∃ out w',
    handler rt params (Some requesterDid) w = (Returned out, w')
    ∧ NoDup (SkeletonItem.post <$> feed out).
Proof.
  intros Hauth Hunique.
  destruct (decide (getUserFollowees requesterDid (db w) = [])) as [Hempty|Hsome].
  { rewrite (handler_returns_without_followees rt params requesterDid w Hauth Hempty).
    eexists _, _. split; [reflexivity|]. constructor. }
  destruct (decide (Z.of_nat (length (viewed_on requesterDid
                                        (isoDate (clock rt (S (clock_reads w)))) (db w)))
            >= UserPreferences.daily_post_limit (preferences_in rt requesterDid w)))
    as [Hspent|Hbudget].
  { rewrite (handler_returns_when_spent rt params requesterDid w Hauth Hsome Hspent).
    eexists _, _. split; [reflexivity|]. constructor. }
  destruct (handler_serves_items params requesterDid w Hauth Hsome ltac:(lia))
    as (items & w1 & out & w' & Hrun & Hfeed & _ & _ & _ & _ & Hnodup).
  exists out, w'. split; [done|]. rewrite Hfeed, to_skeleton_post. by apply Hnodup.
Qed.


(** X4: what [handler] leaves alone.  Without a requester, or with an
    empty one, it throws and changes nothing.  With a requester it never
    changes the posts, the edges or the subscription state, nor the
    preferences of another user, and it draws from the clock and from
    [Math.random] only forwards. *)
Theorem handler_leaves_posts_and_edges params requester w :
  let w' := (handler rt params requester w).2 in
  ((requester = None ∨ requester = Some "") →
   handler rt params requester w
   = (Thrown "User authentication required for Mahoot feed", w))
  ∧ post (db w') = post (db w)
  ∧ sub_state (db w') = sub_state (db w)
  ∧ followee_relationships (db w') = followee_relationships (db w)
  ∧ (∀ otherDid, requester ≠ Some otherDid →
       find_user_preferences otherDid (db w') = find_user_preferences otherDid (db w)).
Proof.
  intros w'. split; [by intros [->| ->]|].
  destruct requester as [requesterDid|]; [|done].
  destruct (decide (requesterDid = "")) as [->|Hauth]; [done|].
  destruct (db_with_preferences_frame rt requesterDid w)
    as [(Hposts & Hsub & Hedges & _ & _) _].
  assert (∀ otherDid, Some requesterDid ≠ Some otherDid →
            find_user_preferences otherDid (db_with_preferences rt requesterDid w)
            = find_user_preferences otherDid (db w)) as Hprefs.
  { intros otherDid Hother. apply find_other_with_preferences. congruence. }
  unfold w'.
  destruct (decide (getUserFollowees requesterDid (db w) = [])) as [Hempty|Hsome].
  { by rewrite (handler_returns_without_followees rt params requesterDid w Hauth Hempty). }
  destruct (decide (Z.of_nat (length (viewed_on requesterDid
                                        (isoDate (clock rt (S (clock_reads w)))) (db w)))
            >= UserPreferences.daily_post_limit (preferences_in rt requesterDid w)))
    as [Hspent|Hbudget].
  { by rewrite (handler_returns_when_spent rt params requesterDid w Hauth Hsome Hspent). }
  destruct (handler_serves rt params requesterDid w Hauth Hsome ltac:(lia))
    as (items & w1 & out & w1' & Hloops & Hrun & _ & _ & _ & Hdb & _).
  match type of Hloops with
  | process_followees _ _ ?prefs ?viewed ?cap ?sorted _ ?w0 = _ =>
      destruct (process_followees_spec rt requesterDid prefs viewed cap sorted [] w0)
        as (items' & w1'' & Hloops' & (views & Hdb1 & _) & _)
  end.
  rewrite Hloops, app_nil_l in Hloops'. injection Hloops' as <- <-.
  rewrite Hrun. cbn [snd]. rewrite Hdb, Hdb1. unfold loops_start.
  cbn [db post sub_state followee_relationships set_daily_stats set_post_statistics].
  split; [done|]. split; [done|]. split; [done|].
  intros otherDid Hother. by rewrite <- Hprefs.
Qed.

End Served.

(** ** Priority under a tight cap *)

Lemma contribution_of_author d authorDid out items :
  feed out = to_skeleton <$> items →
  Forall (λ item, ∃ p, p ∈ post d
                       ∧ Post.uri p = MahootFeedItem.post item
                       ∧ Post.author_did p = authorDid) items →
  contribution d authorDid out = length items.
Proof.
  intros Hfeed Hall. unfold contribution. rewrite Hfeed. clear Hfeed.
  rewrite <- (length_fmap to_skeleton items). f_equal.
  induction Hall as [|item items (p & Hp & Huri & Hby) _ IH]; [done|].
  rewrite fmap_cons, filter_cons_True; [by f_equal|].
  apply Exists_exists. by exists p.
Qed.

Lemma contribution_of_other d authorDid otherDid out items :
  unique_posts (post d) →
  otherDid ≠ authorDid →
  feed out = to_skeleton <$> items →
  Forall (λ item, ∃ p, p ∈ post d
                       ∧ Post.uri p = MahootFeedItem.post item
                       ∧ Post.author_did p = otherDid) items →
  contribution d authorDid out = 0%nat.
Proof.
  intros Hunique Hne Hfeed Hall. unfold contribution. rewrite Hfeed. clear Hfeed.
  induction Hall as [|item items (p & Hp & Huri & Hby) _ IH]; [done|].
  rewrite fmap_cons, filter_cons_False; [exact IH|].
  intros Hex. apply Exists_exists in Hex as (q & Hq & Hquri & Hqby). cbn in Hquri.
  assert (q = p) as ->
    by (eapply (NoDup_fmap_eq Post.uri); [exact Hunique|done..|congruence]).
  congruence.
Qed.

Section Priority.
Context (rt : Runtime).

(** C6.  [handler] visits the followees from the highest quota down and
    spends the page on them in that order.  With two followees of quotas
    10 and 3, a page cap of 8, at least 8 unviewed posts of the quota-10
    followee and at most 2 of their posts viewed today, so that 8 of the
    10 are left, the page holds 8 stored posts of the quota-10 followee
    and no post of the quota-3 followee.  A page entry counts for a
    followee when its URI is that of a stored post of theirs; the URIs of
    the stored posts are pairwise distinct. *)
Theorem handler_priority_first params requesterDid w amped other :
  requesterDid ≠ "" →
  unique_posts (post (db w)) →
  getUserFollowees requesterDid (db w) ≡ₚ [amped; other] →
  FolloweeRelationship.mahoot_number amped = 10 →
  FolloweeRelationship.mahoot_number other = 3 →
  FolloweeRelationship.followee_did amped ≠ FolloweeRelationship.followee_did other →
  let viewed := viewed_on requesterDid (isoDate (clock rt (S (clock_reads w)))) (db w) in
  Z.min (UserPreferences.daily_post_limit (preferences_in rt requesterDid w)
         - Z.of_nat (length viewed))
        (limit_or_default params) = 8 →
  viewed_from viewed (FolloweeRelationship.followee_did amped) ≤ 2 →
  (8 ≤ length (unviewed_posts requesterDid
                 (FolloweeRelationship.followee_did amped) (db w)))%nat →
  (StronglySorted
     (λ a b, FolloweeRelationship.mahoot_number b ≤ FolloweeRelationship.mahoot_number a)
     (Array_sort by_mahoot_number_desc (getUserFollowees requesterDid (db w))))
  ∧ ∃ out w',
      handler rt params (Some requesterDid) w = (Returned out, w')
      ∧ length (feed out) = 8%nat
      ∧ contribution (db w) (FolloweeRelationship.followee_did amped) out = 8%nat
      ∧ contribution (db w) (FolloweeRelationship.followee_did other) out = 0%nat.
Proof.
  intros Hauth Hunique Hfollowees Hamped Hother Hdistinct viewed Hcap Hviewed Hposts.
  split; [apply sortedFollowees_descending|].
  assert (getUserFollowees requesterDid (db w) ≠ []) as Hsome.
  { intros Hnil. rewrite Hnil in Hfollowees. by apply Permutation_nil_l in Hfollowees. }
  assert (Z.of_nat (length viewed)
          < UserPreferences.daily_post_limit (preferences_in rt requesterDid w))
    as Hbudget by lia.
  destruct (handler_serves rt params requesterDid w Hauth Hsome Hbudget)
    as (items & w1 & out & w' & Hloops & Hrun & Hfeed & _).
  match type of Hloops with
  | process_followees _ _ ?prefs ?seen ?cap ?sorted _ ?w0 = _ =>
      destruct (process_followees_posts rt requesterDid prefs seen cap sorted [] w0)
        as (items' & w1' & Hloops' & _ & Hfresh & _)
  end.
  rewrite Hloops, app_nil_l in Hloops'. injection Hloops' as <- <-.
  assert (Forall (λ item, ∃ p, p ∈ post (db w)
                               ∧ Post.uri p = MahootFeedItem.post item
                               ∧ Post.author_did p = MahootFeedItem.author_did item)
                 items) as Hstored.
  { eapply Forall_impl; [exact Hfresh|]. intros item Hitem.
    apply (fresh_post_with_preferences rt requesterDid) in Hitem
      as (p & Hp & Huri & Hby & _).
    by exists p. }
  clear Hfresh.
  fold viewed in Hloops. rewrite Hcap in Hloops.
  assert (Array_sort by_mahoot_number_desc (getUserFollowees requesterDid (db w))
          = [amped; other]) as Hsorted.
  { symmetry in Hfollowees.
    apply Permutation_length_2_inv in Hfollowees as [-> | ->];
      unfold Array_sort, by_mahoot_number_desc; simpl;
      rewrite Hamped, Hother; case_decide; first [done | lia]. }
  rewrite Hsorted, process_followees_cons in Hloops. cbn zeta in Hloops.
  rewrite Hamped in Hloops.
  destruct (decide (10 = 0)) as [|_]; [lia|].
  destruct (decide (viewed_from viewed _ >= 10)) as [|_]; [lia|].
  assert (Z.min (10 - viewed_from viewed (FolloweeRelationship.followee_did amped))
                (8 - Z.of_nat (length (@nil MahootFeedItem.t))) = 8) as Hslots
    by (simpl; lia).
  rewrite Hslots in Hloops.
  destruct (decide (8 ≤ 0)) as [|_]; [lia|].
  erewrite bind_returned in Hloops by apply query_run.
  unfold loops_start in Hloops. cbn [db clock_reads random_draws] in Hloops.
  rewrite getUnviewedPostsByAuthor_with_preferences in Hloops.
  change (8 * 3) with 24 in Hloops.
  set (unviewed := getUnviewedPostsByAuthor _ _ _ _) in *.
  assert (8 ≤ length unviewed)%nat as Henough.
  { unfold unviewed, getUnviewedPostsByAuthor, sql_limit, order_by_indexedAt_desc.
    destruct (decide (24 < 0)) as [|_]; [lia|].
    rewrite length_take, Array_sort_length. lia. }
  destruct (decide (length unviewed = 0%nat)) as [|_]; [lia|].
  match type of Hloops with context [shuffle rt ?l] =>
    match type of Hloops with bind _ _ ?w0 = _ =>
      destruct (shuffle_spec rt l w0) as (shuffled & Hshuffle & Hperm) end end.
  erewrite bind_returned in Hloops by exact Hshuffle.
  match type of Hloops with
  | context [add_posts rt requesterDid ?prefs ?cap ?did ?quota shuffled ?count []] =>
      match type of Hloops with bind _ _ ?w0 = _ =>
        destruct (add_posts_spec rt requesterDid prefs cap did quota shuffled count [] w0)
          as (items1 & w2 & Hadd & _ & _ & Hitems1 & _ & Hcount) end
  end.
  erewrite bind_returned in Hloops by exact Hadd.
  assert (Z.of_nat (length shuffled) = 8) as Hlen.
  { rewrite Hperm, slice0_length by lia. lia. }
  assert (length items1 = 8%nat) as Hfull by (simpl in Hcount; lia).
  rewrite app_nil_l in Hloops.
  destruct (decide (Z.of_nat (length items1) >= 8)) as [_|]; [|lia].
  unfold ret in Hloops. injection Hloops as <- <-.
  assert (Forall (λ item, ∃ p, p ∈ post (db w)
                               ∧ Post.uri p = MahootFeedItem.post item
                               ∧ Post.author_did p
                                 = FolloweeRelationship.followee_did amped)
                 (Array_sort (by_uri_time_desc rt) items1)) as Hall.
  { rewrite Array_sort_Permutation.
    rewrite Forall_forall in Hstored, Hitems1. apply Forall_forall. intros item Hitem.
    destruct (Hstored item Hitem) as (p & Hp & Huri & Hby).
    destruct (Hitems1 item Hitem) as (Hauthor & _).
    exists p. by rewrite Hby. }
  exists out, w'. split; [done|].
  split; [by rewrite Hfeed, length_fmap, Array_sort_length|].
  split.
  - rewrite (contribution_of_author _ _ _ _ Hfeed Hall). by rewrite Array_sort_length.
  - by rewrite (contribution_of_other _ _ _ _ _ Hunique Hdistinct Hfeed Hall).
Qed.

End Priority.

(** * Concrete runs *)
(** C1 (evaluation of the code).  Two calls of [handler] made while the
    clock reads [23:59:59.999] track two posts of a followee whose quota
    is 1: the second call does not see the ViewRecord of the first, which
    [getPostsViewedToday] leaves out of its range. *)
Theorem quota_exceeded_at_last_millisecond :
  let w1 := (handler last_ms_runtime (page 30) (Some viewer)
               (start_world one_followee_db)).2 in
  let w2 := (handler last_ms_runtime (page 30) (Some viewer) w1).2 in
  FolloweeRelationship.mahoot_number <$> find_relationship viewer alice (db w2) = Some 1
  ∧ views_on_date viewer alice example_date one_followee_db = 0%nat
  ∧ views_on_date viewer alice example_date (db w1) = 1%nat
  ∧ views_on_date viewer alice example_date (db w2) = 2%nat.
Proof. vm_compute. done. Qed.

(** C7 as stated fails on two runs.  After the second of two calls made
    while the clock reads [23:59:59.999] the DailyStat row of the day
    stores 1 while two ViewRecords of the viewer are stamped on that day;
    and after a call during which midnight passes, the DailyStat row of the
    new day stores 2 while one ViewRecord is stamped on it. *)
Theorem daily_stat_differs_from_view_count :
  let w1 := (handler last_ms_runtime (page 30) (Some viewer)
               (start_world one_followee_db)).2 in
  let w2 := (handler last_ms_runtime (page 30) (Some viewer) w1).2 in
  let w3 := (handler midnight_runtime (page 30) (Some viewer)
               (start_world one_view_db)).2 in
  (stored_total viewer example_date (db w1) = Some 1
   ∧ all_views_on_date viewer example_date (db w1) = 1%nat)
  ∧ (stored_total viewer example_date (db w2) = Some 1
     ∧ all_views_on_date viewer example_date (db w2) = 2%nat)
  ∧ (stored_total viewer (example_date + 1) (db w3) = Some 2
     ∧ all_views_on_date viewer (example_date + 1) (db w3) = 1%nat).
Proof. vm_compute. done. Qed.

(** C4 at twenty followees: the quota is 15. *)
Lemma calculateDefaultMahootNumber_clamp_witness :
  (calculateDefaultMahootNumber noon_runtime viewer (start_world (crowd_db 20))).1
  = Returned 15.
Proof.
  destruct (calculateDefaultMahootNumber_clamp noon_runtime viewer
              (start_world (crowd_db 20)))
    as (quota & Hrun & _ & _ & Htwenty & _).
  rewrite Hrun. f_equal. apply Htwenty; evaluate.
Defined.

(** C4 as stated fails at a thousand followees: the code returns 1, the
    floor of the clamp, where the claim expects 20. *)
Lemma calculateDefaultMahootNumber_1000_followees :
  let w := start_world (crowd_db 1000) in
  UserPreferences.daily_post_limit (preferences_in noon_runtime viewer w) = 300
  ∧ followee_count_of viewer (db w) = 1000
  ∧ (calculateDefaultMahootNumber noon_runtime viewer w).1 = Returned 1
  ∧ (calculateDefaultMahootNumber noon_runtime viewer w).1 ≠ Returned 20.
Proof. vm_compute. repeat split; done. Qed.

(** C3 with a preferences row: nothing at all is written. *)
Lemma handler_budget_exhausted_witness :
  ∃ w',
    handler noon_runtime (page 30) (Some viewer) (start_world spent_db)
      = (Returned empty_page, w')
    ∧ db w' = spent_db.
Proof.
  destruct (handler_budget_exhausted noon_runtime (page 30) viewer
              (start_world spent_db))
    as (w' & Hrun & _ & _ & Hsame); [evaluate|evaluate|].
  exists w'. split; [exact Hrun|]. apply Hsame. by eexists.
Defined.

(** C3 as stated fails for a user without a preferences row: the call
    returns the empty page and has written the default row. *)
Lemma handler_budget_exhausted_creates_preferences :
  let w := start_world spent_without_preferences_db in
  let result := handler noon_runtime (page 30) (Some viewer) w in
  all_views_on_date viewer example_date (db w) = 300%nat
  ∧ UserPreferences.daily_post_limit (preferences_in noon_runtime viewer w) = 300
  ∧ result.1 = Returned empty_page
  ∧ user_preferences (db w) = []
  ∧ length (user_preferences (db result.2)) = 1%nat
  ∧ db result.2 ≠ db w.
Proof. vm_compute. repeat split; done. Qed.

(** C8 for a new user: the empty page, and the default preferences row. *)
Lemma handler_no_followees_witness :
  ∃ w',
    handler noon_runtime (page 30) (Some viewer) (start_world new_user_db)
      = (Returned empty_page, w')
    ∧ user_preferences (db w')
      = [default_preferences viewer (startOfDay example_date + 43200000)].
Proof.
  destruct (handler_no_followees noon_runtime (page 30) viewer
              (start_world new_user_db))
    as (w' & Hrun & _ & Hprefs & _); [evaluate|evaluate|].
  exists w'. split; [exact Hrun|exact Hprefs].
Defined.

(** C8 as stated fails for a new user: the call has written a row. *)
Lemma handler_no_followees_creates_preferences :
  let w := start_world new_user_db in
  let result := handler noon_runtime (page 30) (Some viewer) w in
  getUserFollowees viewer (db w) = []
  ∧ result.1 = Returned empty_page
  ∧ length (user_preferences (db result.2)) = 1%nat
  ∧ db result.2 ≠ db w.
Proof. vm_compute. repeat split; done. Qed.

(** C5 at page size -1. *)
Lemma handler_negative_limit_witness :
  ∃ out w',
    handler noon_runtime (page (-1)) (Some viewer) (start_world two_followees_db)
      = (Returned out, w')
    ∧ feed out = [].
Proof.
  destruct (handler_negative_limit noon_runtime (page (-1)) viewer
              (start_world two_followees_db) (-1))
    as (out & w' & Hrun & Hfeed & _); [evaluate|evaluate|evaluate|].
  exists out, w'. split; [exact Hrun|exact Hfeed].
Defined.

(** C5 as stated fails at page size 0: the page holds 13 posts, the 10 and
    3 that the quotas allow within the default page size 20. *)
Lemma handler_zero_limit_serves_default_page :
  let w := start_world two_followees_db in
  let result := handler noon_runtime (page 0) (Some viewer) w in
  Z.of_nat (all_views_on_date viewer example_date (db w))
    < UserPreferences.daily_post_limit (preferences_in noon_runtime viewer w)
  ∧ (feed <$> match result.1 with Returned out => Some out | Thrown _ => None end)
    ≠ Some []
  ∧ (length ∘ feed <$> match result.1 with Returned out => Some out | Thrown _ => None end)
    = Some 13%nat.
Proof. vm_compute. repeat split; done. Qed.

(** C6 on Alice (quota 10) and Bob (quota 3) with a page of 8. *)
Lemma handler_priority_first_witness :
  ∃ out w',
    handler noon_runtime (page 8) (Some viewer) (start_world two_followees_db)
      = (Returned out, w')
    ∧ contribution two_followees_db alice out = 8%nat
    ∧ contribution two_followees_db bob out = 0%nat.
Proof.
  destruct (handler_priority_first noon_runtime (page 8) viewer
              (start_world two_followees_db) (example_edge alice 10) (example_edge bob 3))
    as (_ & out & w' & Hrun & _ & Halice & Hbob);
    [evaluate | unfold unique_posts; decide_by_evaluation | apply Permutation_swap
    | evaluate | evaluate | evaluate | evaluate | evaluate | evaluate |].
  exists out, w'. split; [exact Hrun|]. split; [exact Halice|exact Hbob].
Defined.

(** C6, as the claim states it.  Quotas 10 and 3, a page cap of 8 and
    twenty unviewed posts of each followee, but five posts of the quota-10
    followee viewed today: 5 of the 10 are left, and the page holds 5
    posts of the quota-10 followee and 3 of the quota-3 followee. *)
Theorem handler_priority_after_views_today :
  let w := start_world five_viewed_db in
  let viewed := viewed_on viewer example_date five_viewed_db in
  let result := handler noon_runtime (page 8) (Some viewer) w in
  let page_of := match result.1 with Returned out => Some out | Thrown _ => None end in
  (FolloweeRelationship.followee_did <$> getUserFollowees viewer five_viewed_db
   = [bob; alice]
   ∧ FolloweeRelationship.mahoot_number <$> getUserFollowees viewer five_viewed_db
     = [3; 10])
  ∧ Z.min (UserPreferences.daily_post_limit (preferences_in noon_runtime viewer w)
           - Z.of_nat (length viewed))
          (limit_or_default (page 8)) = 8
  ∧ length (unviewed_posts viewer alice five_viewed_db) = 20%nat
  ∧ length (unviewed_posts viewer bob five_viewed_db) = 25%nat
  ∧ viewed_from viewed alice = 5
  ∧ (length ∘ feed <$> page_of) = Some 8%nat
  ∧ (contribution five_viewed_db alice <$> page_of) = Some 5%nat
  ∧ (contribution five_viewed_db bob <$> page_of) = Some 3%nat
  ∧ (contribution five_viewed_db bob <$> page_of) ≠ Some 0%nat.
Proof. vm_compute. repeat split; done. Qed.

(** C9 on rows of 30 and 50 views: two days, average 40. *)
Lemma get30DayRollingStats_two_days_witness :
  ∃ stats,
    (get30DayRollingStats noon_runtime viewer (start_world two_days_db)).1
      = Returned stats
    ∧ daysWithData stats = 2
    ∧ (averagePostsPerDay stats == 40)%Q.
Proof.
  destruct (get30DayRollingStats_two_days noon_runtime viewer (start_world two_days_db)
              (DailyStats.mk viewer (example_date - 12) 30 4)
              (DailyStats.mk viewer (example_date - 1) 50 5))
    as (stats & Hrun & Hdays & _ & Havg & _); [evaluate|].
  exists stats. split; [exact Hrun|]. split; [exact Hdays|].
  rewrite Havg. reflexivity.
Defined.

(** C10 on Bob, unfollowed after a view: listed, with quota 0. *)
Lemma unfollowed_author_reported_as_muted_witness :
  ∃ all stats,
    (getAllAuthorStats noon_runtime viewer (start_world unfollowed_db)).1 = Returned all
    ∧ stats ∈ all
    ∧ pas_author_did stats = bob
    ∧ pas_mahoot_number stats = 0.
Proof.
  destruct (unfollowed_author_reported_as_muted noon_runtime viewer bob
              (start_world unfollowed_db)) as (_ & _ & Hlisted); [evaluate|].
  apply (Hlisted (PostStatistics.mk (Post.uri (Post.mk
           ("at://" +:+ bob +:+ "/app.bsky.feed.post/" +:+ pretty 0%nat)
           "bafyexample" 0 bob)) bob viewer (startOfDay example_date))).
  - apply list_elem_of_here.
  - reflexivity.
  - reflexivity.
Defined.

(** C7 on a call at noon by a viewer with one view today: the row of the
    day is upserted to 2, the number of the day's ViewRecords. *)
Lemma handler_keeps_daily_stats_witness :
  let result := handler noon_runtime (page 30) (Some viewer) (start_world one_view_db) in
  ∃ out,
    result.1 = Returned out
    ∧ length (feed out) = 1%nat
    ∧ stored_total viewer example_date (db result.2) = Some 2
    ∧ all_views_on_date viewer example_date (db result.2) = 2%nat.
Proof.
  destruct (handler_keeps_daily_stats noon_runtime (page 30) viewer
              (start_world one_view_db) example_date) as [Hserved _].
  - evaluate.
  - intros i Hi. vm_compute in Hi.
    unfold in_day_range, noon_runtime, example_date, startOfDay, lastMsOfDay, MS_PER_DAY.
    cbn [clock]. lia.
  - intros v Hv _. apply list_elem_of_singleton in Hv as ->. evaluate.
  - destruct Hserved as (out & Hrun & Hstored & Hcount); [evaluate|evaluate|].
    exists out. split; [exact Hrun|].
    assert (length (feed out) = 1%nat) as Hpage.
    { revert Hrun. vm_compute. intros [= <-]. reflexivity. }
    split; [exact Hpage|]. rewrite Hpage in Hstored, Hcount.
    split; [exact Hstored|].
    apply Nat2Z.inj. rewrite Hcount. reflexivity.
Defined.

Lemma addOrUpdateFolloweeRelationship_keeps_unique_edges_witness :
  let w' := (addOrUpdateFolloweeRelationship noon_runtime viewer carol None None
               (start_world two_followees_db)).2 in
  unique_edges (followee_relationships (db w'))
  ∧ length (followee_relationships (db w')) = 3%nat
  ∧ getFolloweeCount viewer (db w') = 3.
Proof.
  destruct (addOrUpdateFolloweeRelationship_keeps_unique_edges noon_runtime viewer carol
              None None (start_world two_followees_db)) as (Hunique & Hrows & Hcount).
  - unfold unique_edges. decide_by_evaluation.
  - split; [exact Hunique|]. split; [exact Hrows|exact Hcount].
Defined.

Lemma follow_then_unfollow_round_trip_witness :
  let w1 := (addOrUpdateFolloweeRelationship noon_runtime viewer bob (Some 5) None
               (start_world one_followee_db)).2 in
  let w2 := (removeFolloweeRelationship viewer bob w1).2 in
  isFollowing viewer bob (db w1) = true ∧ db w2 = one_followee_db.
Proof.
  destruct (follow_then_unfollow_round_trip noon_runtime viewer bob (Some 5) None
              (start_world one_followee_db)) as (Hfollows & _ & Hsame).
  - reflexivity.
  - split; [exact Hfollows|]. apply Hsame. by eexists.
Defined.

Lemma handleEvent_follow_resets_quotas_witness :
  let w' := (handleEvent noon_runtime follow_commit (start_world two_followees_db)).2 in
  uniform_quota viewer (db w') ∧ isFollowing viewer carol (db w') = true.
Proof.
  destruct (handleEvent_follow_resets_quotas noon_runtime follow_commit
              (start_world two_followees_db) follow_of_carol) as [Huniform Hfollows].
  - apply list_elem_of_here.
  - split; [exact Huniform|]. apply Hfollows. reflexivity.
Defined.

Lemma handleEvent_unfollow_keeps_quotas_witness :
  let w' := (handleEvent noon_runtime unfollow_commit (start_world two_followees_db)).2 in
  followee_relationships (db w') = [example_edge bob 3]
  ∧ user_preferences (db w') = [example_preferences 300].
Proof.
  destruct (handleEvent_unfollow_keeps_quotas noon_runtime unfollow_commit
              (start_world two_followees_db)) as [Hedges Hprefs].
  - reflexivity.
  - unfold unique_edges. decide_by_evaluation.
  - unfold unique_follow_uris. decide_by_evaluation.
  - split; [|exact Hprefs]. rewrite Hedges. vm_compute. reflexivity.
Defined.

Lemma updateDailyStats_keeps_unique_key_witness :
  let w' := (updateDailyStats noon_runtime viewer (example_date - 1) 51 5
               (start_world two_days_db)).2 in
  unique_daily_stats (daily_stats (db w'))
  ∧ length (daily_stats (db w')) = 3%nat.
Proof.
  destruct (updateDailyStats_keeps_unique_key noon_runtime viewer (example_date - 1) 51 5
              (start_world two_days_db)) as [Hunique Hrows].
  - unfold unique_daily_stats. decide_by_evaluation.
  - split; [exact Hunique|exact Hrows].
Defined.

Lemma getPostAuthorStats_counts_nested_witness :
  ∃ stats,
    (getPostAuthorStats noon_runtime viewer alice (start_world one_view_db)).1
      = Returned stats
    ∧ posts_viewed_today stats ≤ posts_viewed_this_week stats
    ∧ posts_viewed_this_week stats ≤ posts_viewed_this_month stats.
Proof.
  destruct (getPostAuthorStats_counts_nested noon_runtime viewer alice
              (start_world one_view_db)) as (stats & Hrun & _ & Hweek & Hmonth).
  - vm_compute. discriminate.
  - vm_compute. discriminate.
  - exists stats. split; [exact Hrun|]. split; [exact Hweek|exact Hmonth].
Defined.

Lemma getPostsViewedInLastDays_covers_today_witness :
  ∃ today recent,
    (getPostsViewedToday noon_runtime viewer (start_world one_view_db)).1 = Returned today
    ∧ (getPostsViewedInLastDays noon_runtime viewer 7 (start_world one_view_db)).1
      = Returned recent
    ∧ ∀ view, view ∈ today → view ∈ recent.
Proof.
  destruct (getPostsViewedInLastDays_covers_today noon_runtime viewer alice 7
              (start_world one_view_db))
    as (today & recent & byAuthor & Htoday & Hrecent & _ & Hcovers & _).
  - lia.
  - exists today, recent. rewrite Htoday, Hrecent. split; [done|]. split; [done|].
    intros view Hview. by apply Hcovers.
Defined.

Lemma cleanupOldStatistics_keeps_today_witness :
  let w' := (cleanupOldStatistics noon_runtime None (start_world one_view_db)).2 in
  viewed_on viewer example_date (db w') = viewed_on viewer example_date one_view_db.
Proof.
  destruct (cleanupOldStatistics_keeps_today noon_runtime None (start_world one_view_db))
    as (Hviews & _).
  - cbn. lia.
  - apply (Hviews viewer).
Defined.

Lemma cleanupOldStatistics_forgets_old_views_witness :
  let w' := (cleanupOldStatistics noon_runtime None (start_world old_view_db)).2 in
  unviewed_posts viewer alice old_view_db = []
  ∧ unviewed_posts viewer alice (db w') = example_posts alice 1.
Proof.
  split; [reflexivity|].
  pose proof (cleanupOldStatistics_forgets_old_views noon_runtime None
                (start_world old_view_db) viewer
                (Post.mk ("at://" +:+ alice +:+ "/app.bsky.feed.post/" +:+ pretty 0%nat)
                   "bafyexample" 0 alice)) as Hforgets.
  cbv zeta in Hforgets.
  assert (Post.mk ("at://" +:+ alice +:+ "/app.bsky.feed.post/" +:+ pretty 0%nat)
            "bafyexample" 0 alice
          ∈ unviewed_posts viewer alice
              (db (cleanupOldStatistics noon_runtime None (start_world old_view_db)).2))
    as Hin.
  { apply Hforgets.
    - apply list_elem_of_here.
    - intros view Hview _ _. apply list_elem_of_singleton in Hview as ->.
      vm_compute. reflexivity. }
  vm_compute. reflexivity.
Defined.

Lemma getUnviewedPostsByAuthor_newest_unviewed_witness :
  let result := getUnviewedPostsByAuthor viewer alice 2 two_followees_db in
  Z.of_nat (length result) ≤ 2 ∧ newest_first result.
Proof.
  destruct (getUnviewedPostsByAuthor_newest_unviewed viewer alice 2 two_followees_db)
    as (Hlength & _ & Hsorted & _).
  - lia.
  - split; [exact Hlength|exact Hsorted].
Defined.

Lemma getUnviewedPosts_newest_unviewed_witness :
  let result := getUnviewedPosts viewer None two_followees_db in
  Z.of_nat (length result) ≤ 100 ∧ newest_first result.
Proof.
  destruct (getUnviewedPosts_newest_unviewed viewer None two_followees_db)
    as (Hlength & _ & Hsorted & _).
  - cbn. lia.
  - split; [exact Hlength|exact Hsorted].
Defined.

Lemma handler_serves_fresh_posts_witness :
  ∃ out w',
    handler noon_runtime (page 8) (Some viewer) (start_world two_followees_db)
      = (Returned out, w')
    ∧ Forall (λ entry, ∃ followee,
        followee ∈ getUserFollowees viewer two_followees_db
        ∧ FolloweeRelationship.mahoot_number followee ≠ 0
        ∧ fresh_post viewer two_followees_db (SkeletonItem.post entry)
            (FolloweeRelationship.followee_did followee)) (feed out).
Proof.
  apply (handler_serves_fresh_posts noon_runtime (page 8) viewer
           (start_world two_followees_db)).
  evaluate.
Defined.

Lemma handler_page_has_no_duplicates_witness :
  ∃ out w',
    handler noon_runtime (page 8) (Some viewer) (start_world two_followees_db)
      = (Returned out, w')
    ∧ NoDup (SkeletonItem.post <$> feed out).
Proof.
  apply (handler_page_has_no_duplicates noon_runtime (page 8) viewer
           (start_world two_followees_db)).
  - evaluate.
  - unfold unique_posts. decide_by_evaluation.
Defined.


Lemma muted_followee_never_tracked_witness :
  let w' := after_calls noon_runtime viewer [page 30; page 30] (start_world muted_db) in
  length (unviewed_posts viewer alice muted_db) = 3%nat
  ∧ filter (λ view, PostStatistics.author_did view = alice) (post_statistics (db w')) = []
  ∧ PostStatistics.author_did <$> post_statistics (db w') = [bob; bob]
  ∧ length (unviewed_posts viewer alice (db w')) = 3%nat.
Proof.
  split; [reflexivity|]. split; [|split; reflexivity].
  apply (muted_followee_never_tracked noon_runtime viewer alice [page 30; page 30]
           (start_world muted_db)).
  - evaluate.
  - unfold one_edge_per_followee. decide_by_evaluation.
  - intros e He Halice.
    apply elem_of_cons in He as [->|He]; [reflexivity|].
    apply list_elem_of_singleton in He as ->. discriminate Halice.
Defined.

Lemma quota_kept_on_every_date_witness :
  Z.of_nat (views_on_date viewer alice example_date
              (db (after_calls still_noon_runtime viewer [page 30; page 30]
                     (start_world one_followee_db)))) ≤ 1.
Proof.
  apply (quota_kept_on_every_date still_noon_runtime viewer alice 1 [page 30; page 30]
           (start_world one_followee_db)).
  - intros i j _. reflexivity.
  - intros i date. unfold still_noon_runtime, example_date, startOfDay, lastMsOfDay,
      MS_PER_DAY. cbn [clock]. lia.
  - evaluate.
  - unfold one_edge_per_followee. decide_by_evaluation.
  - intros e He _. apply list_elem_of_singleton in He as ->. reflexivity.
  - intros v Hv. by apply elem_of_nil in Hv.
  - intros v date Hv. by apply elem_of_nil in Hv.
  - intros date. cbn. lia.
Defined.

Lemma rolling_average_between_daily_totals_witness :
  ∃ stats,
    (get30DayRollingStats noon_runtime viewer (start_world two_days_db)).1 = Returned stats
    ∧ daysWithData stats = 2
    ∧ totalPostsViewed stats = 80
    ∧ (30 <= averagePostsPerDay stats <= 50)%Q
    ∧ 4 ≤ followeeCount stats ≤ 5.
Proof.
  destruct (rolling_average_between_daily_totals noon_runtime viewer
              (start_world two_days_db) 30 50 4 5)
    as (stats & Hrun & Hdays & Htotal & Haverage & Hfollowees).
  - discriminate.
  - repeat constructor; vm_compute; discriminate.
  - exists stats. split; [exact Hrun|]. split; [exact Hdays|]. split; [exact Htotal|].
    split; [exact Haverage|exact Hfollowees].
Defined.
